(** * beta-intelligence: the listing / query / export pipeline

    A shallow embedding of the parts of the dashboard that turn URL query
    parameters into a paginated, sorted, filtered listing request, and of the
    client-side CSV export.

    - [Strconv], [Fiber], [ProfessionHandler]: the Go handler
      [profession_handler.go] (pagination and sort validation).
    - [PaginationComponent]: [components/pagination.tsx].
    - [LeadRoute]: the parameters read by [api/lead/route.ts].
    - [JS], [URLSearchParams], [JSON]: the pieces of the JavaScript runtime
      the TypeScript sources rely on.
    - [EventsPage]: [fetchEvents] and [parseSearchParams] of the events page.
    - [DateFilter], [PesquisasTable]: date-range compilation.
    - [EventsTable], [ExportJob]: CSV rendering and the export handlers. *)

From Stdlib Require Import ZArith NArith List String Ascii Bool Lia.
From stdpp Require Import base decidable option list gmap strings.

Local Open Scope Z_scope.
Set Warnings "-register-all".
Set Default Proof Using "Type".

(* ===================================================================== *)
(** * Go: [strconv.Atoi], Fiber's [Ctx.Query], 64-bit integers          *)
(* ===================================================================== *)

Module Int64.

Definition min_int : Z := - 2 ^ 63.
Definition max_int : Z := 2 ^ 63 - 1.

(** Two's-complement wrap-around of a mathematical integer to [int64]. *)
Definition wrap (z : Z) : Z := (z + 2 ^ 63) mod 2 ^ 64 - 2 ^ 63.

Definition in_range (z : Z) : Prop := min_int <= z <= max_int.

Definition add (a b : Z) : Z := wrap (a + b).
Definition sub (a b : Z) : Z := wrap (a - b).

(** Go's [/] on integers truncates toward zero and panics on a zero
    divisor ([None]); [MinInt64 / -1] wraps. *)
Definition div (a b : Z) : option Z :=
  if b =? 0 then None else Some (wrap (Z.quot a b)).

End Int64.

Module Strconv.

Inductive NumError := ErrSyntax | ErrRange.

Definition digit_of (c : ascii) : option Z :=
  let n := Z.of_N (N_of_ascii c) in
  if (48 <=? n) && (n <=? 57) then Some (n - 48) else None.

(** The digits of [s] read in base ten, most significant first; [None] as
    soon as a byte is not a decimal digit. *)
Fixpoint digits (acc : Z) (s : string) : option Z :=
  match s with
  | EmptyString => Some acc
  | String c s' =>
      match digit_of c with
      | Some d => digits (acc * 10 + d) s'
      | None => None
      end
  end.

(** [strconv.Atoi]: an optional sign followed by at least one decimal
    digit.  A syntax error yields [0]; a value outside [int] yields the
    nearest bound together with [ErrRange]. *)
Definition Atoi (s : string) : Z * option NumError :=
  let '(neg, body) :=
    match s with
    | String "-" r => (true, r)
    | String "+" r => (false, r)
    | _ => (false, s)
    end in
  match body with
  | EmptyString => (0, Some ErrSyntax)
  | _ =>
      match digits 0 body with
      | None => (0, Some ErrSyntax)
      | Some un =>
          if negb neg && (Int64.max_int <? un) then (Int64.max_int, Some ErrRange)
          else if neg && (2 ^ 63 <? un) then (Int64.min_int, Some ErrRange)
          else (if neg then - un else un, None)
      end
  end.

End Strconv.

Module Fiber.

(** The query string of a request, decoded: the key/value pairs in the
    order received. *)
Definition QueryArgs := list (string * string).

Fixpoint Peek (args : QueryArgs) (key : string) : option string :=
  match args with
  | [] => None
  | (k, v) :: rest => if String.eqb k key then Some v else Peek rest key
  end.

(** [c.Query(key, defaultValue)]: the first value of [key]; the default
    when the key is absent or its value is empty. *)
Definition Query (args : QueryArgs) (key defaultValue : string) : string :=
  match Peek args key with
  | Some v => if String.eqb v EmptyString then defaultValue else v
  | None => defaultValue
  end.

End Fiber.

(* ===================================================================== *)
(** * [profession_handler.go]                                            *)
(* ===================================================================== *)

Module ProfessionHandler.
Import Strconv Fiber.

Definition validSortFields : gmap string string :=
  list_to_map
    [ ("profession_id",   "profession_id");
      ("created_at",      "created_at");
      ("profession_name", "profession_name");
      ("meta_pixel",      "meta_pixel");
      ("meta_token",      "meta_token") ]%string.

Record Meta := {
  total : Z;
  page : Z;
  limit : Z;
  last_page : Z;
  sort_by : string;
  sort_direction : string;
  valid_sort_fields : list string
}.

Section Handler.

(** The record type of the data layer and the use case behind the
    handler ([usecases.ProfessionUseCase]), which are outside the
    handler's file: [GetProfessions(page, limit, orderBy)] returns the
    rows, the total count and an optional error. *)
Variable Profession : Type.
Variable professionUseCase :
  Z -> Z -> string -> list Profession * Z * option string.
(** [getKeys], a helper of the package: the keys of a map as a slice. *)
Variable getKeys : gmap string string -> list string.

Inductive Response :=
| StatusInternalServerError (error : string)
| StatusOK (data : list Profession) (meta : Meta)
| RuntimePanic.

(** The validated sort direction (lines 25-30). *)
Definition resolveSortDirection (args : QueryArgs) : string :=
  let sortDirection := Query args "sortDirection" "desc" in
  if negb (String.eqb sortDirection "asc") && negb (String.eqb sortDirection "desc")
  then "desc"%string else sortDirection.

(** The order-by expression handed to the use case (lines 41-44). *)
Definition buildOrderBy (args : QueryArgs) : string :=
  let sortBy := Query args "sortBy" "created_at" in
  match validSortFields !! sortBy with
  | Some field => (field ++ " " ++ resolveSortDirection args)%string
  | None => "created_at desc"%string
  end.

(** What the handler passes to the data layer. *)
Record UseCaseCall := { uc_page : Z; uc_limit : Z; uc_orderBy : string }.

Definition useCaseCall (args : QueryArgs) : UseCaseCall :=
  {| uc_page := fst (Atoi (Query args "page" "1"));
     uc_limit := fst (Atoi (Query args "limit" "10"));
     uc_orderBy := buildOrderBy args |}.

(** [last_page]: [(total + int64(limit) - 1) / int64(limit)]. *)
Definition lastPage (total limit : Z) : option Z :=
  Int64.div (Int64.sub (Int64.add total limit) 1) limit.

Definition GetProfessions (args : QueryArgs) : Response :=
  let page := fst (Atoi (Query args "page" "1")) in
  let limit := fst (Atoi (Query args "limit" "10")) in
  let sortBy := Query args "sortBy" "created_at" in
  let sortDirection := resolveSortDirection args in
  let call := useCaseCall args in
  match professionUseCase (uc_page call) (uc_limit call) (uc_orderBy call) with
  | (_, _, Some err) => StatusInternalServerError err
  | (professions, total, None) =>
      match lastPage total limit with
      | None => RuntimePanic
      | Some lp =>
          StatusOK professions
            {| total := total;
               page := page;
               limit := limit;
               last_page := lp;
               sort_by := sortBy;
               sort_direction := sortDirection;
               valid_sort_fields := getKeys validSortFields |}
      end
  end.

End Handler.

Arguments StatusInternalServerError {Profession} _.
Arguments StatusOK {Profession} _ _.
Arguments RuntimePanic {Profession}.
Arguments GetProfessions {Profession} _ _ _.

End ProfessionHandler.

(* ===================================================================== *)
(** * The JavaScript runtime, as far as the sources use it               *)
(* ===================================================================== *)

Module JS.

(** A JavaScript string is a sequence of UTF-16 code units. *)
Definition jsstr := list N.

(** An ASCII literal of the source as a JavaScript string. *)
Definition js (s : string) : jsstr :=
  map N_of_ascii (list_ascii_of_string s).

(** The same for a literal holding double quotes, written with the
    apostrophe in their place. *)
Definition jsq (s : string) : jsstr :=
  map (fun c => if (c =? 39)%N then 34%N else c) (js s).

Definition jsstr_eqb (a b : jsstr) : bool := bool_decide (a = b).

(** ** Numbers

    The sources only do integer arithmetic on counts and page numbers, all
    far below 2^53, where IEEE doubles are exact.  A [number] is such an
    integer or one of the three non-finite results of a division. *)
Inductive number :=
| Int (z : Z)
| PosInfinity
| NegInfinity
| NaN.

(** [Math.ceil(a / b)] for integer-valued [a] and [b]. *)
Definition Math_ceil_div (a b : Z) : number :=
  if b =? 0 then
    (if 0 <? a then PosInfinity else if a <? 0 then NegInfinity else NaN)
  else Int (- ((- a) / b)).

(** [ToBoolean] on numbers: zero and [NaN] are falsy. *)
Definition number_truthy (x : number) : bool :=
  match x with
  | Int z => negb (z =? 0)
  | NaN => false
  | _ => true
  end.

(** [x || d] on numbers. *)
Definition number_or (x d : number) : number :=
  if number_truthy x then x else d.

(** ** Decimal rendering of integers: [String(n)], [n.toString()]

    The digits of the integer, which is what [String] gives up to 2^53
    in magnitude; beyond, it gives the shortest digits that identify the
    double, and the exponent form from 10^21 on. *)
Definition digit_char (d : Z) : N := Z.to_N (48 + d).

Fixpoint nat_digits (fuel : nat) (n : Z) (acc : jsstr) : jsstr :=
  match fuel with
  | O => acc
  | S fuel' =>
      let acc' := digit_char (n mod 10) :: acc in
      if n <? 10 then acc' else nat_digits fuel' (n / 10) acc'
  end.

Definition Number_toString (n : Z) : jsstr :=
  if n <? 0 then 45%N :: nat_digits (S (Z.to_nat (Z.log2 (- n)))) (- n) []
  else nat_digits (S (Z.to_nat (Z.log2 n))) n [].

(** ** [String.prototype.trim]

    WhiteSpace and LineTerminator code points of ECMAScript. *)
Definition isWhiteSpace (c : N) : bool :=
  ((9 <=? c) && (c <=? 13) || (c =? 32) || (c =? 160) || (c =? 5760)
   || (8192 <=? c) && (c <=? 8202) || (c =? 8232) || (c =? 8233)
   || (c =? 8239) || (c =? 8287) || (c =? 12288) || (c =? 65279))%N.

Fixpoint trimStart (s : jsstr) : jsstr :=
  match s with
  | c :: r => if isWhiteSpace c then trimStart r else s
  | [] => []
  end.

Definition trimEnd (s : jsstr) : jsstr := rev (trimStart (rev s)).

Definition trim (s : jsstr) : jsstr := trimEnd (trimStart s).

(** [s.replace] with the global double-quote pattern: every double quote
    (code unit 34) is doubled. *)
Fixpoint replace_quotes (s : jsstr) : jsstr :=
  match s with
  | [] => []
  | c :: r => if (c =? 34)%N then 34%N :: 34%N :: replace_quotes r
              else c :: replace_quotes r
  end.

(** [parts.join(sep)] *)
Fixpoint join (sep : jsstr) (parts : list jsstr) : jsstr :=
  match parts with
  | [] => []
  | [p] => p
  | p :: rest => p ++ sep ++ join sep rest
  end.

(** [s.split(sep)] for a one-unit separator. *)
Fixpoint split_on (sep : N) (s : jsstr) (cur : jsstr) : list jsstr :=
  match s with
  | [] => [rev cur]
  | c :: r => if (c =? sep)%N then rev cur :: split_on sep r []
              else split_on sep r (c :: cur)
  end.

Definition split (sep : N) (s : jsstr) : list jsstr := split_on sep s [].

(** [s.includes(c)] for a one-unit needle. *)
Definition includes (c : N) (s : jsstr) : bool := existsb (N.eqb c) s.

(** Exceptions the modelled code can raise or catch. *)
Inductive exn :=
| SyntaxError
| TypeError
| RangeError
| Error (message : jsstr).

End JS.

(* ===================================================================== *)
(** * [URLSearchParams]                                                  *)
(* ===================================================================== *)

Module URLSearchParams.
Import JS.

(** The ordered list of name/value pairs; names may repeat. *)
Definition t := list (jsstr * jsstr).

Fixpoint get (p : t) (name : jsstr) : option jsstr :=
  match p with
  | [] => None
  | (k, v) :: rest => if jsstr_eqb k name then Some v else get rest name
  end.

Definition has (p : t) (name : jsstr) : bool :=
  existsb (fun kv => jsstr_eqb (fst kv) name) p.

Definition delete (p : t) (name : jsstr) : t :=
  List.filter (fun kv => negb (jsstr_eqb (fst kv) name)) p.

(** [set]: the first pair named [name] takes the value and the others are
    removed; without such a pair, a new one is appended. *)
Fixpoint set (p : t) (name value : jsstr) : t :=
  match p with
  | [] => [(name, value)]
  | (k, v) :: rest =>
      if jsstr_eqb k name then (name, value) :: delete rest name
      else (k, v) :: set rest name value
  end.

Definition entries (p : t) : list (jsstr * jsstr) := p.
Definition keys (p : t) : list jsstr := map fst p.

End URLSearchParams.

(* ===================================================================== *)
(** * [components/pagination.tsx]                                        *)
(* ===================================================================== *)

Module PaginationComponent.
Import JS.

(** [const pages = Math.ceil(totalCount / perPage) || 1] *)
Definition pages (totalCount perPage : Z) : number :=
  number_or (Math_ceil_div totalCount perPage) (Int 1).

(** The "next" and "last" buttons are disabled when [pages <= pageIndex]. *)
Definition nextDisabled (pageIndex totalCount perPage : Z) : bool :=
  match pages totalCount perPage with
  | Int p => p <=? pageIndex
  | PosInfinity => false
  | NegInfinity => true
  | NaN => false
  end.

End PaginationComponent.

(* ===================================================================== *)
(** * [api/lead/route.ts]: reading the paging parameters                 *)
(* ===================================================================== *)

Module LeadRoute.
Import JS.

Record Paging := {
  page : jsstr;
  limit : jsstr;
  sortBy : jsstr;
  sortDirection : jsstr
}.

(** [searchParams.get(name) || fallback]: the fallback when the parameter
    is absent or empty. *)
Definition get_or (searchParams : URLSearchParams.t) (name fallback : jsstr)
  : jsstr :=
  match URLSearchParams.get searchParams name with
  | Some (c :: v) => c :: v
  | _ => fallback
  end.

(** Lines 6-10: the four values handed to [buildPaginationParams]; they
    stay strings and are forwarded as they are. *)
Definition paging (searchParams : URLSearchParams.t) : Paging :=
  {| page := get_or searchParams (js "page") (js "1");
     limit := get_or searchParams (js "limit") (js "10");
     sortBy := get_or searchParams (js "sortBy") (js "created_at");
     sortDirection := get_or searchParams (js "sortDirection") (js "desc") |}.

End LeadRoute.

(* ===================================================================== *)
(** * [JSON.parse]                                                       *)
(* ===================================================================== *)

Module JSON.
Import JS.

(** A JSON number as written: [(-1)^neg * mantissa * 10^exponent]. *)
Record decimal := { neg : bool; mantissa : Z; exponent : Z }.

Inductive value :=
| Null
| Bool (b : bool)
| Number (d : decimal)
| Str (s : jsstr)
| Array (items : list value)
| Object (members : list (jsstr * value)).

(** The double nearest to a non-zero decimal is zero exactly when its
    magnitude is at most 2^-1075 (half the least subnormal; the tie goes to
    the even neighbour, zero). *)
Definition decimal_is_zero (d : decimal) : bool :=
  if mantissa d =? 0 then true
  else if 0 <=? exponent d then false
  else mantissa d * 2 ^ 1075 <=? 10 ^ (- exponent d).

(** ** Lexical helpers *)

Definition is_ws (c : N) : bool :=
  ((c =? 32) || (c =? 9) || (c =? 10) || (c =? 13))%N.

Fixpoint skip_ws (s : jsstr) : jsstr :=
  match s with
  | c :: r => if is_ws c then skip_ws r else s
  | [] => []
  end.

Definition is_digit (c : N) : bool := ((48 <=? c) && (c <=? 57))%N.

Definition hex_val (c : N) : option N :=
  if ((48 <=? c) && (c <=? 57))%N then Some (c - 48)%N
  else if ((65 <=? c) && (c <=? 70))%N then Some (c - 55)%N
  else if ((97 <=? c) && (c <=? 102))%N then Some (c - 87)%N
  else None.

(** The longest prefix of decimal digits: its value on top of [acc], the
    number of digits read, and the rest. *)
Fixpoint span_digits (s : jsstr) (acc : Z) (n : Z) : Z * Z * jsstr :=
  match s with
  | c :: r =>
      if is_digit c then span_digits r (acc * 10 + Z.of_N (c - 48)) (n + 1)
      else (acc, n, s)
  | [] => (acc, n, [])
  end.

(** The characters of a string literal after its opening quote. *)
Fixpoint parse_string_body (s : jsstr) (acc : jsstr) : option (jsstr * jsstr) :=
  match s with
  | [] => None
  | c :: r =>
      if (c =? 34)%N then Some (rev acc, r)
      else if (c =? 92)%N then
        match r with
        | e :: r' =>
            if (e =? 34)%N then parse_string_body r' (34%N :: acc)
            else if (e =? 92)%N then parse_string_body r' (92%N :: acc)
            else if (e =? 47)%N then parse_string_body r' (47%N :: acc)
            else if (e =? 98)%N then parse_string_body r' (8%N :: acc)
            else if (e =? 102)%N then parse_string_body r' (12%N :: acc)
            else if (e =? 110)%N then parse_string_body r' (10%N :: acc)
            else if (e =? 114)%N then parse_string_body r' (13%N :: acc)
            else if (e =? 116)%N then parse_string_body r' (9%N :: acc)
            else if (e =? 117)%N then
              match r' with
              | h1 :: h2 :: h3 :: h4 :: r'' =>
                  match hex_val h1, hex_val h2, hex_val h3, hex_val h4 with
                  | Some a, Some b, Some c', Some d =>
                      parse_string_body r''
                        ((a * 4096 + b * 256 + c' * 16 + d)%N :: acc)
                  | _, _, _, _ => None
                  end
              | _ => None
              end
            else None
        | [] => None
        end
      else if (c <? 32)%N then None
      else parse_string_body r (c :: acc)
  end.

(** A number: an optional minus sign; an integer part without a leading
    zero (unless it is the single digit zero); optionally a point followed
    by at least one digit; optionally an exponent mark, a sign and at least
    one digit. *)
Definition parse_number (s : jsstr) : option (decimal * jsstr) :=
  let '(sign, s1) :=
    match s with
    | c :: r => if (c =? 45)%N then (true, r) else (false, s)
    | [] => (false, s)
    end in
  let '(ip, ni, s2) := span_digits s1 0 0 in
  let leading_zero :=
    match s1 with c :: _ => (c =? 48)%N | [] => false end in
  if (ni =? 0) || (leading_zero && (1 <? ni)) then None
  else
    let frac :=
      match s2 with
      | c :: r =>
          if (c =? 46)%N then
            let '(m, nf, s3) := span_digits r ip 0 in
            if nf =? 0 then None else Some (m, nf, s3)
          else Some (ip, 0, s2)
      | [] => Some (ip, 0, s2)
      end in
    match frac with
    | None => None
    | Some (m, nf, s3) =>
        let finish (e : Z) (rest : jsstr) :=
          Some ({| neg := sign; mantissa := m; exponent := e - nf |}, rest) in
        match s3 with
        | c :: r =>
            if ((c =? 101) || (c =? 69))%N then
              let '(esign, r1) :=
                match r with
                | c' :: r' =>
                    if (c' =? 45)%N then (true, r')
                    else if (c' =? 43)%N then (false, r')
                    else (false, r)
                | [] => (false, r)
                end in
              let '(ev, ne, s4) := span_digits r1 0 0 in
              if ne =? 0 then None
              else finish (if esign then - ev else ev) s4
            else finish 0 s3
        | [] => finish 0 s3
        end
    end.

Definition expect (lit : jsstr) (s : jsstr) : option jsstr :=
  if jsstr_eqb (take (length lit) s) lit then Some (drop (length lit) s)
  else None.

(** ** The recursive-descent parser

    [fuel] bounds the nesting of calls; [parse] supplies two units per code
    unit, which is enough for any input ([parse_never_out_of_fuel]). *)
Fixpoint parse_value (fuel : nat) (s : jsstr) : option (value * jsstr) :=
  match fuel with
  | O => None
  | S fuel' =>
      match skip_ws s with
      | [] => None
      | c :: r =>
          if (c =? 91)%N then
            match skip_ws r with
            | c' :: r' =>
                if (c' =? 93)%N then Some (Array [], r')
                else parse_elements fuel' r []
            | [] => None
            end
          else if (c =? 123)%N then
            match skip_ws r with
            | c' :: r' =>
                if (c' =? 125)%N then Some (Object [], r')
                else parse_members fuel' r []
            | [] => None
            end
          else if (c =? 34)%N then
            match parse_string_body r [] with
            | Some (str, rest) => Some (Str str, rest)
            | None => None
            end
          else if (c =? 116)%N then
            option_map (fun rest => (Bool true, rest)) (expect (js "true") (c :: r))
          else if (c =? 102)%N then
            option_map (fun rest => (Bool false, rest)) (expect (js "false") (c :: r))
          else if (c =? 110)%N then
            option_map (fun rest => (Null, rest)) (expect (js "null") (c :: r))
          else
            match parse_number (c :: r) with
            | Some (d, rest) => Some (Number d, rest)
            | None => None
            end
      end
  end
with parse_elements (fuel : nat) (s : jsstr) (acc : list value)
     : option (value * jsstr) :=
  match fuel with
  | O => None
  | S fuel' =>
      match parse_value fuel' s with
      | None => None
      | Some (v, rest) =>
          match skip_ws rest with
          | c :: r =>
              if (c =? 44)%N then parse_elements fuel' r (v :: acc)
              else if (c =? 93)%N then Some (Array (rev (v :: acc)), r)
              else None
          | [] => None
          end
      end
  end
with parse_members (fuel : nat) (s : jsstr) (acc : list (jsstr * value))
     : option (value * jsstr) :=
  match fuel with
  | O => None
  | S fuel' =>
      match skip_ws s with
      | c :: r =>
          if (c =? 34)%N then
            match parse_string_body r [] with
            | None => None
            | Some (key, rest) =>
                match skip_ws rest with
                | c' :: r' =>
                    if (c' =? 58)%N then
                      match parse_value fuel' r' with
                      | None => None
                      | Some (v, rest') =>
                          match skip_ws rest' with
                          | c'' :: r'' =>
                              if (c'' =? 44)%N
                              then parse_members fuel' r'' ((key, v) :: acc)
                              else if (c'' =? 125)%N
                              then Some (Object (rev ((key, v) :: acc)), r'')
                              else None
                          | [] => None
                          end
                      end
                    else None
                | [] => None
                end
            end
          else None
      | [] => None
      end
  end.

(** [JSON.parse(text)]: [None] stands for the [SyntaxError] it throws. *)
Definition parse (text : jsstr) : option value :=
  match parse_value (2 * length text + 2) text with
  | Some (v, rest) =>
      match skip_ws rest with
      | [] => Some v
      | _ => None
      end
  | None => None
  end.

(** ** Reading parsed values *)

(** [Array.isArray] *)
Definition isArray (v : value) : bool :=
  match v with Array _ => true | _ => false end.

(** Own property lookup on an object built by [JSON.parse]: of several
    members with one name, the last one wins. *)
Fixpoint lookup_member (members : list (jsstr * value)) (name : jsstr)
  : option value :=
  match members with
  | [] => None
  | (k, v) :: rest =>
      match lookup_member rest name with
      | Some v' => Some v'
      | None => if jsstr_eqb k name then Some v else None
      end
  end.

(** [ToBoolean] *)
Definition truthy (v : value) : bool :=
  match v with
  | Null => false
  | Bool b => b
  | Number d => negb (decimal_is_zero d)
  | Str s => negb (jsstr_eqb s [])
  | Array _ => true
  | Object _ => true
  end.

End JSON.

(* ===================================================================== *)
(** * The events page: [fetchEvents] and [parseSearchParams]            *)
(* ===================================================================== *)

Module EventsPage.
Import JS.

(** What [await fetch(url)] followed by reading the body can give. *)
Inductive FetchResult (Data : Type) :=
| Rejected (reason : exn)                 (* the request itself fails *)
| NotOk (status : Z) (errorText : jsstr)  (* [response.ok] is false *)
| OkBadBody                               (* [response.json()] rejects *)
| OkJson (data : Data).
Arguments Rejected {Data} _.
Arguments NotOk {Data} _ _.
Arguments OkBadBody {Data}.
Arguments OkJson {Data} _.

Record SortConfig := { column : option jsstr; direction : option jsstr }.

(** Truthiness of a [string | null]. *)
Definition truthy_str (s : option jsstr) : bool :=
  match s with
  | Some (_ :: _) => true
  | _ => false
  end.

(** Lines 24-36: pagination and sorting, always part of the request. *)
Definition basicParams (page limit : Z) (sortConfig : SortConfig)
  : URLSearchParams.t :=
  let params := [] in
  let params := URLSearchParams.set params (js "page") (Number_toString page) in
  let params := URLSearchParams.set params (js "limit") (Number_toString limit) in
  match column sortConfig with
  | Some (c :: col) =>
      let params := URLSearchParams.set params (js "sortBy") (c :: col) in
      match direction sortConfig with
      | Some (d :: dir) => URLSearchParams.set params (js "sortDirection") (d :: dir)
      | _ => params
      end
  | _ => params
  end.

Definition filterKeys : list jsstr :=
  map js [ "advanced_filters"; "filter_condition"; "profession_id"; "funnel_id";
           "time_from"; "time_to"; "filters"; "from"; "to" ]%string.

Definition basicKeys : list jsstr :=
  map js [ "page"; "limit"; "sortBy"; "sortDirection" ]%string.

(** Lines 74-82. *)
Definition hasFilters (searchParams : URLSearchParams.t) : bool :=
  URLSearchParams.has searchParams (js "from")
  || URLSearchParams.has searchParams (js "to")
  || URLSearchParams.has searchParams (js "advanced_filters")
  || URLSearchParams.has searchParams (js "filter_condition")
  || URLSearchParams.has searchParams (js "profession_id")
  || URLSearchParams.has searchParams (js "funnel_id")
  || URLSearchParams.has searchParams (js "time_from")
  || URLSearchParams.has searchParams (js "time_to")
  || URLSearchParams.has searchParams (js "filters").

(** The callback of [parsed.some]: [f => f.value && f.value.trim() !== ''].
    Reading a property of [null] and calling [trim] on a value that is not
    a string both raise a [TypeError]. *)
Definition hasNonBlankValue (f : JSON.value) : exn + bool :=
  match f with
  | JSON.Null => inl TypeError
  | JSON.Object members =>
      match JSON.lookup_member members (js "value") with
      | None => inr false
      | Some v =>
          if JSON.truthy v then
            match v with
            | JSON.Str s => inr (negb (jsstr_eqb (trim s) []))
            | _ => inl TypeError
            end
          else inr false
      end
  | _ => inr false
  end.

(** [Array.prototype.some] with a callback that may throw. *)
Fixpoint some (items : list JSON.value) : exn + bool :=
  match items with
  | [] => inr false
  | f :: rest =>
      match hasNonBlankValue f with
      | inl e => inl e
      | inr true => inr true
      | inr false => some rest
      end
  end.

Section FetchEvents.

Variable Data : Type.
(** The network: the answer to [GET /api/events?<params>]. *)
Variable fetch : URLSearchParams.t -> FetchResult Data.
Variable JSON_stringify : JSON.value -> jsstr.

(** The body of the [try] of lines 121-138, for one entry named
    [advanced_filters] or [filters]. *)
Definition tryFilterEntry (searchParams params : URLSearchParams.t)
           (key value : jsstr) : exn + URLSearchParams.t :=
  match JSON.parse value with
  | None => inl SyntaxError
  | Some parsed =>
      match parsed with
      | JSON.Array (f :: items) =>
          match some (f :: items) with
          | inl e => inl e
          | inr true =>
              let params := URLSearchParams.set params key (JSON_stringify parsed) in
              match URLSearchParams.get searchParams (js "filter_condition") with
              | Some (c :: cond) =>
                  if jsstr_eqb key (js "advanced_filters")
                  then inr (URLSearchParams.set params (js "filter_condition") (c :: cond))
                  else inr params
              | _ => inr params
              end
          | inr false => inr params
          end
      | _ => inr params
      end
  end.

(** One iteration of the loop of lines 112-154. *)
Definition copyEntry (searchParams params : URLSearchParams.t)
           (entry : jsstr * jsstr) : URLSearchParams.t :=
  let '(key, value) := entry in
  if existsb (jsstr_eqb key) basicKeys then params
  else if existsb (jsstr_eqb key) filterKeys then
    if jsstr_eqb key (js "advanced_filters") || jsstr_eqb key (js "filters") then
      match tryFilterEntry searchParams params key value with
      | inr params' => params'
      | inl _ => params           (* catch: the entry is left out *)
      end
    else if negb (jsstr_eqb value []) && negb (jsstr_eqb (trim value) [])
    then URLSearchParams.set params key value
    else params
  else URLSearchParams.set params key value.

(** The parameters of the API request. [clearing] is the session flag
    [filter_clearing_in_progress]. *)
Definition requestParams (clearing : bool) (page limit : Z)
           (sortConfig : SortConfig) (searchParams : URLSearchParams.t)
  : URLSearchParams.t :=
  let params := basicParams page limit sortConfig in
  if clearing then params
  else if negb (hasFilters searchParams) then params
  else fold_left (copyEntry searchParams)
                 (URLSearchParams.entries searchParams) params.

(** Lines 55-69, 92-104 and 160-173: the request and what becomes of its
    answer.  Every failure of the request is thrown again. *)
Definition await_fetch (params : URLSearchParams.t) : exn + Data :=
  match fetch params with
  | Rejected e => inl e
  | NotOk status errorText =>
      inl (Error (js "Falha ao buscar eventos: " ++ Number_toString status
                  ++ js " " ++ take 100 errorText))
  | OkBadBody => inl SyntaxError
  | OkJson data => inr data
  end.

Record Outcome := {
  request : URLSearchParams.t;    (* the query of the URL fetched *)
  clearing_after : bool;          (* the session flag afterwards *)
  result : exn + Data             (* returned data or thrown error *)
}.

Definition fetchEvents (clearing : bool) (page limit : Z)
           (sortConfig : SortConfig) (searchParams : URLSearchParams.t)
  : Outcome :=
  let params := requestParams clearing page limit sortConfig searchParams in
  {| request := params;
     clearing_after := false;
     result := await_fetch params |}.

End FetchEvents.

Arguments await_fetch {Data} _ _.
Arguments Outcome : clear implicits.
Arguments request {Data} _.
Arguments clearing_after {Data} _.
Arguments result {Data} _.
Arguments fetchEvents {Data} _ _ _ _ _ _ _.

(** Lines 177-212. *)
Definition parseSearchParams (params : URLSearchParams.t) : list JSON.value :=
  let parsedFilters : list JSON.value := [] in
(* try: the legacy parameter first *)
let legacy : exn + list JSON.value :=
  match URLSearchParams.get params (js "filters") with
  | Some (c :: filterParam) =>
      match JSON.parse (c :: filterParam) with
      | None => inl SyntaxError
      | Some (JSON.Array decoded) => inr decoded
      | Some _ => inr parsedFilters
      end
  | _ => inr parsedFilters
  end in
match legacy with
| inl _ => parsedFilters          (* catch *)
| inr parsedFilters =>
    if (length parsedFilters =? 0)%nat then
      match URLSearchParams.get params (js "advanced_filters") with
      | Some (c :: advancedFiltersParam) =>
          match JSON.parse (c :: advancedFiltersParam) with
          | None => parsedFilters   (* catch *)
          | Some (JSON.Array decoded) => decoded
          | Some _ => parsedFilters
          end
      | _ => parsedFilters
      end
    else parsedFilters
end.

End EventsPage.

(* ===================================================================== *)
(** * [Date]                                                             *)
(* ===================================================================== *)

Module JSDate.
Import JS.

Definition msPerDay : Z := 86400000.
Definition msPerHour : Z := 3600000.
Definition msPerMinute : Z := 60000.
Definition msPerSecond : Z := 1000.

(** A [Date] holds a time value, milliseconds since the epoch in UTC, or
    is invalid. *)
Inductive Date :=
| Valid (t : Z)
| Invalid.

Definition TimeClip (t : Z) : Date :=
  if Z.abs t <=? 8640000000000000 then Valid t else Invalid.

Definition Day (t : Z) : Z := t / msPerDay.
Definition TimeWithinDay (t : Z) : Z := t mod msPerDay.

Definition MakeTime (hour min sec ms : Z) : Z :=
  hour * msPerHour + min * msPerMinute + sec * msPerSecond + ms.

Definition MakeDate (day time : Z) : Z := day * msPerDay + time.

(** The proleptic Gregorian date of a day number (days since the epoch). *)
Definition civil_from_days (days : Z) : Z * Z * Z :=
  let z := days + 719468 in
  let era := z / 146097 in
  let doe := z - era * 146097 in
  let yoe := (doe - doe / 1460 + doe / 36524 - doe / 146096) / 365 in
  let doy := doe - (365 * yoe + yoe / 4 - yoe / 100) in
  let mp := (5 * doy + 2) / 153 in
  let d := doy - (153 * mp + 2) / 5 + 1 in
  let m := if mp <? 10 then mp + 3 else mp - 9 in
  let y := yoe + era * 400 + (if m <=? 2 then 1 else 0) in
  (y, m, d).

(** The day number of a Gregorian date; [MakeDay] for in-range fields. *)
Definition days_from_civil (y m d : Z) : Z :=
  let y := if m <=? 2 then y - 1 else y in
  let era := y / 400 in
  let yoe := y - era * 400 in
  let doy := (153 * (if 2 <? m then m - 3 else m + 9) + 2) / 5 + d - 1 in
  let doe := yoe * 365 + yoe / 4 - yoe / 100 + doy in
  era * 146097 + doe - 719468.

(** [n] in decimal, left-padded with zeros to [width] digits. *)
Fixpoint pad (width : nat) (n : Z) (acc : jsstr) : jsstr :=
  match width with
  | O => acc
  | S w => pad w (n / 10) (digit_char (n mod 10) :: acc)
  end.

(** [Date.prototype.toISOString]: the UTC fields of the time value. *)
Definition toISOString (d : Date) : exn + jsstr :=
  match d with
  | Invalid => inl RangeError
  | Valid t =>
      let '(y, m, dd) := civil_from_days (Day t) in
      let tw := TimeWithinDay t in
      let year :=
        if (0 <=? y) && (y <=? 9999) then pad 4 y []
        else (if y <? 0 then 45%N else 43%N) :: pad 6 (Z.abs y) [] in
      inr (year ++ js "-" ++ pad 2 m [] ++ js "-" ++ pad 2 dd [] ++ js "T"
           ++ pad 2 (tw / msPerHour) [] ++ js ":"
           ++ pad 2 (tw mod msPerHour / msPerMinute) [] ++ js ":"
           ++ pad 2 (tw mod msPerMinute / msPerSecond) [] ++ js "."
           ++ pad 3 (tw mod msPerSecond) [] ++ js "Z")
  end.

Section Zone.

(** [LocalTZA(t, isUTC)] of ECMAScript: the offset of the host's local
    time from UTC, in milliseconds, as the rules of the host's zone give
    it at the time value [t]; [t] is a UTC time value when [isUTC] is
    [true] and a local one otherwise (a local time that a daylight-saving
    change skips or repeats is read with the offset before the change). *)
Variable LocalTZA : Z -> bool -> Z.

Definition LocalTime (t : Z) : Z := t + LocalTZA t true.
Definition UTC (t : Z) : Z := t - LocalTZA t false.

(** [date.setHours(hour, min, sec, ms)]: the wall-clock time of the
    local calendar day of [date] is replaced. *)
Definition setHours (d : Date) (hour min sec ms : Z) : Date :=
  match d with
  | Invalid => Invalid
  | Valid t =>
      TimeClip (UTC (MakeDate (Day (LocalTime t)) (MakeTime hour min sec ms)))
  end.

(** [new Date(year, monthIndex + 1, day)]: local midnight of a calendar
    day, as a date picker hands it over. *)
Definition localMidnight (y m d : Z) : Date :=
  TimeClip (UTC (MakeDate (days_from_civil y m d) 0)).

End Zone.

(** [s.replace('Z', repl)]: the first [Z] only. *)
Fixpoint replace_first_Z (s repl : jsstr) : jsstr :=
  match s with
  | [] => []
  | c :: r => if (c =? 90)%N then repl ++ r else c :: replace_first_Z r repl
  end.

End JSDate.

(* ===================================================================== *)
(** * [events/date-filter.tsx]                                           *)
(* ===================================================================== *)

Module DateFilter.
Import JS JSDate.

Record DateRange := { from : option Date; to : option Date }.

(** The argument of the [onChange] callback. *)
Record Change := {
  ch_from : option Date;
  ch_to : option Date;
  ch_fromTime : option jsstr;
  ch_toTime : option jsstr
}.

(** [Number(s)] for the strings of the time selector, which are decimal
    digits: their value, the empty string being zero.  Any other string
    counts as [NaN] here, although [Number] reads more forms (blanks
    around the digits, a sign, a fraction, an exponent, a radix prefix). *)
Definition Number_of_digits (s : jsstr) : option Z :=
  if forallb JSON.is_digit s
  then Some (fst (fst (JSON.span_digits s 0 0))) else None.

(** [const [hours, minutes] = time.split(":").map(Number)] *)
Definition splitTime (time : jsstr) : option (Z * Z) :=
  match map Number_of_digits (split 58 time) with
  | Some h :: Some m :: _ => Some (h, m)
  | _ => None
  end.

Section Zone.
Variable LocalTZA : Z -> bool -> Z.

(** [setHours] with fields that may be [NaN] ([None]). *)
Definition setHoursOpt (d : Date) (hm : option (Z * Z)) (sec ms : Z) : Date :=
  match hm with
  | Some (h, m) => setHours LocalTZA d h m sec ms
  | None => Invalid
  end.

(** Lines 97-130: the value reported through [onChange] (a handler is
    taken to be present). *)
Definition updateFilters (selectedDates : option DateRange)
           (showCustomTime : bool) (fromTime toTime : jsstr) : Change :=
  match selectedDates with
  | Some {| from := Some selFrom; to := selTo |} =>
      let from := selFrom in
      let to := match selTo with Some t => t | None => selFrom end in
      let '(from, to) :=
        if showCustomTime then
          (setHoursOpt from (splitTime fromTime) 0 0,
           setHoursOpt to (splitTime toTime) 59 999)
        else
          (setHours LocalTZA from 0 0 0 0,
           setHours LocalTZA to 23 59 59 999) in
      {| ch_from := Some from;
         ch_to := Some to;
         ch_fromTime := if showCustomTime then Some fromTime else None;
         ch_toTime := if showCustomTime then Some toTime else None |}
  | _ =>
      {| ch_from := None; ch_to := None;
         ch_fromTime := None; ch_toTime := None |}
  end.

End Zone.

End DateFilter.

(* ===================================================================== *)
(** * [pesquisas/pesquisas-table.tsx]: applying a date filter            *)
(* ===================================================================== *)

Module PesquisasTable.
Import JS JSDate.

Inductive FilterType := captacao | pesquisa | vendas.

Definition filterName (f : FilterType) : jsstr :=
  match f with
  | captacao => js "captacao"
  | pesquisa => js "pesquisa"
  | vendas => js "vendas"
  end.

(** [FilterDateRange], which is what [DateFilter] reports. *)
Definition FilterDateRange := DateFilter.Change.

(** Lines 367-371. *)
Definition formatDateWithBrasiliaTimezone (date : Date) : exn + jsstr :=
  match toISOString date with
  | inl e => inl e
  | inr isoDate => inr (replace_first_Z isoDate (js "-03:00"))
  end.

Section Zone.
Variable LocalTZA : Z -> bool -> Z.

(** Lines 374-416: the search parameters pushed to the URL; [inr None]
    when no filter is being edited, [inl] when formatting throws. *)
Definition applyCurrentFilter (currentEditingFilter : option FilterType)
           (tempDateRange : option FilterDateRange)
           (searchParamsObj : URLSearchParams.t)
  : exn + option URLSearchParams.t :=
  match currentEditingFilter with
  | None => inr None
  | Some filter =>
      let name := filterName filter in
      let newParams := searchParamsObj in
      let newParams := URLSearchParams.set newParams (js "page") (js "1") in
      let withFrom : exn + URLSearchParams.t :=
        match tempDateRange with
        | Some {| DateFilter.ch_from := Some from |} =>
            match formatDateWithBrasiliaTimezone from with
            | inl e => inl e
            | inr formattedDate =>
                inr (URLSearchParams.set newParams (name ++ js "_from") formattedDate)
            end
        | _ => inr (URLSearchParams.delete newParams (name ++ js "_from"))
        end in
      match withFrom with
      | inl e => inl e
      | inr newParams =>
          let withTo : exn + URLSearchParams.t :=
            match tempDateRange with
            | Some {| DateFilter.ch_to := Some to |} =>
                let toDate := setHours LocalTZA to 23 59 59 999 in
                match formatDateWithBrasiliaTimezone toDate with
                | inl e => inl e
                | inr formattedDate =>
                    inr (URLSearchParams.set newParams (name ++ js "_to") formattedDate)
                end
            | _ => inr (URLSearchParams.delete newParams (name ++ js "_to"))
            end in
          match withTo with
          | inl e => inl e
          | inr newParams =>
              let newParams := URLSearchParams.delete newParams (name ++ js "_time_from") in
              let newParams := URLSearchParams.delete newParams (name ++ js "_time_to") in
              inr (Some newParams)
          end
      end
  end.

(** Picking one calendar day in the date filter, without custom times,
    and applying it to [filter]. *)
Definition compileDay (filter : FilterType) (picked : Date)
           (searchParamsObj : URLSearchParams.t)
  : exn + option URLSearchParams.t :=
  let change :=
    DateFilter.updateFilters LocalTZA
      (Some {| DateFilter.from := Some picked; DateFilter.to := Some picked |})
      false (js "00:00") (js "23:59") in
  applyCurrentFilter (Some filter) (Some change) searchParamsObj.

End Zone.

End PesquisasTable.

(* ===================================================================== *)
(** * [events/events-table.tsx]: CSV rendering                           *)
(* ===================================================================== *)

Module EventsTable.
Import JS.

Record Column := { accessorKey : jsstr; header : jsstr }.

(** An event of a listing response: a JSON object, given by its members. *)
Definition Event := list (jsstr * JSON.value).

(** Lines 292-296: the visible columns, in the order of the store. *)
Definition columnsData (defaultColumns : list Column)
           (visibleColumns : list jsstr) : list Column :=
  omap (fun id => find (fun col => jsstr_eqb (accessorKey col) id) defaultColumns)
       visibleColumns.

Definition integer (n : Z) : JSON.value :=
  JSON.Number {| JSON.neg := n <? 0; JSON.mantissa := Z.abs n; JSON.exponent := 0 |}.

(** An array index as a property name: decimal digits without a leading
    zero. *)
Definition canonical_index (k : jsstr) : option nat :=
  match k with
  | [] => None
  | c :: r =>
      if forallb JSON.is_digit k && (negb (c =? 48)%N || bool_decide (r = []))
      then Some (Z.to_nat (fst (fst (JSON.span_digits k 0 0))))
      else None
  end.

(** [v[k]] among the members that a parsed JSON value other than [null]
    holds itself: the members of an object, the elements and the [length]
    of an array or a string.  [None] when it holds none of that name; the
    read then goes on to the built-in prototypes ([inherited] below). *)
Definition get_prop (v : JSON.value) (k : jsstr) : option JSON.value :=
  match v with
  | JSON.Object members => JSON.lookup_member members k
  | JSON.Array items =>
      if jsstr_eqb k (js "length") then Some (integer (Z.of_nat (length items)))
      else match canonical_index k with
           | Some i => nth_error items i
           | None => None
           end
  | JSON.Str s =>
      if jsstr_eqb k (js "length") then Some (integer (Z.of_nat (length s)))
      else match canonical_index k with
           | Some i => option_map (fun c => JSON.Str [c]) (nth_error s i)
           | None => None
           end
  | _ => None
  end.

Section Rendering.

(** [String(x)] on a number, and the [Intl] formatting of
    [formatDateToBRT] (lines 39-66), both left to the runtime. *)
Variable Number_toString_double : JSON.decimal -> jsstr.
Variable formatDateToBRT : jsstr -> jsstr.

(** The members that the values inherit from the built-in prototypes of
    the host ([Object.prototype], [Array.prototype], [String.prototype],
    ...), also left to the runtime: [inherited v k rest] is [None] when
    [v] inherits no member named [k]; otherwise it is the text that the
    loop over the names and the [String] after it give when [v[k]] is
    that member and [rest] are the names that follow. *)
Variable inherited : JSON.value -> jsstr -> list jsstr -> option jsstr.

(** [String(v)] *)
Fixpoint ToString (v : JSON.value) : jsstr :=
  match v with
  | JSON.Null => js "null"
  | JSON.Bool true => js "true"
  | JSON.Bool false => js "false"
  | JSON.Number d => Number_toString_double d
  | JSON.Str s => s
  | JSON.Array items =>
      join (js ",")
           (map (fun x => match x with
                          | JSON.Null => []
                          | _ => ToString x
                          end) items)
  | JSON.Object _ => js "[object Object]"
  end.

(** Where the loop over the parts of a dotted accessor key ends: at a
    value of the record ([None] is [undefined]), or among the built-in
    members, with the text they give. *)
Inductive Reached :=
| InRecord (currentValue : option JSON.value)
| InBuiltins (text : jsstr).

(** The loop: the local variable [value] and where [currentValue] is
    when the loop ends. *)
Fixpoint walk (keys : list jsstr) (value : jsstr)
         (currentValue : option JSON.value) : jsstr * Reached :=
  match keys with
  | [] => (value, InRecord currentValue)
  | k :: rest =>
      match currentValue with
      | None => (js "-", InRecord currentValue)              (* break *)
      | Some JSON.Null => (js "-", InRecord currentValue)    (* break *)
      | Some v =>
          match get_prop v k with
          | Some member => walk rest value (Some member)
          | None =>
              match inherited v k rest with
              | Some text => (value, InBuiltins text)
              | None => walk rest value None
              end
          end
      end
  end.

(** The text of one cell before quoting. *)
Definition cellValue (event : Event) (column : Column) : jsstr :=
  let key := accessorKey column in
  let value : jsstr :=
    if includes 46 key then
      let keys := split 46 key in
      let '(value, reached) := walk keys [] (Some (JSON.Object event)) in
      (* the assignment after the loop overwrites [value] *)
      match reached with
      | InRecord (Some v) => ToString v
      | InRecord None => js "-"
      | InBuiltins text => text
      end
    else
      match JSON.lookup_member event key with
      | Some v => ToString v
      | None =>
          match inherited (JSON.Object event) key [] with
          | Some text => text
          | None => js "-"
          end
      end in
  if jsstr_eqb key (js "event_time") && negb (jsstr_eqb value [])
     && negb (jsstr_eqb value (js "-"))
  then formatDateToBRT value else value.

(** The quoted field: a double quote, the value with its double quotes
    doubled, a double quote. *)
Definition csvField (value : jsstr) : jsstr :=
  [34%N] ++ replace_quotes value ++ [34%N].

Definition csvRow (columns : list Column) (event : Event) : jsstr :=
  join (js ",") (map (fun column => csvField (cellValue event column)) columns).

Definition csvHeader (columns : list Column) : jsstr :=
  join (js ",") (map header columns).

(** [[headers.join(','), ...rows].join('\n')] *)
Definition csvContent (columns : list Column) (events : list Event) : jsstr :=
  join [10%N] (csvHeader columns :: map (csvRow columns) events).

End Rendering.

End EventsTable.

(* ===================================================================== *)
(** * [events/events-table.tsx]: the export handlers                     *)
(* ===================================================================== *)

Module ExportJob.
Import JS EventsPage EventsTable.

(** The texts shown to the user, by their role. *)
Inductive Message :=
| MsgSelectAtLeastOne                    (* handleExport, nothing selected *)
| MsgNoEvents                            (* nothing to export *)
| MsgConfirmExport (totalRegistros : Z)  (* about to export N records *)
| MsgConfirmPartial (received expected : Z)
| MsgExportError (error : exn).

Inductive File :=
| SelectedEventsFile
| CurrentPageFile (page : Z)
| AllEventsFile.

(** Everything a handler does to the outside, in order. *)
Inductive Effect :=
| Confirm (message : Message) (answer : bool)
| Alert (message : Message)
| SetExportAllLoading (loading : bool)
| SetExportProgress (progress : Z)
| Fetch (query : URLSearchParams.t)
| Sleep (ms : Z)
| Download (file : File) (content : jsstr)
| OnExport (selectedEvents : list Event).

(** The body of a listing response, as far as the export reads it. *)
Record ExportData := { events : option (list Event) }.

Record Meta := { total : Z; page : Z; limit : Z; last_page : Z }.

(** The variables of [handleExportAll] that outlive a [try] block,
    together with the effects so far. *)
Record State := {
  trace : list Effect;
  allEvents : list Event;
  usedPagination : bool
}.

Definition M (A : Type) : Type := State -> (exn + A) * State.

Definition ret {A} (a : A) : M A := fun st => (inr a, st).

Definition bind {A B} (m : M A) (k : A -> M B) : M B :=
  fun st =>
    match m st with
    | (inr a, st') => k a st'
    | (inl e, st') => (inl e, st')
    end.

Definition throw {A} (e : exn) : M A := fun st => (inl e, st).

(** [try { body } catch (e) { handler e }] *)
Definition try_catch {A} (body : M A) (handler : exn -> M A) : M A :=
  fun st =>
    match body st with
    | (inr a, st') => (inr a, st')
    | (inl e, st') => handler e st'
    end.

(** [try { body } finally { cleanup }] *)
Definition try_finally {A} (body : M A) (cleanup : M unit) : M A :=
  fun st =>
    match body st with
    | (r, st') =>
        match cleanup st' with
        | (inr _, st'') => (r, st'')
        | (inl e, st'') => (inl e, st'')
        end
    end.

Definition emit (e : Effect) : M unit :=
  fun st => (inr tt, {| trace := trace st ++ [e];
                        allEvents := allEvents st;
                        usedPagination := usedPagination st |}).

Definition getAllEvents : M (list Event) := fun st => (inr (allEvents st), st).

Definition setAllEvents (l : list Event) : M unit :=
  fun st => (inr tt, {| trace := trace st;
                        allEvents := l;
                        usedPagination := usedPagination st |}).

Definition getUsedPagination : M bool := fun st => (inr (usedPagination st), st).

Definition setUsedPagination (b : bool) : M unit :=
  fun st => (inr tt, {| trace := trace st;
                        allEvents := allEvents st;
                        usedPagination := b |}).

Notation "x <- m ;; k" := (bind m (fun x => k))
  (at level 100, m at next level, right associativity).
Notation "m ;;; k" := (bind m (fun _ => k))
  (at level 100, right associativity).

(** [all.slice(start, end)] for [0 <= start]. *)
Definition slice {A} (l : list A) (start end_ : Z) : list A :=
  take (Z.to_nat (end_ - start)) (drop (Z.to_nat start) l).

Definition initialState : State :=
  {| trace := []; allEvents := []; usedPagination := false |}.

Section Handlers.

(** The outside world: the listing endpoint and the user in front of the
    dialogs; both may answer differently as the job goes on, so they see
    the effects so far. *)
Variable server : list Effect -> URLSearchParams.t -> FetchResult ExportData.
Variable user : list Effect -> Message -> bool.

(** Left to the runtime: [String(x)] on a number, [formatDateToBRT], the
    members inherited from the built-in prototypes, and
    [Math.round((a / b) * c)] in double arithmetic. *)
Variable Number_toString_double : JSON.decimal -> jsstr.
Variable formatDateToBRT : jsstr -> jsstr.
Variable inherited : JSON.value -> jsstr -> list jsstr -> option jsstr.
Variable Math_round_scaled : Z -> Z -> Z -> Z.

Local Abbreviation csvRow :=
  (EventsTable.csvRow Number_toString_double formatDateToBRT inherited).
Local Abbreviation csvContent :=
  (EventsTable.csvContent Number_toString_double formatDateToBRT inherited).

Definition confirm (message : Message) : M bool :=
  fun st =>
    let answer := user (trace st) message in
    (inr answer, {| trace := trace st ++ [Confirm message answer];
                    allEvents := allEvents st;
                    usedPagination := usedPagination st |}).

(** [fetch], the status check and [response.json()], then
    [data.events || []]. *)
Definition fetchEventList (query : URLSearchParams.t) (notOk : Z -> exn)
  : M (list Event) :=
  fun st =>
    let st' := {| trace := trace st ++ [Fetch query];
                  allEvents := allEvents st;
                  usedPagination := usedPagination st |} in
    match server (trace st) query with
    | Rejected e => (inl e, st')
    | NotOk status _ => (inl (notOk status), st')
    | OkBadBody => (inl SyntaxError, st')
    | OkJson data =>
        (inr (match events data with Some l => l | None => [] end), st')
    end.

(** ** Selected rows and current page (lines 597-746) *)

Definition handleExport (columns : list Column) (events : list Event)
           (selected : Event -> bool) (onExport : bool) : list Effect :=
  let selectedEvents := List.filter selected events in
  match selectedEvents with
  | [] => [Alert MsgSelectAtLeastOne]
  | _ =>
      Download SelectedEventsFile (csvContent columns selectedEvents)
      :: (if onExport then [OnExport selectedEvents] else [])
  end.

Definition handleExportCurrentPage (columns : list Column)
           (events : list Event) (meta : option Meta) : list Effect :=
  match events with
  | [] => [Alert MsgNoEvents]
  | _ =>
      let page := match meta with
                  | Some m => if page m =? 0 then 1 else page m
                  | None => 1
                  end in
      [Download (CurrentPageFile page) (csvContent columns events)]
  end.

(** ** Export all (lines 749-1014) *)

Definition pageSize : Z := 1000.

Definition directExportError (status : Z) : exn :=
  Error (js "Erro na exporta" ++ [231%N; 227%N] ++ js "o direta: "
         ++ Number_toString status).

Definition pageError (page status : Z) : exn :=
  Error (js "Erro ao buscar p" ++ [225%N] ++ js "gina "
         ++ Number_toString page ++ js ": " ++ Number_toString status).

Definition pageParams (baseParams : URLSearchParams.t) (page : Z)
  : URLSearchParams.t :=
  let pageParams := baseParams in
  let pageParams := URLSearchParams.set pageParams (js "page") (Number_toString page) in
  URLSearchParams.set pageParams (js "limit") (Number_toString pageSize).

(** The loop [for (let page = 1; page <= totalPages; page++)], with [n]
    iterations left. *)
Fixpoint fetchPages (baseParams : URLSearchParams.t) (totalPages : Z)
         (n : nat) (page : Z) : M unit :=
  match n with
  | O => ret tt
  | S n' =>
      pageEvents <- fetchEventList (pageParams baseParams page) (pageError page) ;;
      acc <- getAllEvents ;;
      setAllEvents (acc ++ pageEvents) ;;;
      emit (SetExportProgress (Math_round_scaled page totalPages 50)) ;;;
      emit (Sleep 100) ;;;
      fetchPages baseParams totalPages n' (page + 1)
  end.

Definition totalPagesOf (totalRegistros : Z) : Z :=
  match Math_ceil_div totalRegistros pageSize with
  | Int z => z
  | _ => 0
  end.

(** The page-by-page retrieval that both branches run (lines 806-838 and
    847-879). *)
Definition fetchAllPages (baseParams : URLSearchParams.t) (totalRegistros : Z)
  : M unit :=
  let totalPages := totalPagesOf totalRegistros in
  emit (SetExportProgress 1) ;;;
  fetchPages baseParams totalPages (Z.to_nat totalPages) 1.

(** The [try] of lines 787-840. *)
Definition directAttempt (baseParams : URLSearchParams.t) (totalRegistros : Z)
  : M unit :=
  let exportParams := URLSearchParams.set baseParams (js "export") (js "true") in
  data <- fetchEventList exportParams directExportError ;;
  setAllEvents data ;;;
  if Z.of_nat (length data) <? totalRegistros then
    setUsedPagination true ;;;
    setAllEvents [] ;;;
    fetchAllPages baseParams totalRegistros
  else ret tt.

(** The [catch] of lines 841-881. *)
Definition paginatedFallback (baseParams : URLSearchParams.t)
           (totalRegistros : Z) : M unit :=
  setUsedPagination true ;;;
  fetchAllPages baseParams totalRegistros.

Definition fetchPhase (baseParams : URLSearchParams.t) (totalRegistros : Z)
  : M unit :=
  try_catch (directAttempt baseParams totalRegistros)
            (fun _ => paginatedFallback baseParams totalRegistros).

Definition batchSizeFor (totalEvents : Z) : Z :=
  if 50000 <? totalEvents then 5000
  else if 10000 <? totalEvents then 2000
  else 1000.

(** The loop [for (let i = 0; i < totalBatches; i++)] of lines 927-980. *)
Fixpoint processBatches (columns : list Column) (all : list Event)
         (batchSize totalBatches progressOffset : Z)
         (n : nat) (i : Z) (csvRows : list jsstr) : M (list jsstr) :=
  match n with
  | O => ret csvRows
  | S n' =>
      let start := i * batchSize in
      let end_ := Z.min (start + batchSize) (Z.of_nat (length all)) in
      let batch := slice all start end_ in
      let batchRows := map (csvRow columns) batch in
      let csvRows := csvRows ++ batchRows in
      emit (SetExportProgress
              (progressOffset
               + Math_round_scaled (i + 1) totalBatches (100 - progressOffset))) ;;;
      emit (Sleep 0) ;;;
      processBatches columns all batchSize totalBatches progressOffset
                     n' (i + 1) csvRows
  end.

(** Lines 902-1005. *)
Definition materialize (columns : list Column) : M unit :=
  all <- getAllEvents ;;
  usedPagination <- getUsedPagination ;;
  let csvRows := [csvHeader columns] in
  let totalEvents := Z.of_nat (length all) in
  let batchSize := batchSizeFor totalEvents in
  let totalBatches :=
    match Math_ceil_div totalEvents batchSize with Int z => z | _ => 0 end in
  let progressOffset := if usedPagination then 50 else 0 in
  csvRows <- processBatches columns all batchSize totalBatches progressOffset
                            (Z.to_nat totalBatches) 0 csvRows ;;
  emit (Download AllEventsFile (join [10%N] csvRows)).

(** Lines 883-1005: what is done with the assembled events. *)
Definition exportAssembled (columns : list Column) (totalRegistros : Z) : M unit :=
  all <- getAllEvents ;;
  if (length all =? 0)%nat then
    emit (Alert MsgNoEvents) ;;;
    emit (SetExportAllLoading false) ;;;
    emit (SetExportProgress 0)
  else
    proceed <-
      (if Z.of_nat (length all) <? totalRegistros then
         confirm (MsgConfirmPartial (Z.of_nat (length all)) totalRegistros)
       else ret true) ;;
    if proceed then materialize columns
    else
      emit (SetExportAllLoading false) ;;;
      emit (SetExportProgress 0).

(** The body of the outer [try] (lines 768-1005). *)
Definition exportBody (columns : list Column)
           (searchParams : URLSearchParams.t) (totalRegistros : Z) : M unit :=
  emit (SetExportAllLoading true) ;;;
  emit (SetExportProgress 0) ;;;
  let baseParams := searchParams in
  let baseParams := URLSearchParams.delete baseParams (js "page") in
  let baseParams := URLSearchParams.delete baseParams (js "limit") in
  setAllEvents [] ;;;
  setUsedPagination false ;;;
  fetchPhase baseParams totalRegistros ;;;
  exportAssembled columns totalRegistros.

Definition handleExportAll (columns : list Column)
           (searchParams : URLSearchParams.t) (meta : option Meta) : M unit :=
  let totalRegistros := match meta with Some m => total m | None => 0 end in
  go <- confirm (MsgConfirmExport totalRegistros) ;;
  if negb go then ret tt
  else
    try_finally
      (try_catch (exportBody columns searchParams totalRegistros)
                 (fun error => emit (Alert (MsgExportError error))))
      (emit (SetExportAllLoading false) ;;; emit (SetExportProgress 0)).

End Handlers.

End ExportJob.

(* ===================================================================== *)
(** * The handlers around the listing pipeline

    The rest of the files modelled above, embedded the same way:

    - [JSNumber], [DateParse]: [parseInt] and [new Date(string)].
    - [PaginationButtons]: the buttons of [components/pagination.tsx].
    - [LeadRouteHandler]: the [GET] handler of [api/lead/route.ts].
    - [EventsPageHandlers]: paging, page size, sorting and filter clearing
      on the events page.
    - [EventsTableHandlers]: filters, sorting, paging and row selection of
      [events/events-table.tsx].
    - [DateFilterHandlers]: the handlers of [events/date-filter.tsx].
    - [PesquisasTableHandlers]: filters, paging and row selection of
      [pesquisas/pesquisas-table.tsx]. *)
(* ===================================================================== *)

(* ===================================================================== *)
(** * [parseInt]                                                         *)
(* ===================================================================== *)

Module JSNumber.
Import JS.

(** The value of a code unit as a digit: [0-9], [a-z], [A-Z]. *)
Definition digit_value (c : N) : option Z :=
  if ((48 <=? c) && (c <=? 57))%N then Some (Z.of_N c - 48)
  else if ((97 <=? c) && (c <=? 122))%N then Some (Z.of_N c - 87)
  else if ((65 <=? c) && (c <=? 90))%N then Some (Z.of_N c - 55)
  else None.

(** The longest prefix of digits of radix [R]: its value on top of [acc]
    and the number of digits read. *)
Fixpoint radix_digits (R : Z) (s : jsstr) (acc : Z) (n : nat) : Z * nat :=
  match s with
  | c :: r =>
      match digit_value c with
      | Some d => if d <? R then radix_digits R r (acc * R + d) (S n) else (acc, n)
      | None => (acc, n)
      end
  | [] => (acc, n)
  end.

(** The [Number] for an integer: the nearest double, ties going to the
    even significand, and an infinity from 2^1024 on.  The integers up to
    2^53 in magnitude are doubles themselves. *)
Definition roundToDouble (z : Z) : number :=
  let a := Z.abs z in
  if a <=? 2 ^ 53 then Int z
  else
    let e := Z.log2 a - 52 in
    let q := Z.shiftr a e in
    let r := a - Z.shiftl q e in
    let half := Z.shiftl 1 (e - 1) in
    let q := if (half <? r) || ((r =? half) && Z.odd q) then q + 1 else q in
    if 1024 <=? Z.log2 (Z.shiftl q e)
    then (if z <? 0 then NegInfinity else PosInfinity)
    else Int (Z.sgn z * Z.shiftl q e).

(** [parseInt(string, radix)], with [radix = 0] for a call without a
    radix: the [Number] for the integer that the digits write.  (Past
    the 20th significant digit ECMAScript lets an implementation read
    zeros instead; the integer is read in full here.) *)
Definition parseInt (string : jsstr) (radix : Z) : number :=
  let str := trimStart string in
  let '(sign, str) :=
    match str with
    | c :: r => if (c =? 45)%N then (-1, r)
                else if (c =? 43)%N then (1, r) else (1, str)
    | [] => (1, str)
    end in
  if negb (radix =? 0) && ((radix <? 2) || (36 <? radix)) then NaN
  else
    let stripPrefix := (radix =? 0) || (radix =? 16) in
    let R := if radix =? 0 then 10 else radix in
    let '(R, str) :=
      if stripPrefix then
        match str with
        | 48%N :: x :: r => if ((x =? 120) || (x =? 88))%N then (16, r) else (R, str)
        | _ => (R, str)
        end
      else (R, str) in
    match radix_digits R str 0 0 with
    | (_, O) => NaN
    | (v, _) => roundToDouble (sign * v)
    end.

End JSNumber.

(* ===================================================================== *)
(** * [components/pagination.tsx]: the four buttons                      *)
(* ===================================================================== *)

Module PaginationButtons.
Import JS PaginationComponent.

Inductive Button := FirstPage | PreviousPage | NextPage | LastPage.

(** The [disabled] attribute of each button. *)
Definition disabled (b : Button) (pageIndex totalCount perPage : Z) : bool :=
  match b with
  | FirstPage | PreviousPage => pageIndex =? 1
  | NextPage | LastPage => nextDisabled pageIndex totalCount perPage
  end.

(** The argument each button hands to [onPageChange]. *)
Definition onClick (b : Button) (pageIndex totalCount perPage : Z) : number :=
  match b with
  | FirstPage => Int 1
  | PreviousPage => Int (pageIndex - 1)
  | NextPage => Int (pageIndex + 1)
  | LastPage => pages totalCount perPage
  end.

End PaginationButtons.

(* ===================================================================== *)
(** * [api/lead/route.ts]: the handler                                   *)
(* ===================================================================== *)

Module LeadRouteHandler.
Import JS LeadRoute EventsPage.

(** A value of the transformed body: a JSON value, or the [NaN] or the
    infinity that [parseInt] may give. *)
Inductive field :=
| Val (v : JSON.value)
| NotANumber
| Infinite (negative : bool).

Definition of_number (x : number) : field :=
  match x with
  | Int z => Val (EventsTable.integer z)
  | NaN => NotANumber
  | PosInfinity => Infinite false
  | NegInfinity => Infinite true
  end.

(** [x || d], where [x] may be [undefined] ([None]). *)
Definition or_else (x : option JSON.value) (d : field) : field :=
  match x with
  | Some v => if JSON.truthy v then Val v else d
  | None => d
  end.

Record Listing := {
  l_users : list JSON.value;
  l_total : field;
  l_page : field;
  l_limit : field;
  l_totalPages : field;
  l_sortBy : field;
  l_sortDirection : field
}.

Record Response := { status : Z; body : Listing }.

(** Lines 44-52. *)
Definition errorEnvelope : Listing :=
  {| l_users := [];
     l_total := Val (EventsTable.integer 0);
     l_page := Val (EventsTable.integer 1);
     l_limit := Val (EventsTable.integer 10);
     l_totalPages := Val (EventsTable.integer 1);
     l_sortBy := Val (JSON.Str (js "created_at"));
     l_sortDirection := Val (JSON.Str (js "desc")) |}.

(** Lines 30-38; reading a property of [null] raises a [TypeError].
    The names read are members of no built-in prototype, so a body that
    does not hold one itself gives [undefined]. *)
Definition transform (p : Paging) (data : JSON.value) : exn + Listing :=
  match data with
  | JSON.Null => inl TypeError
  | _ =>
      let prop name := EventsTable.get_prop data (js name) in
      inr {| l_users := match prop "leads"%string with
                        | Some (JSON.Array leads) => leads
                        | _ => []
                        end;
             l_total := or_else (prop "total"%string) (Val (EventsTable.integer 0));
             l_page := or_else (prop "page"%string)
                               (of_number (JSNumber.parseInt (page p) 0));
             l_limit := or_else (prop "limit"%string)
                                (of_number (JSNumber.parseInt (limit p) 0));
             l_totalPages := or_else (prop "totalPages"%string)
                                     (Val (EventsTable.integer 1));
             l_sortBy := or_else (prop "sortBy"%string) (Val (JSON.Str (sortBy p)));
             l_sortDirection := or_else (prop "sortDirection"%string)
                                        (Val (JSON.Str (sortDirection p))) |}
  end.

Section Route.

(** [buildPaginationParams] and [buildApiUrl] of [@/app/config/api], and
    the upstream API behind [fetch]. *)
Variable Url : Type.
Variable apiUrl : Paging -> Url.
Variable fetch : Url -> FetchResult JSON.value.

Definition GET (searchParams : URLSearchParams.t) : Response :=
  let p := paging searchParams in
  let attempt : exn + Listing :=
    match fetch (apiUrl p) with
    | Rejected e => inl e
    | NotOk status _ =>
        inl (Error (js "API responded with status: " ++ Number_toString status))
    | OkBadBody => inl SyntaxError
    | OkJson data => transform p data
    end in
  match attempt with
  | inr transformedData => {| status := 200; body := transformedData |}
  | inl _ => {| status := 500; body := errorEnvelope |}
  end.

End Route.

Arguments GET {Url} _ _ _.

End LeadRouteHandler.

(* ===================================================================== *)
(** * The events page: the handlers of [EventsContent]                   *)
(* ===================================================================== *)

Module EventsPageHandlers.
Import JS EventsPage.

(** Lines 437-450, for a window of inner height [windowHeight]. *)
Definition calculateVisibleRows (windowHeight : Z) : Z :=
  let headerHeight := 70 in
  let filtersHeight := 80 in
  let paginationHeight := 50 in
  let padding := 40 in
  let availableHeight :=
    windowHeight - headerHeight - filtersHeight - paginationHeight - padding in
  let rowHeight := 46 in
  let headerRowHeight := 48 in
  Z.max 5 ((availableHeight - headerRowHeight) / rowHeight).

(** Lines 471-479: the page read back from the URL. *)
Definition pageOfUrl (searchParams : URLSearchParams.t) : number :=
  match URLSearchParams.get searchParams (js "page") with
  | Some (c :: pageParam) => JSNumber.parseInt (c :: pageParam) 10
  | _ => Int 1
  end.

(** Lines 605-634: the query pushed to the router, if any.  [busy] is
    [isManualLoading || isRefetchingRef.current]. *)
Definition handlePageChange (busy : bool) (currentPage : Z)
           (searchParams : URLSearchParams.t) (newPage : Z)
  : option URLSearchParams.t :=
  if busy || (newPage =? currentPage) then None
  else
    let params := searchParams in
    Some (URLSearchParams.set params (js "page") (Number_toString newPage)).

(** What [handlePerPageChange] leaves behind. *)
Record PerPageChange := {
  pp_limit : Z;                      (* [setLimit] *)
  pp_currentPage : Z;                (* [setCurrentPage] *)
  pp_pushed : URLSearchParams.t      (* [router.push] *)
}.

(** Lines 637-661. *)
Definition handlePerPageChange (busy : bool) (searchParams : URLSearchParams.t)
           (newLimit : Z) : option PerPageChange :=
  if busy then None
  else
    let params := searchParams in
    let params := URLSearchParams.set params (js "limit") (Number_toString newLimit) in
    let params := URLSearchParams.set params (js "page") (js "1") in
    Some {| pp_limit := newLimit; pp_currentPage := 1; pp_pushed := params |}.

(** Lines 663-671: the new sort state and the query pushed. *)
Definition handleSort (searchParams : URLSearchParams.t) (columnId : jsstr)
           (direction : option jsstr) : SortConfig * URLSearchParams.t :=
  let params := searchParams in
  let params := URLSearchParams.set params (js "sortBy") columnId in
  let params :=
    URLSearchParams.set params (js "sortDirection")
      (match direction with
       | Some (d :: dir) => d :: dir
       | _ => js "asc"
       end) in
  ({| column := Some columnId; direction := direction |}, params).

(** Lines 784-795 of [handleFilterCleared]: the query of the clean URL. *)
Definition cleanParams (searchParams : URLSearchParams.t) : URLSearchParams.t :=
  let sortBy := URLSearchParams.get searchParams (js "sortBy") in
  let sortDirection := URLSearchParams.get searchParams (js "sortDirection") in
  let limit := URLSearchParams.get searchParams (js "limit") in
  let cleanParams := [] in
  let cleanParams := URLSearchParams.set cleanParams (js "page") (js "1") in
  let cleanParams :=
    match sortBy with
    | Some (c :: v) => URLSearchParams.set cleanParams (js "sortBy") (c :: v)
    | _ => cleanParams
    end in
  let cleanParams :=
    match sortDirection with
    | Some (c :: v) => URLSearchParams.set cleanParams (js "sortDirection") (c :: v)
    | _ => cleanParams
    end in
  match limit with
  | Some (c :: v) => URLSearchParams.set cleanParams (js "limit") (c :: v)
  | _ => cleanParams
  end.

End EventsPageHandlers.

(* ===================================================================== *)
(** * [events/events-table.tsx]: filters, sorting, paging, selection     *)
(* ===================================================================== *)

Module EventsTableHandlers.
Import JS EventsPage EventsTable.

(** [sessionStorage] *)
Definition Storage := gmap jsstr jsstr.

(** A field of the argument of [handleFilterChange]:
    [string | null | undefined]. *)
Inductive FilterArg :=
| Unchanged                (* [undefined] *)
| Cleared                  (* [null] *)
| Given (value : jsstr).

Record FilterChange := {
  dateFrom : FilterArg;
  dateTo : FilterArg;
  timeFrom : FilterArg;
  timeTo : FilterArg;
  professionId : FilterArg;
  funnelId : FilterArg
}.

(** What [getFiltersFromUrl] returns; [None] is [undefined]. *)
Record UrlFilters := {
  url_dateFrom : option jsstr;
  url_dateTo : option jsstr;
  url_timeFrom : option jsstr;
  url_timeTo : option jsstr;
  url_professionId : option jsstr;
  url_funnelId : option jsstr
}.

(** [x || undefined] *)
Definition orUndefined (x : option jsstr) : option jsstr :=
  match x with
  | Some (c :: v) => Some (c :: v)
  | _ => None
  end.

(** Lines 309-326. *)
Definition getFiltersFromUrl (searchParams : URLSearchParams.t) : UrlFilters :=
  let params := searchParams in
  let from := URLSearchParams.get params (js "from") in
  let to := URLSearchParams.get params (js "to") in
  let timeFrom := URLSearchParams.get params (js "time_from") in
  let timeTo := URLSearchParams.get params (js "time_to") in
  let professionId := URLSearchParams.get params (js "profession_id") in
  let funnelId := URLSearchParams.get params (js "funnel_id") in
  {| url_dateFrom := orUndefined from;
     url_dateTo := orUndefined to;
     url_timeFrom := orUndefined timeFrom;
     url_timeTo := orUndefined timeTo;
     url_professionId := orUndefined professionId;
     url_funnelId := orUndefined funnelId |}.

(** One block [if (filters.x !== undefined) { if (filters.x) set else
    delete }] of lines 356-412, on the query and on the storage. *)
Definition updateParam (params : URLSearchParams.t) (name : jsstr)
           (arg : FilterArg) : URLSearchParams.t :=
  match arg with
  | Unchanged => params
  | Given (c :: v) => URLSearchParams.set params name (c :: v)
  | _ => URLSearchParams.delete params name
  end.

Definition updateItem (storage : Storage) (key : jsstr) (arg : FilterArg)
  : Storage :=
  match arg with
  | Unchanged => storage
  | Given (c :: v) => <[key := c :: v]> storage
  | _ => delete key storage
  end.

(** Lines 350-415: the query after the updates, with the page it had. *)
Definition updatedParams (searchParams : URLSearchParams.t)
           (filters : FilterChange) : URLSearchParams.t :=
  let params := searchParams in
  let currentPage := LeadRoute.get_or params (js "page") (js "1") in
  let params := updateParam params (js "from") (dateFrom filters) in
  let params := updateParam params (js "to") (dateTo filters) in
  let params := updateParam params (js "time_from") (timeFrom filters) in
  let params := updateParam params (js "time_to") (timeTo filters) in
  let params := updateParam params (js "profession_id") (professionId filters) in
  let params := updateParam params (js "funnel_id") (funnelId filters) in
  URLSearchParams.set params (js "page") currentPage.

(** The writes to [sessionStorage] of the same lines. *)
Definition updatedStorage (storage : Storage) (filters : FilterChange) : Storage :=
  let storage := updateItem storage (js "events_from_date") (dateFrom filters) in
  let storage := updateItem storage (js "events_to_date") (dateTo filters) in
  let storage := updateItem storage (js "events_time_from") (timeFrom filters) in
  updateItem storage (js "events_time_to") (timeTo filters).

Section Navigation.

(** [URLSearchParams.prototype.toString] *)
Variable toString : URLSearchParams.t -> jsstr.

(** Lines 342-429: the storage afterwards and the query pushed, if any. *)
Definition handleFilterChange (searchParams : URLSearchParams.t)
           (storage : Storage) (filters : FilterChange)
  : Storage * option URLSearchParams.t :=
  let params := updatedParams searchParams filters in
  let storage := updatedStorage storage filters in
  let storage :=
    if truthy_str (URLSearchParams.get params (js "from"))
       && truthy_str (URLSearchParams.get params (js "to"))
    then <[js "events_default_filter_applied" := js "true"]> storage
    else storage in
  let currentParams := searchParams in
  let paramsChanged :=
    negb (jsstr_eqb (toString params) (toString currentParams)) in
  (storage, if paramsChanged then Some params else None).

End Navigation.

(** Lines 431-455: the query pushed and the direction handed to
    [onSort]. *)
Definition handleSort (searchParams : URLSearchParams.t)
           (sortColumn sortDirection : option jsstr) (columnId : jsstr)
  : URLSearchParams.t * option jsstr :=
  let newParams := searchParams in
  let flip (d : string) :=
    let newParams := URLSearchParams.set newParams (js "sortDirection") (js d) in
    URLSearchParams.set newParams (js "sortBy") columnId in
  let newParams :=
    if bool_decide (sortColumn = Some columnId) then
      if bool_decide (sortDirection = Some (js "asc")) then flip "desc"%string
      else if bool_decide (sortDirection = Some (js "desc")) then flip "asc"%string
      else newParams
    else flip "asc"%string in
  (newParams, URLSearchParams.get newParams (js "sortDirection")).

(** Lines 488-501, for a container of height [containerHeight]. *)
Definition calculateVisibleRows (containerHeight : Z) : Z :=
  let rowHeight := 46 in
  let headerHeight := 48 in
  let paginationHeight := 56 in
  let availableHeight := containerHeight - headerHeight - paginationHeight in
  let calculatedRows := availableHeight / rowHeight in
  Z.max 5 calculatedRows.

(** Lines 538-561: the query pushed and the page handed to
    [onPageChange], if any. *)
Definition handlePageChange (isLoading : bool) (currentPage : Z)
           (searchParams : URLSearchParams.t) (page : Z)
  : option (URLSearchParams.t * Z) :=
  if isLoading || (page =? currentPage) then None
  else
    let params := searchParams in
    let params := URLSearchParams.set params (js "page") (Number_toString page) in
    let params := URLSearchParams.delete params (js "[object Object]") in
    Some (params, page).

(** ** Row selection (lines 564-594)

    [selectedRows] is a [Record<string, boolean>]: a plain object, so a
    name it does not hold itself is looked up on [Object.prototype]. *)
Definition Selection := gmap jsstr bool.

Definition objectPrototypeNames : list jsstr :=
  map js [ "constructor"; "__defineGetter__"; "__defineSetter__";
           "hasOwnProperty"; "__lookupGetter__"; "__lookupSetter__";
           "isPrototypeOf"; "propertyIsEnumerable"; "toString"; "valueOf";
           "__proto__"; "toLocaleString" ]%string.

(** [prev[id]] as a condition: the members of [Object.prototype] are
    functions, and [__proto__] reads as the prototype itself. *)
Definition checked (selectedRows : Selection) (id : jsstr) : bool :=
  match selectedRows !! id with
  | Some b => b
  | None => existsb (jsstr_eqb id) objectPrototypeNames
  end.

(** [{...prev, [id]: !prev[id]}]: a computed name is always defined on
    the object itself. *)
Definition toggleRowSelection (prev : Selection) (id : jsstr) : Selection :=
  <[id := negb (checked prev id)]> prev.

(** [newSelectedRows[key] = true]: assigning to a [__proto__] the
    object does not hold itself calls the setter of [Object.prototype],
    which ignores a value that is not an object. *)
Definition assignTrue (newSelectedRows : Selection) (key : jsstr) : Selection :=
  match newSelectedRows !! key with
  | None =>
      if jsstr_eqb key (js "__proto__") then newSelectedRows
      else <[key := true]> newSelectedRows
  | Some _ => <[key := true]> newSelectedRows
  end.

Section Rows.

Variable Number_toString_double : JSON.decimal -> jsstr.

(** [event.event_id] as a property name. *)
Definition rowKey (event : Event) : jsstr :=
  match JSON.lookup_member event (js "event_id") with
  | Some v => ToString Number_toString_double v
  | None => js "undefined"
  end.

(** [selectedRows[event.event_id]] as a condition. *)
Definition isSelected (selectedRows : Selection) (event : Event) : bool :=
  checked selectedRows (rowKey event).

(** The new [selectedRows] and [selectAll]. *)
Definition toggleSelectAll (selectAll : bool) (events : list Event)
  : Selection * bool :=
  let selectedRows :=
    if selectAll then ∅
    else fold_left (fun newSelectedRows event =>
                      assignTrue newSelectedRows (rowKey event))
                   events ∅ in
  (selectedRows, negb selectAll).

(** Lines 564-572: the value the effect gives [selectAll]. *)
Definition allSelected (selectedRows : Selection) (events : list Event) : bool :=
  match events with
  | [] => false
  | _ => forallb (isSelected selectedRows) events
  end.

End Rows.

End EventsTableHandlers.

(* ===================================================================== *)
(** * [events/date-filter.tsx]: the handlers                             *)
(* ===================================================================== *)

Module DateFilterHandlers.
Import JS JSDate DateFilter.

(** The state of the component. *)
Record State := {
  selectedDates : option DateRange;
  fromTime : jsstr;
  toTime : jsstr;
  showCustomTime : bool
}.

Definition noChange : Change :=
  {| ch_from := None; ch_to := None; ch_fromTime := None; ch_toTime := None |}.

(** [n.toString().padStart(2, '0')] *)
Definition padStart2 (s : jsstr) : jsstr :=
  repeat 48%N (2 - length s) ++ s.

(** Lines 351-355. *)
Definition timeOptions : list jsstr :=
  map (fun i =>
         let hour := i / 4 in
         let minute := (i mod 4) * 15 in
         padStart2 (Number_toString hour) ++ js ":" ++ padStart2 (Number_toString minute))
      (seqZ 0 (24 * 4)).

Section Zone.
Variable LocalTZA : Z -> bool -> Z.

(** Lines 133-191: the new state and the call of [onChange], if any (a
    handler is taken to be present). *)
Definition handleDateSelect (st : State) (newDate : option DateRange)
  : State * option Change :=
  match newDate with
  | Some {| from := Some newFrom; to := newTo |} =>
      let st' := {| selectedDates := newDate;
                    fromTime := fromTime st;
                    toTime := toTime st;
                    showCustomTime := showCustomTime st |} in
      match newTo with
      | Some newTo =>
          let '(from, to) :=
            if showCustomTime st then
              (setHoursOpt LocalTZA newFrom (splitTime (fromTime st)) 0 0,
               setHoursOpt LocalTZA newTo (splitTime (toTime st)) 59 999)
            else
              (setHours LocalTZA newFrom 0 0 0 0,
               setHours LocalTZA newTo 23 59 59 999) in
          (st', Some {| ch_from := Some from;
                        ch_to := Some to;
                        ch_fromTime := if showCustomTime st then Some (fromTime st) else None;
                        ch_toTime := if showCustomTime st then Some (toTime st) else None |})
      | None =>
          let from := setHours LocalTZA newFrom 0 0 0 0 in
          (st', Some {| ch_from := Some from;
                        ch_to := None;
                        ch_fromTime := if showCustomTime st then Some (fromTime st) else None;
                        ch_toTime := None |})
      end
  | _ =>
      ({| selectedDates := None;
          fromTime := fromTime st;
          toTime := toTime st;
          showCustomTime := showCustomTime st |},
       Some noChange)
  end.

(** Lines 261-294. *)
Definition handleTimeChange (st : State) (isStart : bool) (value : jsstr)
  : State * option Change :=
  match selectedDates st with
  | Some {| from := Some selFrom; to := selTo |} =>
      let st' := {| selectedDates := selectedDates st;
                    fromTime := if isStart then value else fromTime st;
                    toTime := if isStart then toTime st else value;
                    showCustomTime := showCustomTime st |} in
      match selTo with
      | Some selTo =>
          let from := selFrom in
          let to := selTo in
          let hm := splitTime value in
          if isStart then
            (st', Some {| ch_from := Some (setHoursOpt LocalTZA from hm 0 0);
                          ch_to := Some to;
                          ch_fromTime := Some value;
                          ch_toTime := if showCustomTime st then Some (toTime st) else None |})
          else
            (st', Some {| ch_from := Some from;
                          ch_to := Some (setHoursOpt LocalTZA to hm 59 999);
                          ch_fromTime := if showCustomTime st then Some (fromTime st) else None;
                          ch_toTime := Some value |})
      | None => (st', None)
      end
  | _ => (st, None)
  end.

(** Lines 297-332. *)
Definition handleCustomTimeToggle (st : State) : State * option Change :=
  match selectedDates st with
  | Some {| from := Some selFrom; to := selTo |} =>
      let newShowCustomTime := negb (showCustomTime st) in
      let st' := {| selectedDates := selectedDates st;
                    fromTime := fromTime st;
                    toTime := toTime st;
                    showCustomTime := newShowCustomTime |} in
      match selTo with
      | Some selTo =>
          if newShowCustomTime then
            (st', Some {| ch_from := Some (setHoursOpt LocalTZA selFrom (splitTime (fromTime st)) 0 0);
                          ch_to := Some (setHoursOpt LocalTZA selTo (splitTime (toTime st)) 59 999);
                          ch_fromTime := Some (fromTime st);
                          ch_toTime := Some (toTime st) |})
          else
            (st', Some {| ch_from := Some (setHours LocalTZA selFrom 0 0 0 0);
                          ch_to := Some (setHours LocalTZA selTo 23 59 59 999);
                          ch_fromTime := None;
                          ch_toTime := None |})
      | None => (st', None)
      end
  | _ => (st, None)
  end.

End Zone.

(** Lines 335-349. *)
Definition handleClear (st : State) : State * option Change :=
  ({| selectedDates := None;
      fromTime := js "00:00";
      toTime := js "23:59";
      showCustomTime := false |},
   Some noChange).

End DateFilterHandlers.

(* ===================================================================== *)
(** * [new Date(string)]                                                 *)
(* ===================================================================== *)

Module DateParse.
Import JS JSDate.

(** Exactly [w] decimal digits: their value on top of [acc], and the
    rest. *)
Fixpoint read_fixed (w : nat) (s : jsstr) (acc : Z) : option (Z * jsstr) :=
  match w with
  | O => Some (acc, s)
  | S w' =>
      match s with
      | c :: r =>
          if JSON.is_digit c then read_fixed w' r (acc * 10 + Z.of_N (c - 48))
          else None
      | [] => None
      end
  end.

Definition expect_unit (c : N) (s : jsstr) : option jsstr :=
  match s with
  | x :: r => if (x =? c)%N then Some r else None
  | [] => None
  end.

(** The offset from UTC that ends a date-time string, in milliseconds:
    [Z], or a sign, two digits of hours, a colon and two digits of
    minutes. *)
Definition read_offset (s : jsstr) : option Z :=
  match s with
  | [] => None
  | sign :: r =>
      if (sign =? 90)%N then (if bool_decide (r = []) then Some 0 else None)
      else if ((sign =? 43) || (sign =? 45))%N then
        '(h, r) ← read_fixed 2 r 0;
        r ← expect_unit 58 r;
        '(m, r) ← read_fixed 2 r 0;
        if bool_decide (r = []) && (h <=? 23) && (m <=? 59)
        then Some ((if (sign =? 45)%N then -1 else 1)
                   * (h * msPerHour + m * msPerMinute))
        else None
      else None
  end.

(** The time value of a string in the complete form of the date-time
    string format, [YYYY-MM-DDTHH:mm:ss.sss] followed by an offset,
    provided its fields denote a calendar date (converting them to a day
    number and back gives them again) and a time of day. *)
Definition isoDateTime (s : jsstr) : option Z :=
  '(y, s) ← read_fixed 4 s 0;
  s ← expect_unit 45 s;
  '(m, s) ← read_fixed 2 s 0;
  s ← expect_unit 45 s;
  '(d, s) ← read_fixed 2 s 0;
  s ← expect_unit 84 s;
  '(hh, s) ← read_fixed 2 s 0;
  s ← expect_unit 58 s;
  '(mm, s) ← read_fixed 2 s 0;
  s ← expect_unit 58 s;
  '(ss, s) ← read_fixed 2 s 0;
  s ← expect_unit 46 s;
  '(ms, s) ← read_fixed 3 s 0;
  offset ← read_offset s;
  if bool_decide (civil_from_days (days_from_civil y m d) = (y, m, d))
     && (hh <=? 23) && (mm <=? 59) && (ss <=? 59)
  then Some (MakeDate (days_from_civil y m d) (MakeTime hh mm ss ms) - offset)
  else None.

Section Parse.

(** The reading of a string in any other form: the shorter forms of the
    format, and whatever else the implementation accepts. *)
Variable otherFormats : jsstr -> Date.

(** [new Date(string)] *)
Definition Date_new (s : jsstr) : Date :=
  match isoDateTime s with
  | Some t => TimeClip t
  | None => otherFormats s
  end.

End Parse.

End DateParse.

(* ===================================================================== *)
(** * [pesquisas/pesquisas-table.tsx]: filters, paging, selection        *)
(* ===================================================================== *)

Module PesquisasTableHandlers.
Import JS PesquisasTable.

(** Lines 419-439: the query handed to [updateUrl]. *)
Definition removeFilter (type : FilterType) (searchParamsObj : URLSearchParams.t)
  : URLSearchParams.t :=
  let name := filterName type in
  let newParams := searchParamsObj in
  let newParams := URLSearchParams.delete newParams (name ++ js "_from") in
  let newParams := URLSearchParams.delete newParams (name ++ js "_to") in
  let newParams := URLSearchParams.delete newParams (name ++ js "_time_from") in
  let newParams := URLSearchParams.delete newParams (name ++ js "_time_to") in
  URLSearchParams.set newParams (js "page") (js "1").

(** Lines 442-468: the query of the URL pushed. *)
Definition handleClearFilters (sortColumn sortDirection : option jsstr)
  : URLSearchParams.t :=
  let params := [] in
  let params := URLSearchParams.set params (js "page") (js "1") in
  let params :=
    match sortColumn with
    | Some (c :: v) => URLSearchParams.set params (js "sortBy") (c :: v)
    | _ => params
    end in
  match sortDirection with
  | Some (c :: v) => URLSearchParams.set params (js "sortDirection") (c :: v)
  | _ => params
  end.

(** Lines 518-532. *)
Definition handlePageChange (searchParamsObj : URLSearchParams.t) (page : Z)
  : URLSearchParams.t :=
  let newParams := searchParamsObj in
  URLSearchParams.set newParams (js "page") (Number_toString page).

(** [prev.includes(id)] *)
Definition includes_id (prev : list jsstr) (id : jsstr) : bool :=
  existsb (fun item => jsstr_eqb item id) prev.

(** Lines 338-342. *)
Definition toggleRowSelection (prev : list jsstr) (id : jsstr) : list jsstr :=
  if includes_id prev id
  then List.filter (fun item => negb (jsstr_eqb item id)) prev
  else prev ++ [id].

Section UrlFilters.

Variable otherFormats : jsstr -> JSDate.Date.

(** Lines 236-264: the entry of [newActiveFilters] for one type of
    filter, read from the URL; [None] when the URL has no start for
    it. *)
Definition activeFilterOfUrl (searchParamsObj : URLSearchParams.t)
           (filterType : FilterType) : option FilterDateRange :=
  let name := filterName filterType in
  let from := URLSearchParams.get searchParamsObj (name ++ js "_from") in
  let to := URLSearchParams.get searchParamsObj (name ++ js "_to") in
  let timeFrom := URLSearchParams.get searchParamsObj (name ++ js "_time_from") in
  let timeTo := URLSearchParams.get searchParamsObj (name ++ js "_time_to") in
  match from with
  | Some (c :: from) =>
      Some {| DateFilter.ch_from := Some (DateParse.Date_new otherFormats (c :: from));
              DateFilter.ch_to :=
                match to with
                | Some (c' :: to) => Some (DateParse.Date_new otherFormats (c' :: to))
                | _ => None
                end;
              DateFilter.ch_fromTime :=
                match timeFrom with Some (c' :: v) => Some (c' :: v) | _ => None end;
              DateFilter.ch_toTime :=
                match timeTo with Some (c' :: v) => Some (c' :: v) | _ => None end |}
  | _ => None
  end.

End UrlFilters.

Section Rows.

(** A row of the table and its [id]. *)
Variable Pesquisa : Type.
Variable id : Pesquisa -> jsstr.

(** Lines 345-351. *)
Definition toggleSelectAll (selectedItems : list jsstr)
           (pesquisas : list Pesquisa) : list jsstr :=
  if (length selectedItems =? length pesquisas)%nat then []
  else map id pesquisas.

(** Lines 471-478: the rows handed to [onExport]. *)
Definition handleExport (selectedItems : list jsstr)
           (pesquisas : list Pesquisa) : list Pesquisa :=
  List.filter (fun pesquisa => includes_id selectedItems (id pesquisa)) pesquisas.

End Rows.

Arguments toggleSelectAll {Pesquisa} _ _ _.
Arguments handleExport {Pesquisa} _ _ _.

End PesquisasTableHandlers.

(* ===================================================================== *)
(** * Vocabulary of the properties, and the inputs used as examples      *)
(* ===================================================================== *)

(** [c] is the ceiling of [a / b], for a positive [b]. *)
Definition is_ceiling (c a b : Z) : Prop := (c - 1) * b < a <= c * b.

(** An empty professions table. *)
Definition emptyTable : Z -> Z -> string -> list unit * Z * option string :=
  fun _ _ _ => ([], 0, None).

(** A table of 25 professions whose rows are left out. *)
Definition table25 : Z -> Z -> string -> list unit * Z * option string :=
  fun _ _ _ => ([], 25, None).

Definition sortedKeys (m : gmap string string) : list string :=
  map fst (map_to_list m).

(** An entry of a filter array whose [value] is the empty string. *)
Definition emptyValueEntry (f : JSON.value) : Prop :=
  exists members,
    f = JSON.Object members /\
    JSON.lookup_member members (JS.js "value") = Some (JSON.Str []).

(** A filter parameter value that is malformed JSON, an empty array, or an
    array whose every entry has an empty value. *)
Definition absentFilter (value : JS.jsstr) : Prop :=
  JSON.parse value = None \/
  JSON.parse value = Some (JSON.Array []) \/
  exists items, JSON.parse value = Some (JSON.Array items) /\
                Forall emptyValueEntry items.

Definition isFilterArrayKey (key : JS.jsstr) : bool :=
  JS.jsstr_eqb key (JS.js "advanced_filters") || JS.jsstr_eqb key (JS.js "filters").

(** The search parameters without [advanced_filters] and [filters]. *)
Definition withoutFilterArrays (searchParams : URLSearchParams.t)
  : URLSearchParams.t :=
  List.filter (fun kv => negb (isFilterArrayKey (fst kv))) searchParams.

(** The parameters the listing endpoint defines. *)
Definition listingKeys : list JS.jsstr :=
  EventsPage.basicKeys ++ EventsPage.filterKeys.

Definition bothFilters : URLSearchParams.t :=
  [ (JS.js "filters", JS.jsq "[{'field':'utm_source','operator':'equals','value':'legacy'}]");
    (JS.js "advanced_filters",
     JS.jsq "[{'field':'utm_source','operator':'equals','value':'advanced'}]") ].

Definition filterEntry (value : string) : JSON.value :=
  JSON.Object [ (JS.js "field", JSON.Str (JS.js "utm_source"));
                (JS.js "operator", JSON.Str (JS.js "equals"));
                (JS.js "value", JSON.Str (JS.js value)) ].

Definition blankFilters : URLSearchParams.t :=
  [ (JS.js "page", JS.js "2");
    (JS.js "advanced_filters", JS.jsq "[{'field':'email','operator':'contains','value':''}]");
    (JS.js "filters", JS.jsq "[{'field':'email'") ].

Definition noSort : EventsPage.SortConfig :=
  {| EventsPage.column := None; EventsPage.direction := None |}.

Definition answerNothing : URLSearchParams.t -> EventsPage.FetchResult unit :=
  fun _ => EventsPage.OkJson tt.



(** Host time zones that keep one offset from UTC the year round: Sao
    Paulo (as it is since 2019), UTC and Tokyo. *)
Definition saoPauloHost : Z -> bool -> Z := fun _ _ => -3 * JSDate.msPerHour.
Definition utcHost : Z -> bool -> Z := fun _ _ => 0.
Definition tokyoHost : Z -> bool -> Z := fun _ _ => 9 * JSDate.msPerHour.

(** The requests of a trace, in order. *)
Definition fetches (tr : list ExportJob.Effect) : list URLSearchParams.t :=
  omap (fun e => match e with ExportJob.Fetch q => Some q | _ => None end) tr.

(** The dialogs and downloads of a trace, in order. *)
Definition interactions (tr : list ExportJob.Effect) : list ExportJob.Effect :=
  List.filter (fun e => match e with
                        | ExportJob.Confirm _ _ | ExportJob.Alert _
                        | ExportJob.Download _ _ => true
                        | _ => false
                        end) tr.

(** The effects of retrieving page [p] of [totalPages]. *)
Definition pageEffects (Math_round_scaled : Z -> Z -> Z -> Z)
           (baseParams : URLSearchParams.t) (totalPages p : Z)
  : list ExportJob.Effect :=
  [ ExportJob.Fetch (ExportJob.pageParams baseParams p);
    ExportJob.SetExportProgress (Math_round_scaled p totalPages 50);
    ExportJob.Sleep 100 ].

(** The state in which the page-by-page retrieval starts after the direct
    request [query]: nothing accumulated, pagination recorded. *)
Definition afterDirectRequest (st : ExportJob.State) (query : URLSearchParams.t)
  : ExportJob.State :=
  {| ExportJob.trace := ExportJob.trace st ++ [ExportJob.Fetch query];
     ExportJob.allEvents := [];
     ExportJob.usedPagination := true |}.

(** [Math.round((a / b) * c)] computed exactly, for the examples. *)
Definition roundHalfUp (a b c : Z) : Z := (2 * a * c + b) / (2 * b).

Definition integerToString (d : JSON.decimal) : JS.jsstr :=
  JS.Number_toString (if JSON.neg d then - JSON.mantissa d else JSON.mantissa d).

Definition sameText (s : JS.jsstr) : JS.jsstr := s.

(** An example of inherited members: those of [Object.prototype] on a
    plain object, each shown as the same text whatever is read from it;
    the examples read no other inherited member. *)
Definition objectBuiltins (v : JSON.value) (k : JS.jsstr) (rest : list JS.jsstr)
  : option JS.jsstr :=
  match v with
  | JSON.Object _ =>
      if existsb (JS.jsstr_eqb k) EventsTableHandlers.objectPrototypeNames
      then Some (JS.js "function () { [native code] }")
      else None
  | _ => None
  end.

Definition alwaysYes : list ExportJob.Effect -> ExportJob.Message -> bool :=
  fun _ _ => true.

(** A backend whose direct export fails and whose pages come back empty. *)
Definition emptyBackend (tr : list ExportJob.Effect) (query : URLSearchParams.t)
  : EventsPage.FetchResult ExportJob.ExportData :=
  if URLSearchParams.has query (JS.js "export") then EventsPage.Rejected JS.TypeError
  else EventsPage.OkJson {| ExportJob.events := Some [] |}.

Definition meta5 : ExportJob.Meta :=
  {| ExportJob.total := 5; ExportJob.page := 1;
     ExportJob.limit := 10; ExportJob.last_page := 1 |}.

Definition phoneColumn : EventsTable.Column :=
  {| EventsTable.accessorKey := JS.js "user.phone";
     EventsTable.header := JS.js "Telefone" |}.

Definition nameColumn : EventsTable.Column :=
  {| EventsTable.accessorKey := JS.js "event_name";
     EventsTable.header := JS.js "Nome" |}.

(** The effects of converting batch [i] of [totalBatches]. *)
Definition batchEffects (Math_round_scaled : Z -> Z -> Z -> Z)
           (progressOffset totalBatches i : Z) : list ExportJob.Effect :=
  [ ExportJob.SetExportProgress
      (progressOffset + Math_round_scaled (i + 1) totalBatches (100 - progressOffset));
    ExportJob.Sleep 0 ].

(** What the user sees once [all] is assembled and [total] was expected:
    a notice that there is nothing to export, a question about a partial
    export (and the file if the answer is yes), or the file. *)
Definition assembledInteractions (content : JS.jsstr) (all : list EventsTable.Event)
           (total : Z) (answer : bool) : list ExportJob.Effect :=
  if (length all =? 0)%nat then [ExportJob.Alert ExportJob.MsgNoEvents]
  else if Z.of_nat (length all) <? total then
    ExportJob.Confirm (ExportJob.MsgConfirmPartial (Z.of_nat (length all)) total) answer
    :: (if answer then [ExportJob.Download ExportJob.AllEventsFile content] else [])
  else [ExportJob.Download ExportJob.AllEventsFile content].

(** The events a listing response carries ([data.events || []]). *)
Definition receivedEvents (data : ExportJob.ExportData) : list EventsTable.Event :=
  match ExportJob.events data with Some l => l | None => [] end.

(** The direct request raised an error: it was rejected, answered with a
    failure status, or its body could not be read. *)
Definition directRequestFailed
           (r : EventsPage.FetchResult ExportJob.ExportData) : Prop :=
  match r with EventsPage.OkJson _ => False | _ => True end.

(** The state in which [exportBody] starts retrieving. *)
Definition exportStarted (st : ExportJob.State) : ExportJob.State :=
  {| ExportJob.trace :=
       ExportJob.trace st
       ++ [ExportJob.SetExportAllLoading true; ExportJob.SetExportProgress 0];
     ExportJob.allEvents := [];
     ExportJob.usedPagination := false |}.

(** A step that shows no dialog and downloads nothing. *)
Definition quiet {A} (m : ExportJob.M A) : Prop :=
  forall st, interactions (ExportJob.trace (snd (m st)))
             = interactions (ExportJob.trace st).

(** A store of 2500 events and a backend that serves it in pages of 1000
    but cuts the direct export short after 100 rows. *)
Definition store2500 : list EventsTable.Event :=
  map (fun n => [(JS.js "event_id", EventsTable.integer n)]) (seqZ 1 2500).

Definition pageOfStore (p : Z) : list EventsTable.Event :=
  take 1000 (drop (Z.to_nat ((p - 1) * 1000)) store2500).

Definition pagedBackend (tr : list ExportJob.Effect) (query : URLSearchParams.t)
  : EventsPage.FetchResult ExportJob.ExportData :=
  if URLSearchParams.has query (JS.js "export")
  then EventsPage.OkJson {| ExportJob.events := Some (take 100 store2500) |}
  else match URLSearchParams.get query (JS.js "page") with
       | Some p =>
           match DateFilter.Number_of_digits p with
           | Some n => EventsPage.OkJson {| ExportJob.events := Some (pageOfStore n) |}
           | None => EventsPage.NotOk 400 []
           end
       | None => EventsPage.NotOk 400 []
       end.

(** A backend that cuts the direct export short and fails page 2 once. *)
Definition flakyBackend (tr : list ExportJob.Effect) (query : URLSearchParams.t)
  : EventsPage.FetchResult ExportJob.ExportData :=
  if URLSearchParams.has query (JS.js "export")
  then EventsPage.OkJson {| ExportJob.events := Some [] |}
  else if bool_decide (URLSearchParams.get query (JS.js "page") = Some (JS.js "2"))
          && (length (fetches tr) <? 3)%nat
       then EventsPage.NotOk 503 []
       else pagedBackend tr query.

Definition fromFilter : URLSearchParams.t :=
  [ (JS.js "from", JS.js "2024-03-01T00:00:00-03:00") ].

(** Reading a CSV row back (RFC 4180): a quoted field ends at a double
    quote that is not followed by another one. *)
Fixpoint readQuoted (s acc : JS.jsstr) : option (JS.jsstr * JS.jsstr) :=
  match s with
  | [] => None
  | c :: r =>
      if (c =? 34)%N then
        match r with
        | c' :: r' =>
            if (c' =? 34)%N then readQuoted r' (34%N :: acc)
            else Some (rev acc, r)
        | [] => Some (rev acc, [])
        end
      else readQuoted r (c :: acc)
  end.

Definition readField (s : JS.jsstr) : option (JS.jsstr * JS.jsstr) :=
  match s with
  | c :: r => if (c =? 34)%N then readQuoted r [] else None
  | [] => None
  end.

(** The fields of a row of at most [n] quoted fields separated by commas. *)
Fixpoint readRow (n : nat) (s : JS.jsstr) : option (list JS.jsstr) :=
  match n with
  | O => None
  | S n' =>
      match readField s with
      | None => None
      | Some (v, rest) =>
          match rest with
          | [] => Some [v]
          | c :: r =>
              if (c =? 44)%N then option_map (cons v) (readRow n' r) else None
          end
      end
  end.

(** An event whose [user] is [null] and whose [event_name] is [null]. *)
Definition nullEvent : EventsTable.Event :=
  [ (JS.js "event_id", JSON.Str (JS.js "e1"));
    (JS.js "event_name", JSON.Null);
    (JS.js "user", JSON.Null) ].

(** An event whose name holds a double quote, a comma and a line break. *)
Definition trickyEvent : EventsTable.Event :=
  [ (JS.js "event_id", JSON.Str (JS.js "e2"));
    (JS.js "event_name", JSON.Str (JS.jsq "say 'hi', then" ++ [10%N] ++ JS.js "leave"));
    (JS.js "user", JSON.Object [ (JS.js "fullname", JSON.Str (JS.js "Ana")) ]) ].

(** ** Vocabulary of the further properties *)

(** The filters that are plain strings. *)
Definition simpleFilterKeys : list JS.jsstr :=
  map JS.js [ "profession_id"; "funnel_id"; "time_from"; "time_to";
              "from"; "to" ]%string.

(** The value of the last entry named [name] that satisfies [keep]. *)
Fixpoint lastValue (keep : JS.jsstr -> bool) (entries : URLSearchParams.t)
         (name : JS.jsstr) : option JS.jsstr :=
  match entries with
  | [] => None
  | (k, v) :: rest =>
      match lastValue keep rest name with
      | Some v' => Some v'
      | None => if JS.jsstr_eqb k name && keep v then Some v else None
      end
  end.

(** A value with something besides white space. *)
Definition notBlank (v : JS.jsstr) : bool := negb (JS.jsstr_eqb (JS.trim v) []).

Definition anyValue (v : JS.jsstr) : bool := true.

(** A click on a column header: the table's [handleSort] runs with the
    page's sort state and hands its direction to the page's [handleSort]
    ([onSort]). *)
Definition headerClick (sortConfig : EventsPage.SortConfig)
           (searchParams : URLSearchParams.t) (columnId : JS.jsstr)
  : EventsPage.SortConfig * URLSearchParams.t :=
  let '(_, direction) :=
    EventsTableHandlers.handleSort searchParams
      (EventsPage.column sortConfig) (EventsPage.direction sortConfig) columnId in
  EventsPageHandlers.handleSort searchParams columnId direction.

(** What a filter reads after a change: the value given, nothing when it
    was cleared or given empty, the former value when it was left out. *)
Definition applied (arg : EventsTableHandlers.FilterArg)
           (before : option JS.jsstr) : option JS.jsstr :=
  match arg with
  | EventsTableHandlers.Unchanged => before
  | EventsTableHandlers.Given (c :: v) => Some (c :: v)
  | _ => None
  end.

(** The parameters [handleFilterChange] may write. *)
Definition filterChangeKeys : list JS.jsstr :=
  map JS.js [ "from"; "to"; "time_from"; "time_to"; "profession_id";
              "funnel_id"; "page" ]%string.

(** A run of updates, in order. *)
Definition updateAll (updates : list (JS.jsstr * EventsTableHandlers.FilterArg))
           (params : URLSearchParams.t) : URLSearchParams.t :=
  fold_left (fun p u => EventsTableHandlers.updateParam p (fst u) (snd u))
            updates params.

(** A step that only adds effects to the trace. *)
Definition extends {A} (m : ExportJob.M A) : Prop :=
  forall st, exists tr,
    ExportJob.trace (snd (m st)) = ExportJob.trace st ++ tr.

(** The number of batches in which [n] events are converted. *)
Definition batchCount (n : Z) : Z :=
  match JS.Math_ceil_div n (ExportJob.batchSizeFor n) with
  | JS.Int z => z
  | _ => 0
  end.

(** The upstream call of a route failed: the request was rejected, was
    answered with a failure status, or its body was not JSON. *)
Definition upstreamFailed {Data} (r : EventsPage.FetchResult Data) : Prop :=
  match r with EventsPage.OkJson _ => False | _ => True end.

(** A backend whose direct export returns its two events. *)
Definition completeBackend (tr : list ExportJob.Effect) (query : URLSearchParams.t)
  : EventsPage.FetchResult ExportJob.ExportData :=
  EventsPage.OkJson {| ExportJob.events := Some [nullEvent; trickyEvent] |}.

Definition meta2 : ExportJob.Meta :=
  {| ExportJob.total := 2; ExportJob.page := 1;
     ExportJob.limit := 10; ExportJob.last_page := 1 |}.

(** A range picked on a host in the Sao Paulo zone: 1 to 3 March 2024. *)
Definition marchRange : DateFilter.Change :=
  {| DateFilter.ch_from := Some (JSDate.localMidnight saoPauloHost 2024 3 1);
     DateFilter.ch_to := Some (JSDate.localMidnight saoPauloHost 2024 3 3);
     DateFilter.ch_fromTime := None;
     DateFilter.ch_toTime := None |}.

Definition surveyUrl : URLSearchParams.t :=
  [ (JS.js "page", JS.js "4");
    (JS.js "vendas_from", JS.js "2024-01-01T03:00:00.000-03:00");
    (JS.js "captacao_time_from", JS.js "08:00") ].

(** The error a failed answer raises in the export: the rejection
    itself, the message built from the status, or the syntax error of
    the body. *)
Definition thrownBy (notOk : Z -> JS.exn)
           (r : EventsPage.FetchResult ExportJob.ExportData) : JS.exn :=
  match r with
  | EventsPage.Rejected e => e
  | EventsPage.NotOk status _ => notOk status
  | _ => JS.SyntaxError
  end.

(** A backend whose direct export is rejected, whose first page holds one
    event and whose other pages fail. *)
Definition brokenBackend (tr : list ExportJob.Effect) (query : URLSearchParams.t)
  : EventsPage.FetchResult ExportJob.ExportData :=
  if URLSearchParams.has query (JS.js "export") then EventsPage.Rejected JS.TypeError
  else if bool_decide (URLSearchParams.get query (JS.js "page") = Some (JS.js "1"))
       then EventsPage.OkJson {| ExportJob.events := Some [trickyEvent] |}
       else EventsPage.NotOk 500 [].

Definition meta1500 : ExportJob.Meta :=
  {| ExportJob.total := 1500; ExportJob.page := 1;
     ExportJob.limit := 10; ExportJob.last_page := 150 |}.

(** The first and the last instant whose year has four digits. *)
Definition minFourDigitYear : Z := -62167219200000.
Definition maxFourDigitYear : Z := 253402300799999.

(** A host in New York as its zone was in 2024: UTC-05:00, and UTC-04:00
    from 10 March, 02:00 local time, to 3 November, 02:00 local time.  A
    local time that the change skips or repeats is read with the offset
    before the change. *)
Definition newYorkHost (t : Z) (isUTC : bool) : Z :=
  if isUTC then
    if (1710054000000 <=? t) && (t <? 1730613600000)
    then -4 * JSDate.msPerHour else -5 * JSDate.msPerHour
  else
    if (1710039600000 <=? t) && (t <? 1730599200000)
    then -4 * JSDate.msPerHour else -5 * JSDate.msPerHour.
(* ===================================================================== *)
(** * Properties                                                         *)
(* ===================================================================== *)

Lemma is_ceiling_unique c c' a b :
  0 < b -> is_ceiling c a b -> is_ceiling c' a b -> c = c'.
Proof. unfold is_ceiling. intros Hb H H'. nia. Qed.

(** ** 64-bit integers and [Atoi] *)

Lemma Int64_wrap_id z : Int64.in_range z -> Int64.wrap z = z.
Proof.
  unfold Int64.in_range, Int64.min_int, Int64.max_int, Int64.wrap. intros H.
  rewrite Z.mod_small; lia.
Qed.

Lemma Query_absent args key def :
  Fiber.Peek args key = None -> Fiber.Query args key def = def.
Proof. unfold Fiber.Query. now intros ->. Qed.

Lemma Query_present args key def v :
  Fiber.Peek args key = Some v -> v <> EmptyString -> Fiber.Query args key def = v.
Proof.
  unfold Fiber.Query. intros -> Hv.
  destruct (String.eqb_spec v EmptyString); congruence.
Qed.

(** ** The pagination component *)

Lemma Math_ceil_div_ceiling a b :
  0 < b -> exists c, JS.Math_ceil_div a b = JS.Int c /\ is_ceiling c a b.
Proof.
  intros Hb. unfold JS.Math_ceil_div.
  destruct (Z.eqb_spec b 0) as [->|_]; [lia|].
  eexists; split; [reflexivity|]. unfold is_ceiling.
  pose proof (Z.div_mod (- a) b ltac:(lia)) as Hdm.
  pose proof (Z.mod_pos_bound (- a) b Hb) as Hm.
  nia.
Qed.

(** The page count shown by the pagination component is
    [max(1, ceil(totalCount / perPage))]. *)
Lemma Pagination_pages_max_ceiling totalCount perPage :
  0 <= totalCount -> 1 <= perPage ->
  exists c, is_ceiling c totalCount perPage /\
            PaginationComponent.pages totalCount perPage = JS.Int (Z.max 1 c).
Proof.
  intros Ht Hp.
  destruct (Math_ceil_div_ceiling totalCount perPage ltac:(lia)) as (c & Hc & Hceil).
  exists c; split; [assumption|].
  unfold PaginationComponent.pages, JS.number_or. rewrite Hc. simpl.
  assert (0 <= c) by (unfold is_ceiling in Hceil; nia).
  destruct (Z.eqb_spec c 0) as [->|Hne]; simpl; f_equal; lia.
Qed.

Example Pagination_pages_25_10 : PaginationComponent.pages 25 10 = JS.Int 3.
Proof. reflexivity. Qed.

Example Pagination_pages_0_10 : PaginationComponent.pages 0 10 = JS.Int 1.
Proof. reflexivity. Qed.

(** ** The profession handler *)

Section ProfessionHandlerProperties.
Import Strconv Fiber ProfessionHandler.

Context {Profession : Type}.
Variable professionUseCase :
  Z -> Z -> string -> list Profession * Z * option string.
Variable getKeys : gmap string string -> list string.

(** The handler's formula is the ceiling of [total / limit], without a
    floor of one. *)
Lemma lastPage_ceiling total limit :
  0 <= total -> 1 <= limit -> total + limit <= Int64.max_int ->
  exists c, lastPage total limit = Some c /\ is_ceiling c total limit.
Proof.
  intros Ht Hl Hmax. unfold lastPage, Int64.div, Int64.sub, Int64.add.
  assert (Hmi : Int64.max_int = 2 ^ 63 - 1) by reflexivity.
  destruct (Z.eqb_spec limit 0) as [->|_]; [lia|].
  rewrite (Int64_wrap_id (total + limit))
    by (unfold Int64.in_range, Int64.min_int; lia).
  rewrite (Int64_wrap_id (total + limit - 1))
    by (unfold Int64.in_range, Int64.min_int; lia).
  rewrite Z.quot_div_nonneg by lia.
  pose proof (Z.div_mod (total + limit - 1) limit ltac:(lia)) as Hdm.
  pose proof (Z.mod_pos_bound (total + limit - 1) limit ltac:(lia)) as Hm.
  assert (Hq : 0 <= (total + limit - 1) / limit) by (apply Z.div_pos; lia).
  rewrite Int64_wrap_id.
  - eexists; split; [reflexivity|]. unfold is_ceiling. nia.
  - unfold Int64.in_range, Int64.min_int. split; [lia|].
    assert ((total + limit - 1) / limit <= total + limit - 1)
      by (apply Z.div_le_upper_bound; nia).
    lia.
Qed.

Lemma validSortFields_lookup sortBy field :
  validSortFields !! sortBy = Some field ->
  field = sortBy /\
  In sortBy [ "profession_id"; "created_at"; "profession_name";
              "meta_pixel"; "meta_token" ]%string.
Proof.
  unfold validSortFields. intros H. simpl in H.
  repeat (apply lookup_insert_Some in H as [[<- <-]|[_ H]];
          [split; [reflexivity|simpl; tauto]|]).
  rewrite lookup_empty in H. discriminate.
Qed.

Lemma resolveSortDirection_cases args :
  resolveSortDirection args = "asc"%string \/
  resolveSortDirection args = "desc"%string.
Proof.
  unfold resolveSortDirection.
  destruct (String.eqb_spec (Query args "sortDirection" "desc") "asc") as [->|];
    [left; reflexivity|].
  destruct (String.eqb_spec (Query args "sortDirection" "desc") "desc") as [->|];
    simpl; right; reflexivity.
Qed.

Lemma buildOrderBy_allow_listed args :
  exists field direction,
    buildOrderBy args = (field ++ " " ++ direction)%string /\
    is_Some (validSortFields !! field) /\
    (direction = "asc" \/ direction = "desc")%string.
Proof.
  unfold buildOrderBy.
  destruct (validSortFields !! Query args "sortBy" "created_at") as [field|] eqn:E.
  - apply validSortFields_lookup in E as E'. destruct E' as [-> _].
    exists (Query args "sortBy" "created_at"), (resolveSortDirection args).
    split; [reflexivity|]. split; [rewrite E; eauto|].
    apply resolveSortDirection_cases.
  - exists "created_at"%string, "desc"%string.
    split; [reflexivity|]. split; [|right; reflexivity].
    unfold validSortFields. simpl. eexists. reflexivity.
Qed.

(** C1: on the profession handler the reported [last_page] is the bare
    ceiling of [total / limit]; for an empty listing ([total = 0]) it is
    0, where the specification asks for [max(1, ceil(total/limit)) = 1]. *)
Theorem C1_handler_last_page_is_bare_ceiling args rows tot :
  0 <= tot ->
  1 <= uc_limit (useCaseCall args) ->
  tot + uc_limit (useCaseCall args) <= Int64.max_int ->
  professionUseCase (uc_page (useCaseCall args)) (uc_limit (useCaseCall args))
                    (uc_orderBy (useCaseCall args)) = (rows, tot, None) ->
  exists meta,
    GetProfessions professionUseCase getKeys args = StatusOK rows meta /\
    total meta = tot /\
    is_ceiling (last_page meta) tot (limit meta) /\
    (tot = 0 -> last_page meta = 0).
Proof.
  intros Ht Hl Hmax Huc. unfold GetProfessions. rewrite Huc.
  destruct (lastPage_ceiling tot _ Ht Hl Hmax) as (c & Hc & Hceil).
  change (fst (Atoi (Query args "limit" "10"))) with (uc_limit (useCaseCall args)).
  rewrite Hc. eexists; split; [reflexivity|]. simpl.
  split; [reflexivity|]. split; [assumption|].
  intros ->. unfold is_ceiling in Hceil. nia.
Qed.

(** C2: whatever the request, the order-by expression handed to the data
    layer is an allow-listed field followed by [asc] or [desc]; a [sortBy]
    outside the allow-list yields the default ordering; and the handler's
    answer depends on the data layer only through such expressions. *)
Theorem C2_order_by_is_allow_listed args :
  (exists field direction,
      uc_orderBy (useCaseCall args) = (field ++ " " ++ direction)%string /\
      is_Some (validSortFields !! field) /\
      (direction = "asc" \/ direction = "desc")%string) /\
  (validSortFields !! Query args "sortBy" "created_at" = None ->
   uc_orderBy (useCaseCall args) = "created_at desc"%string) /\
  (forall otherUseCase : Z -> Z -> string -> list Profession * Z * option string,
      (forall p l field direction,
          is_Some (validSortFields !! field) ->
          (direction = "asc" \/ direction = "desc")%string ->
          otherUseCase p l (field ++ " " ++ direction)%string
          = professionUseCase p l (field ++ " " ++ direction)%string) ->
      GetProfessions otherUseCase getKeys args
      = GetProfessions professionUseCase getKeys args).
Proof.
  split; [apply buildOrderBy_allow_listed|]. split.
  - simpl. unfold buildOrderBy. now intros ->.
  - intros other Hsame. unfold GetProfessions.
    destruct (buildOrderBy_allow_listed args) as (f & d & Hob & Hf & Hd).
    simpl. rewrite Hob. rewrite (Hsame _ _ f d Hf Hd). reflexivity.
Qed.

(** C3: [meta.sort_by] is the [sortBy] of the request as received
    ([created_at] when it is absent or empty), while [meta.sort_direction],
    read from the request beside it, is reported after its validation.
    For a [sortBy] outside the allow-list the rows are ordered by the
    default [created_at desc], so [meta.sort_by] names a field other than
    the one of the ordering; the allow-list is reported in
    [meta.valid_sort_fields]. *)
Theorem C3_sort_by_echoes_the_request args rows meta :
  GetProfessions professionUseCase getKeys args = StatusOK rows meta ->
  sort_by meta = Query args "sortBy" "created_at" /\
  sort_direction meta = resolveSortDirection args /\
  (sort_direction meta = "asc" \/ sort_direction meta = "desc")%string /\
  valid_sort_fields meta = getKeys validSortFields /\
  (validSortFields !! Query args "sortBy" "created_at" = None ->
   uc_orderBy (useCaseCall args) = "created_at desc"%string /\
   sort_by meta <> "created_at"%string).
Proof.
  unfold GetProfessions. intros H.
  destruct (professionUseCase _ _ _) as [[rows' tot] [err|]]; [discriminate|].
  destruct (lastPage tot _); [|discriminate].
  injection H as <- <-. simpl.
  split; [reflexivity|]. split; [reflexivity|]. split.
  { unfold resolveSortDirection.
    destruct (String.eqb_spec (Query args "sortDirection" "desc") "asc") as [->|Hasc];
      [left; reflexivity|].
    destruct (String.eqb_spec (Query args "sortDirection" "desc") "desc") as [->|Hdesc];
      [right; reflexivity|].
    right. reflexivity. }
  split; [reflexivity|].
  intros Hout. split; [unfold buildOrderBy; now rewrite Hout|].
  intros Heq. rewrite Heq in Hout. discriminate Hout.
Qed.

(** C4: a [limit] that is present but not numeric is not replaced by the
    default: [Atoi]'s error is dropped and the limit that reaches the data
    layer is 0; if the data layer answers without error, computing
    [last_page] divides by zero and the handler panics. *)
Theorem C4_non_numeric_limit_divides_by_zero args v :
  Peek args "limit" = Some v ->
  v <> EmptyString ->
  Atoi v = (0, Some ErrSyntax) ->
  (forall p l o, snd (professionUseCase p l o) = None) ->
  uc_limit (useCaseCall args) = 0 /\
  GetProfessions professionUseCase getKeys args = RuntimePanic.
Proof.
  intros Hpeek Hv Hatoi Hok.
  assert (Hl : fst (Atoi (Query args "limit" "10")) = 0)
    by (rewrite (Query_present _ _ _ _ Hpeek Hv), Hatoi; reflexivity).
  split; [exact Hl|].
  unfold GetProfessions.
  specialize (Hok (uc_page (useCaseCall args)) (uc_limit (useCaseCall args))
                  (uc_orderBy (useCaseCall args))).
  destruct (professionUseCase _ _ _) as [[rows tot] err]. simpl in Hok. subst err.
  rewrite Hl. reflexivity.
Qed.

(** Missing (or empty) [page] and [limit] do fall back to 1 and 10. *)
Lemma missing_page_and_limit_default args :
  Peek args "page" = None -> Peek args "limit" = None ->
  uc_page (useCaseCall args) = 1 /\ uc_limit (useCaseCall args) = 10.
Proof.
  intros Hp Hl. simpl.
  rewrite (Query_absent _ _ _ Hp), (Query_absent _ _ _ Hl). split; reflexivity.
Qed.

End ProfessionHandlerProperties.

Lemma C1_handler_last_page_is_bare_ceiling_witness :
  exists meta,
    ProfessionHandler.GetProfessions emptyTable sortedKeys [] =
      ProfessionHandler.StatusOK [] meta /\
    ProfessionHandler.total meta = 0 /\
    is_ceiling (ProfessionHandler.last_page meta) 0 (ProfessionHandler.limit meta) /\
    (0 = 0 -> ProfessionHandler.last_page meta = 0).
Proof.
  apply (C1_handler_last_page_is_bare_ceiling emptyTable sortedKeys [] [] 0).
  - lia.
  - vm_compute. discriminate.
  - vm_compute. discriminate.
  - reflexivity.
Defined.

Example empty_listing_reports_page_zero :
  forall meta,
    ProfessionHandler.GetProfessions emptyTable sortedKeys [("limit", "10")]%string
    = ProfessionHandler.StatusOK [] meta ->
    ProfessionHandler.last_page meta = 0.
Proof. intros meta H. vm_compute in H. injection H as <-. reflexivity. Qed.

Lemma C2_order_by_is_allow_listed_witness :
  ProfessionHandler.uc_orderBy
    (ProfessionHandler.useCaseCall
       [("sortBy", "name; DROP TABLE professions"); ("sortDirection", "up")]%string)
  = "created_at desc"%string.
Proof.
  apply (C2_order_by_is_allow_listed table25 sortedKeys
           [("sortBy", "name; DROP TABLE professions"); ("sortDirection", "up")]%string).
  reflexivity.
Defined.

Lemma C3_sort_by_echoes_the_request_witness :
  let args := [("sortBy", "invalid_field"); ("sortDirection", "up")]%string in
  let meta :=
    {| ProfessionHandler.total := 25; ProfessionHandler.page := 1;
       ProfessionHandler.limit := 10; ProfessionHandler.last_page := 3;
       ProfessionHandler.sort_by := "invalid_field";
       ProfessionHandler.sort_direction := "desc";
       ProfessionHandler.valid_sort_fields :=
         sortedKeys ProfessionHandler.validSortFields |} in
  ProfessionHandler.GetProfessions table25 sortedKeys args
  = ProfessionHandler.StatusOK [] meta /\
  ProfessionHandler.sort_by meta = "invalid_field"%string /\
  ProfessionHandler.sort_direction meta = "desc"%string /\
  ProfessionHandler.uc_orderBy (ProfessionHandler.useCaseCall args)
  = "created_at desc"%string /\
  ProfessionHandler.sort_by meta <> "created_at"%string.
Proof.
  intros args meta.
  destruct (C3_sort_by_echoes_the_request table25 sortedKeys args [] meta eq_refl)
    as (Hby & Hdir & _ & _ & Hout).
  destruct (Hout eq_refl) as [Horder Hne].
  split; [reflexivity|]. split; [exact Hby|]. split; [exact Hdir|].
  split; [exact Horder|exact Hne].
Defined.

Lemma C4_non_numeric_limit_divides_by_zero_witness :
  ProfessionHandler.uc_limit
    (ProfessionHandler.useCaseCall [("limit", "abc")]%string) = 0 /\
  ProfessionHandler.GetProfessions table25 sortedKeys [("limit", "abc")]%string
  = ProfessionHandler.RuntimePanic.
Proof.
  apply (C4_non_numeric_limit_divides_by_zero table25 sortedKeys
           [("limit", "abc")]%string "abc"%string).
  - reflexivity.
  - discriminate.
  - reflexivity.
  - reflexivity.
Defined.


(** ** [URLSearchParams] *)

Section URLSearchParamsProperties.
Import JS URLSearchParams.

Lemma jsstr_eqb_eq a b : jsstr_eqb a b = true <-> a = b.
Proof. unfold jsstr_eqb. apply bool_decide_eq_true. Qed.

Lemma jsstr_eqb_neq a b : jsstr_eqb a b = false <-> a <> b.
Proof. unfold jsstr_eqb. apply bool_decide_eq_false. Qed.

Lemma jsstr_eqb_refl a : jsstr_eqb a a = true.
Proof. now apply jsstr_eqb_eq. Qed.

Lemma get_delete_ne p name k :
  k <> name -> get (delete p name) k = get p k.
Proof.
  intros Hne. induction p as [|[k' v'] p IH]; [reflexivity|]. simpl.
  destruct (jsstr_eqb k' name) eqn:E; simpl.
  - apply jsstr_eqb_eq in E. subst k'.
    destruct (jsstr_eqb name k) eqn:E'; [apply jsstr_eqb_eq in E'; congruence|].
    exact IH.
  - destruct (jsstr_eqb k' k); [reflexivity|exact IH].
Qed.

Lemma get_set_eq p name value : get (set p name value) name = Some value.
Proof.
  induction p as [|[k' v'] p IH]; simpl.
  - now rewrite jsstr_eqb_refl.
  - destruct (jsstr_eqb k' name) eqn:E; simpl.
    + now rewrite jsstr_eqb_refl.
    + now rewrite E.
Qed.

Lemma get_set_ne p name value k :
  k <> name -> get (set p name value) k = get p k.
Proof.
  intros Hne. induction p as [|[k' v'] p IH]; simpl.
  - destruct (jsstr_eqb name k) eqn:E; [apply jsstr_eqb_eq in E; congruence|reflexivity].
  - destruct (jsstr_eqb k' name) eqn:E; simpl.
    + apply jsstr_eqb_eq in E. subst k'.
      destruct (jsstr_eqb name k) eqn:E'; [apply jsstr_eqb_eq in E'; congruence|].
      now apply get_delete_ne.
    + destruct (jsstr_eqb k' k); [reflexivity|exact IH].
Qed.

Lemma has_false_get p name : has p name = false <-> get p name = None.
Proof.
  unfold has. induction p as [|[k' v'] p IH]; simpl; [tauto|].
  destruct (jsstr_eqb k' name); simpl; [split; discriminate|exact IH].
Qed.

Lemma has_false_iff p name :
  has p name = false <-> Forall (fun kv => fst kv <> name) p.
Proof.
  unfold has. induction p as [|[k' v'] p IH]; simpl.
  - split; [constructor|reflexivity].
  - rewrite orb_false_iff, IH, jsstr_eqb_neq. split.
    + intros [? ?]. now constructor.
    + intros H. inversion H; subst. now split.
Qed.

End URLSearchParamsProperties.

(** ** The lead route *)

(** Absent or empty paging parameters get the defaults; a value that is
    present is forwarded unchanged, numeric or not. *)
Lemma LeadRoute_paging_defaults searchParams :
  (URLSearchParams.get searchParams (JS.js "page") = None ->
   LeadRoute.page (LeadRoute.paging searchParams) = JS.js "1") /\
  (URLSearchParams.get searchParams (JS.js "limit") = None ->
   LeadRoute.limit (LeadRoute.paging searchParams) = JS.js "10") /\
  (forall c v, URLSearchParams.get searchParams (JS.js "limit") = Some (c :: v) ->
               LeadRoute.limit (LeadRoute.paging searchParams) = c :: v).
Proof.
  unfold LeadRoute.paging, LeadRoute.get_or. cbn [LeadRoute.page LeadRoute.limit].
  repeat split; intros; now rewrite ?H.
Qed.

Example LeadRoute_non_numeric_limit :
  LeadRoute.limit (LeadRoute.paging [(JS.js "limit", JS.js "abc")]) = JS.js "abc".
Proof. reflexivity. Qed.

(** ** [JSON.parse]: the fuel of the parser is enough *)

Section JsonParserFuel.
Import JS JSON.
Local Open Scope nat_scope.

Lemma skip_ws_length s : length (skip_ws s) <= length s.
Proof.
  induction s as [|c s IH]; [reflexivity|]. cbn [skip_ws].
  destruct (is_ws c); cbn [length]; lia.
Qed.

Lemma skip_ws_cons_length s c r : skip_ws s = c :: r -> S (length r) <= length s.
Proof.
  intros H. pose proof (skip_ws_length s) as Hl. rewrite H in Hl. exact Hl.
Qed.

Lemma parse_string_body_length s :
  forall acc str rest,
    parse_string_body s acc = Some (str, rest) -> length rest < length s.
Proof.
  induction s as [s IH] using (induction_ltof1 _ (@length N)).
  unfold ltof in IH. intros acc str rest.
  destruct s as [|c r]; [discriminate|]. cbn [parse_string_body].
  destruct (c =? 34)%N; [intros [= <- <-]; cbn; lia|].
  destruct (c =? 92)%N.
  - destruct r as [|e r']; [discriminate|].
    repeat (match goal with
            | |- (if ?b then _ else _) = _ -> _ => destruct b
            end;
            [intros H; apply IH in H; cbn [length] in *; lia|]).
    destruct (e =? 117)%N; [|discriminate].
    destruct r' as [|h1 [|h2 [|h3 [|h4 r'']]]]; try discriminate.
    destruct (hex_val h1), (hex_val h2), (hex_val h3), (hex_val h4);
      try discriminate.
    intros H; apply IH in H; cbn [length] in *; lia.
  - destruct (c <? 32)%N; [discriminate|].
    intros H; apply IH in H; cbn [length] in *; lia.
Qed.

Lemma span_digits_length s :
  forall acc n v k rest,
    span_digits s acc n = (v, k, rest) ->
    (Z.of_nat (length rest) + (k - n) = Z.of_nat (length s) /\ n <= k)%Z.
Proof.
  induction s as [|c s IH]; intros acc n v k rest; cbn [span_digits].
  - intros [= <- <- <-]. cbn. lia.
  - destruct (is_digit c).
    + intros H. apply IH in H. cbn [length]. lia.
    + intros [= <- <- <-]. lia.
Qed.

Lemma parse_number_length s d rest :
  parse_number s = Some (d, rest) -> length rest < length s.
Proof.
  unfold parse_number.
  set (signed := match s with
                 | c :: r => if (c =? 45)%N then (true, r) else (false, s)
                 | [] => (false, s)
                 end).
  assert (Hs1 : length (snd signed) <= length s).
  { subst signed. destruct s as [|c r]; [reflexivity|].
    destruct (c =? 45)%N; cbn; lia. }
  destruct signed as [sign s1]. cbn [snd] in Hs1.
  destruct (span_digits s1 0 0) as [[ip ni] s2] eqn:Hint.
  apply span_digits_length in Hint.
  destruct ((ni =? 0)%Z || _) eqn:Hni; [discriminate|].
  apply orb_false_iff in Hni as [Hni _]. apply Z.eqb_neq in Hni.
  destruct (match s2 with [] => _ | _ => _ end) as [[[m nf] s3]|] eqn:Hf;
    [|discriminate].
  assert (Hfrac : length s3 <= length s2).
  { destruct s2 as [|c r]; [now injection Hf as <- <- <-|].
    destruct (c =? 46)%N; [|now injection Hf as <- <- <-].
    destruct (span_digits r ip 0) as [[m' nf'] s3'] eqn:Hf'.
    apply span_digits_length in Hf'.
    destruct (nf' =? 0)%Z; [discriminate|]. injection Hf as <- <- <-.
    cbn [length]. lia. }
  clear Hf.
  destruct s3 as [|c r]; [intros [= <- <-]; cbn [length] in *; lia|].
  destruct ((c =? 101)%N || (c =? 69)%N); [|intros [= <- <-]; cbn [length] in *; lia].
  set (esigned := match r with
                  | c' :: r' =>
                      if (c' =? 45)%N then (true, r')
                      else if (c' =? 43)%N then (false, r') else (false, r)
                  | [] => (false, r)
                  end).
  assert (Hr1 : length (snd esigned) <= length r).
  { subst esigned. destruct r as [|c' r']; [reflexivity|].
    destruct (c' =? 45)%N; [cbn; lia|]. destruct (c' =? 43)%N; cbn; lia. }
  destruct esigned as [esign r1]. cbn [snd] in Hr1.
  destruct (span_digits r1 0 0) as [[ev ne] s4] eqn:He.
  apply span_digits_length in He.
  destruct (ne =? 0)%Z; [discriminate|].
  intros [= <- <-]. cbn [length] in *. lia.
Qed.

Lemma expect_length lit s rest :
  lit <> [] -> expect lit s = Some rest -> length rest < length s.
Proof.
  unfold expect, jsstr_eqb. intros Hlit.
  case_bool_decide as Htake; [|discriminate]. intros [= <-].
  assert (Hlen : length (take (length lit) s) = length lit) by now rewrite Htake.
  rewrite length_take in Hlen. rewrite length_drop.
  destruct lit; [congruence|]. cbn [length] in *. lia.
Qed.

Ltac no_result := let H := fresh in intros H; cbn in H; discriminate H.

Ltac use_equations :=
  repeat match goal with
         | H : ?x = _ |- context [?x] => rewrite H
         end.

(** A successful parse shortens the input, and succeeds with any fuel of at
    least twice the number of code units it consumed. *)
Lemma parse_fuel_bound n :
  (forall s v rest,
      parse_value n s = Some (v, rest) ->
      length rest < length s /\
      forall m, 2 * (length s - length rest) <= m ->
                parse_value m s = Some (v, rest)) /\
  (forall s acc v rest,
      parse_elements n s acc = Some (v, rest) ->
      length rest < length s /\
      forall m, 2 * (length s - length rest) - 1 <= m ->
                parse_elements m s acc = Some (v, rest)) /\
  (forall s acc v rest,
      parse_members n s acc = Some (v, rest) ->
      length rest < length s /\
      forall m, 2 * (length s - length rest) - 1 <= m ->
                parse_members m s acc = Some (v, rest)).
Proof.
  induction n as [|n (IHV & IHE & IHM)];
    [split; [|split]; intros * H; cbn in H; discriminate H|].
  split; [|split].
  - intros s v rest. cbn [parse_value].
    destruct (skip_ws s) as [|c r] eqn:Hs; [no_result|].
    pose proof (skip_ws_cons_length _ _ _ Hs) as Hsl.
    destruct (c =? 91)%N eqn:E91.
    { destruct (skip_ws r) as [|c' r'] eqn:Hr; [no_result|].
      pose proof (skip_ws_cons_length _ _ _ Hr) as Hrl.
      destruct (c' =? 93)%N eqn:E93.
      - intros [= <- <-]. split; [lia|]. intros [|m] Hm; [lia|].
        cbn [parse_value]. now use_equations.
      - intros H. apply IHE in H as [Hl Hf]. split; [lia|].
        intros [|m] Hm; [lia|]. cbn [parse_value]. use_equations.
        apply Hf. lia. }
    destruct (c =? 123)%N eqn:E123.
    { destruct (skip_ws r) as [|c' r'] eqn:Hr; [no_result|].
      pose proof (skip_ws_cons_length _ _ _ Hr) as Hrl.
      destruct (c' =? 125)%N eqn:E125.
      - intros [= <- <-]. split; [lia|]. intros [|m] Hm; [lia|].
        cbn [parse_value]. now use_equations.
      - intros H. apply IHM in H as [Hl Hf]. split; [lia|].
        intros [|m] Hm; [lia|]. cbn [parse_value]. use_equations.
        apply Hf. lia. }
    destruct (c =? 34)%N eqn:E34.
    { destruct (parse_string_body r []) as [[str rest']|] eqn:Hb; [|no_result].
      pose proof (parse_string_body_length _ _ _ _ Hb) as Hbl.
      intros [= <- <-]. split; [lia|]. intros [|m] Hm; [lia|].
      cbn [parse_value]. now use_equations. }
    destruct (c =? 116)%N eqn:E116.
    { destruct (expect (js "true") (c :: r)) as [rest'|] eqn:He; [|no_result].
      assert (Hlit : js "true" <> []) by (cbv; discriminate).
      pose proof (expect_length _ _ _ Hlit He) as Hel.
      cbn [option_map length] in *. intros [= <- <-]. split; [lia|].
      intros [|m] Hm; [lia|]. cbn [parse_value]. now use_equations. }
    destruct (c =? 102)%N eqn:E102.
    { destruct (expect (js "false") (c :: r)) as [rest'|] eqn:He; [|no_result].
      assert (Hlit : js "false" <> []) by (cbv; discriminate).
      pose proof (expect_length _ _ _ Hlit He) as Hel.
      cbn [option_map length] in *. intros [= <- <-]. split; [lia|].
      intros [|m] Hm; [lia|]. cbn [parse_value]. now use_equations. }
    destruct (c =? 110)%N eqn:E110.
    { destruct (expect (js "null") (c :: r)) as [rest'|] eqn:He; [|no_result].
      assert (Hlit : js "null" <> []) by (cbv; discriminate).
      pose proof (expect_length _ _ _ Hlit He) as Hel.
      cbn [option_map length] in *. intros [= <- <-]. split; [lia|].
      intros [|m] Hm; [lia|]. cbn [parse_value]. now use_equations. }
    destruct (parse_number (c :: r)) as [[d rest']|] eqn:Hn; [|no_result].
    pose proof (parse_number_length _ _ _ Hn) as Hnl. cbn [length] in Hnl.
    intros [= <- <-]. split; [lia|]. intros [|m] Hm; [lia|].
    cbn [parse_value]. now use_equations.
  - intros s acc v rest. cbn [parse_elements].
    destruct (parse_value n s) as [[v1 r1]|] eqn:Hv; [|no_result].
    apply IHV in Hv as [Hl1 Hf1].
    destruct (skip_ws r1) as [|c r] eqn:Hr1; [no_result|].
    pose proof (skip_ws_cons_length _ _ _ Hr1) as Hrl.
    destruct (c =? 44)%N eqn:E44.
    + intros H. apply IHE in H as [Hl Hf]. split; [lia|].
      intros [|m] Hm; [lia|]. cbn [parse_elements].
      rewrite (Hf1 m) by lia. use_equations. apply Hf. lia.
    + destruct (c =? 93)%N eqn:E93; [|no_result].
      intros [= <- <-]. split; [lia|]. intros [|m] Hm; [lia|].
      cbn [parse_elements]. rewrite (Hf1 m) by lia. now use_equations.
  - intros s acc v rest. cbn [parse_members].
    destruct (skip_ws s) as [|c r] eqn:Hs; [no_result|].
    pose proof (skip_ws_cons_length _ _ _ Hs) as Hsl.
    destruct (c =? 34)%N eqn:E34; [|no_result].
    destruct (parse_string_body r []) as [[key rest0]|] eqn:Hb; [|no_result].
    pose proof (parse_string_body_length _ _ _ _ Hb) as Hbl.
    destruct (skip_ws rest0) as [|c' r'] eqn:Hr0; [no_result|].
    pose proof (skip_ws_cons_length _ _ _ Hr0) as Hr0l.
    destruct (c' =? 58)%N eqn:E58; [|no_result].
    destruct (parse_value n r') as [[v1 r1]|] eqn:Hv; [|no_result].
    apply IHV in Hv as [Hl1 Hf1].
    destruct (skip_ws r1) as [|c'' r''] eqn:Hr1; [no_result|].
    pose proof (skip_ws_cons_length _ _ _ Hr1) as Hr1l.
    destruct (c'' =? 44)%N eqn:E44.
    + intros H. apply IHM in H as [Hl Hf]. split; [lia|].
      intros [|m] Hm; [lia|]. cbn [parse_members]. use_equations.
      rewrite (Hf1 m) by lia. use_equations. apply Hf. lia.
    + destruct (c'' =? 125)%N eqn:E125; [|no_result].
      intros [= <- <-]. split; [lia|]. intros [|m] Hm; [lia|].
      cbn [parse_members]. use_equations.
      rewrite (Hf1 m) by lia. now use_equations.
Qed.

(** [JSON.parse] fails only where no amount of fuel would let the grammar
    succeed: the parser of [parse] never stops for lack of fuel. *)
Theorem parse_never_out_of_fuel text n v rest :
  parse_value n text = Some (v, rest) ->
  skip_ws rest = [] ->
  parse text = Some v.
Proof.
  intros Hparse Hrest. unfold parse.
  destruct (parse_fuel_bound n) as (HV & _ & _).
  apply HV in Hparse as [_ Hfuel].
  rewrite Hfuel by lia. now rewrite Hrest.
Qed.

End JsonParserFuel.

(** ** The events page *)

Section EventsPageProperties.
Import JS EventsPage.

Lemma some_of_empty_values items :
  Forall emptyValueEntry items -> some items = inr false.
Proof.
  induction 1 as [|f items (members & -> & Hv) _ IH]; [reflexivity|].
  simpl. rewrite Hv. simpl. exact IH.
Qed.

Lemma hasFilters_false_iff searchParams :
  hasFilters searchParams = false <->
  Forall (fun kv => existsb (jsstr_eqb (fst kv)) filterKeys = false) searchParams.
Proof.
  unfold hasFilters. rewrite !orb_false_iff, !has_false_iff.
  rewrite Forall_forall. setoid_rewrite Forall_forall.
  split.
  - intros ((((((((H1 & H2) & H3) & H4) & H5) & H6) & H7) & H8) & H9) kv Hin.
    cbn [filterKeys map existsb]. rewrite !orb_false_iff, !jsstr_eqb_neq.
    repeat split; auto.
  - intros H. repeat split; intros kv Hin; specialize (H kv Hin);
      cbn [filterKeys map existsb] in H;
      rewrite !orb_false_iff, !jsstr_eqb_neq in H; tauto.
Qed.
Context {Data : Type}.
Variable fetch : URLSearchParams.t -> FetchResult Data.
Variable JSON_stringify : JSON.value -> jsstr.

Lemma tryFilterEntry_absent searchParams params key value :
  absentFilter value ->
  match tryFilterEntry JSON_stringify searchParams params key value with
  | inl _ => True
  | inr params' => params' = params
  end.
Proof.
  unfold tryFilterEntry. intros [->|[->|(items & -> & Hall)]]; try exact I.
  - reflexivity.
  - destruct items as [|f items]; [reflexivity|].
    rewrite (some_of_empty_values _ Hall). reflexivity.
Qed.

Lemma copyEntry_absent searchParams params key value :
  isFilterArrayKey key = true -> absentFilter value ->
  copyEntry JSON_stringify searchParams params (key, value) = params.
Proof.
  intros Hk Habs. unfold copyEntry.
  destruct (existsb (jsstr_eqb key) basicKeys); [reflexivity|].
  destruct (existsb (jsstr_eqb key) filterKeys) eqn:E.
  - unfold isFilterArrayKey in Hk. rewrite Hk.
    pose proof (tryFilterEntry_absent searchParams params key value Habs) as H.
    destruct (tryFilterEntry _ _ _ _ _); [reflexivity|exact H].
  - exfalso. unfold isFilterArrayKey in Hk.
    apply orb_true_iff in Hk as [Hk|Hk]; apply jsstr_eqb_eq in Hk; subst key;
      vm_compute in E; discriminate.
Qed.

Lemma copyEntry_other searchParams searchParams' params key value :
  isFilterArrayKey key = false ->
  copyEntry JSON_stringify searchParams params (key, value)
  = copyEntry JSON_stringify searchParams' params (key, value).
Proof.
  intros Hk. unfold copyEntry. unfold isFilterArrayKey in Hk. rewrite Hk.
  reflexivity.
Qed.

Lemma copy_without_filter_arrays searchParams searchParams' entries params :
  Forall (fun kv => isFilterArrayKey (fst kv) = true -> absentFilter (snd kv))
         entries ->
  fold_left (copyEntry JSON_stringify searchParams) entries params
  = fold_left (copyEntry JSON_stringify searchParams')
              (withoutFilterArrays entries) params.
Proof.
  intros Hall. revert params.
  induction Hall as [|[k v] entries Hkv _ IH]; intros params; [reflexivity|].
  cbn [fst snd] in Hkv. cbn [fold_left withoutFilterArrays List.filter fst].
  destruct (isFilterArrayKey k) eqn:Hk; cbn [negb fold_left].
  - rewrite (copyEntry_absent _ _ _ _ Hk (Hkv eq_refl)). apply IH.
  - rewrite (copyEntry_other searchParams searchParams' _ _ _ Hk). apply IH.
Qed.

Lemma copyEntry_keeps_other_keys searchParams params key value k :
  isFilterArrayKey key = false -> k <> key ->
  URLSearchParams.get (copyEntry JSON_stringify searchParams params (key, value)) k
  = URLSearchParams.get params k.
Proof.
  intros Hf Hk. unfold copyEntry. unfold isFilterArrayKey in Hf. rewrite Hf.
  destruct (existsb _ basicKeys); [reflexivity|].
  destruct (existsb _ filterKeys); [destruct (_ && _)|];
    try reflexivity; now apply get_set_ne.
Qed.

Lemma copyEntry_basic_key searchParams params key value :
  existsb (jsstr_eqb key) basicKeys = true ->
  copyEntry JSON_stringify searchParams params (key, value) = params.
Proof. intros Hb. unfold copyEntry. now rewrite Hb. Qed.


Lemma copy_keeps_key searchParams entries params k :
  Forall (fun kv => isFilterArrayKey (fst kv) = false /\
                    (existsb (jsstr_eqb (fst kv)) basicKeys = true \/ fst kv <> k))
         entries ->
  URLSearchParams.get
    (fold_left (copyEntry JSON_stringify searchParams) entries params) k
  = URLSearchParams.get params k.
Proof.
  intros Hall. revert params.
  induction Hall as [|[key v] entries [Hf Hk] _ IH]; intros params; [reflexivity|].
  cbn [fold_left fst] in *. rewrite IH.
  destruct Hk as [Hb|Hk].
  - now rewrite copyEntry_basic_key.
  - apply copyEntry_keeps_other_keys; [assumption|congruence].
Qed.

Lemma withoutFilterArrays_keys searchParams :
  Forall (fun kv => isFilterArrayKey (fst kv) = false)
         (withoutFilterArrays searchParams).
Proof.
  apply List.Forall_forall. intros kv Hin. apply filter_In in Hin as [_ H].
  now apply negb_true_iff in H.
Qed.

Lemma basicParams_keys page limit sortConfig k :
  existsb (jsstr_eqb k) basicKeys = false ->
  URLSearchParams.get (basicParams page limit sortConfig) k = None.
Proof.
  intros Hk. cbn [basicKeys map existsb] in Hk.
  rewrite !orb_false_iff, !jsstr_eqb_neq in Hk.
  destruct Hk as (H1 & H2 & H3 & H4 & _).
  unfold basicParams.
  destruct (column sortConfig) as [[|c col]|];
    [| destruct (direction sortConfig) as [[|d dir]|] |];
    repeat (rewrite get_set_ne by congruence); reflexivity.
Qed.

Lemma copy_basic_only searchParams entries params :
  Forall (fun kv => existsb (jsstr_eqb (fst kv)) basicKeys = true) entries ->
  fold_left (copyEntry JSON_stringify searchParams) entries params = params.
Proof.
  intros Hall. revert params.
  induction Hall as [|[key v] entries Hb _ IH]; intros params; [reflexivity|].
  cbn [fold_left fst] in *. rewrite copyEntry_basic_key by assumption. apply IH.
Qed.

Lemma existsb_jsstr_In k keys : existsb (jsstr_eqb k) keys = true <-> In k keys.
Proof.
  rewrite existsb_exists. split.
  - intros (x & Hin & Hx). apply jsstr_eqb_eq in Hx. now subst.
  - intros Hin. exists k. split; [assumption|apply jsstr_eqb_refl].
Qed.

Lemma requestParams_stripped clearing page limit sortConfig searchParams :
  Forall (fun kv => isFilterArrayKey (fst kv) = true -> absentFilter (snd kv))
         searchParams ->
  requestParams JSON_stringify clearing page limit sortConfig searchParams
  = if clearing then basicParams page limit sortConfig
    else if negb (hasFilters searchParams) then basicParams page limit sortConfig
    else fold_left (copyEntry JSON_stringify (withoutFilterArrays searchParams))
                   (withoutFilterArrays searchParams)
                   (basicParams page limit sortConfig).
Proof.
  intros Habs. unfold requestParams, URLSearchParams.entries.
  destruct clearing; [reflexivity|].
  destruct (negb (hasFilters searchParams)); [reflexivity|].
  now apply copy_without_filter_arrays.
Qed.

Lemma hasFilters_stripped searchParams :
  hasFilters searchParams = false ->
  hasFilters (withoutFilterArrays searchParams) = false.
Proof.
  rewrite !hasFilters_false_iff, !List.Forall_forall.
  intros H kv Hin. apply H. now apply filter_In in Hin as [Hin _].
Qed.

(** C6: an [advanced_filters] or [filters] value that is malformed JSON, an
    empty array, or an array of entries with empty values is left out of
    the API request: the request carries neither parameter, what
    [fetchEvents] returns or throws is what the network call gives (no
    parsing error escapes), and the request agrees on every parameter of
    the listing endpoint with the request built from the same URL without
    the two parameters; the two runs are the same altogether when the URL
    only holds parameters of the listing endpoint. *)
Theorem C6_absent_like_filters_are_left_out
        clearing page limit sortConfig searchParams :
  Forall (fun kv => isFilterArrayKey (fst kv) = true -> absentFilter (snd kv))
         searchParams ->
  let outcome :=
    fetchEvents fetch JSON_stringify clearing page limit sortConfig searchParams in
  let reference :=
    fetchEvents fetch JSON_stringify clearing page limit sortConfig
                (withoutFilterArrays searchParams) in
  URLSearchParams.has (request outcome) (js "advanced_filters") = false /\
  URLSearchParams.has (request outcome) (js "filters") = false /\
  result outcome = await_fetch fetch (request outcome) /\
  (forall k, In k listingKeys ->
             URLSearchParams.get (request outcome) k
             = URLSearchParams.get (request reference) k) /\
  (Forall (fun kv => In (fst kv) listingKeys) searchParams ->
   outcome = reference).
Proof.
  intros Habs outcome reference.
  pose proof (requestParams_stripped clearing page limit sortConfig _ Habs) as Hreq.
  set (basic := basicParams page limit sortConfig) in *.
  set (stripped := withoutFilterArrays searchParams) in *.
  assert (Hnone : forall k, isFilterArrayKey k = true ->
                            URLSearchParams.get (request outcome) k = None).
  { intros k Hk. cbn [outcome fetchEvents request]. rewrite Hreq.
    assert (Hb : URLSearchParams.get basic k = None).
    { apply basicParams_keys. unfold isFilterArrayKey in Hk.
      apply orb_true_iff in Hk as [Hk|Hk]; apply jsstr_eqb_eq in Hk; subst k;
        reflexivity. }
    destruct clearing; [exact Hb|].
    destruct (negb (hasFilters searchParams)); [exact Hb|].
    rewrite copy_keeps_key; [exact Hb|].
    eapply List.Forall_impl; [|apply withoutFilterArrays_keys].
    intros kv Hkv. cbn beta in *. split; [exact Hkv|]. right. congruence. }
  assert (Hsame : hasFilters stripped = false ->
                  forall k, In k listingKeys ->
                  URLSearchParams.get
                    (fold_left (copyEntry JSON_stringify stripped) stripped basic) k
                  = URLSearchParams.get basic k).
  { intros Hno k Hk. apply copy_keeps_key.
    apply hasFilters_false_iff in Hno.
    pose proof (withoutFilterArrays_keys searchParams) as Hs. fold stripped in Hs.
    rewrite List.Forall_forall in *. intros kv Hin. split; [now apply Hs|].
    destruct (existsb (jsstr_eqb (fst kv)) basicKeys) eqn:Eb; [now left|right].
    intros <-. unfold listingKeys in Hk. apply in_app_or in Hk as [Hk|Hk].
    - apply existsb_jsstr_In in Hk. congruence.
    - apply existsb_jsstr_In in Hk. rewrite (Hno kv Hin) in Hk. discriminate. }
  split; [apply has_false_get, Hnone; reflexivity|].
  split; [apply has_false_get, Hnone; reflexivity|].
  split; [reflexivity|].
  split.
  - intros k Hk. cbn [outcome reference fetchEvents request]. rewrite Hreq.
    unfold requestParams, URLSearchParams.entries. fold basic. fold stripped.
    destruct clearing; [reflexivity|].
    destruct (hasFilters searchParams) eqn:Hf; cbn [negb].
    + destruct (hasFilters stripped) eqn:Hs; cbn [negb]; [reflexivity|].
      now apply Hsame.
    + pose proof (hasFilters_stripped _ Hf) as Hs. fold stripped in Hs.
      now rewrite Hs.
  - intros Hkeys. unfold outcome, reference, fetchEvents.
    assert (Heq : requestParams JSON_stringify clearing page limit sortConfig searchParams
                  = requestParams JSON_stringify clearing page limit sortConfig stripped).
    { rewrite Hreq. unfold requestParams, URLSearchParams.entries.
      fold basic. fold stripped.
      destruct clearing; [reflexivity|].
      destruct (hasFilters searchParams) eqn:Hf; cbn [negb].
      - destruct (hasFilters stripped) eqn:Hs; cbn [negb]; [reflexivity|].
        apply copy_basic_only.
        apply hasFilters_false_iff in Hs.
        rewrite List.Forall_forall in *. intros kv Hin.
        assert (Hin' : In kv searchParams)
          by (now apply filter_In in Hin as [Hin _]).
        specialize (Hkeys kv Hin'). specialize (Hs kv Hin).
        unfold listingKeys in Hkeys. apply in_app_or in Hkeys as [Hk|Hk].
        + now apply existsb_jsstr_In.
        + apply existsb_jsstr_In in Hk. congruence.
      - pose proof (hasFilters_stripped _ Hf) as Hs. fold stripped in Hs.
        now rewrite Hs. }
    now rewrite Heq.
Qed.

End EventsPageProperties.

(** A legacy [filters] value that is malformed JSON ends the parsing with no
    filters, also when [advanced_filters] is valid; the exception does not
    leave [parseSearchParams]. *)
Lemma parseSearchParams_malformed_legacy params c text :
  URLSearchParams.get params (JS.js "filters") = Some (c :: text) ->
  JSON.parse (c :: text) = None ->
  EventsPage.parseSearchParams params = [].
Proof.
  unfold EventsPage.parseSearchParams. now intros -> ->.
Qed.

Lemma parseSearchParams_malformed_advanced params c text :
  URLSearchParams.get params (JS.js "filters") = None ->
  URLSearchParams.get params (JS.js "advanced_filters") = Some (c :: text) ->
  JSON.parse (c :: text) = None ->
  EventsPage.parseSearchParams params = [].
Proof.
  unfold EventsPage.parseSearchParams. now intros -> -> ->.
Qed.

(** C5 (amended): [parseSearchParams] reads the legacy [filters] parameter
    first; when it parses to a non-empty array that array is the result,
    whatever [advanced_filters] holds.  [advanced_filters] is used when the
    legacy parameter is absent, empty, JSON that is not an array, or an
    empty array. *)
Theorem C5_legacy_filters_come_first params :
  (forall legacyText legacy,
      URLSearchParams.get params (JS.js "filters") = Some legacyText ->
      JSON.parse legacyText = Some (JSON.Array legacy) ->
      legacy <> [] ->
      EventsPage.parseSearchParams params = legacy) /\
  (forall advancedText advanced,
      URLSearchParams.get params (JS.js "filters") = None \/
      URLSearchParams.get params (JS.js "filters") = Some [] \/
      (exists legacyText decoded,
          URLSearchParams.get params (JS.js "filters") = Some legacyText /\
          JSON.parse legacyText = Some decoded /\
          (forall legacy, decoded = JSON.Array legacy -> legacy = [])) ->
      URLSearchParams.get params (JS.js "advanced_filters") = Some advancedText ->
      JSON.parse advancedText = Some (JSON.Array advanced) ->
      EventsPage.parseSearchParams params = advanced).
Proof.
  unfold EventsPage.parseSearchParams. split.
  - intros legacyText legacy -> Hparse Hne.
    destruct legacyText as [|c text]; [discriminate Hparse|].
    rewrite Hparse. destruct legacy; [congruence|reflexivity].
  - intros advancedText advanced Hlegacy -> Hparse.
    destruct advancedText as [|c text]; [discriminate Hparse|].
    destruct Hlegacy as [-> | [-> | (legacyText & decoded & -> & Hdecoded & Hvoid)]].
    + cbn [length Nat.eqb]. now rewrite Hparse.
    + cbn [length Nat.eqb]. now rewrite Hparse.
    + destruct legacyText as [|c' text']; [discriminate Hdecoded|].
      rewrite Hdecoded.
      destruct decoded as [| | | |legacy|];
        try (cbn [length Nat.eqb]; now rewrite Hparse).
      rewrite (Hvoid legacy eq_refl). cbn [length Nat.eqb]. now rewrite Hparse.
Qed.

(** The four ways in which the legacy parameter gives way. *)
Example advanced_filters_after_a_void_legacy_parameter :
  let advanced :=
    (JS.js "advanced_filters",
     JS.jsq "[{'field':'utm_source','operator':'equals','value':'advanced'}]") in
  EventsPage.parseSearchParams [advanced] = [filterEntry "advanced"] /\
  EventsPage.parseSearchParams [(JS.js "filters", []); advanced]
  = [filterEntry "advanced"] /\
  EventsPage.parseSearchParams [(JS.js "filters", JS.jsq "{'field':'utm_source'}"); advanced]
  = [filterEntry "advanced"] /\
  EventsPage.parseSearchParams [(JS.js "filters", JS.js "[]"); advanced]
  = [filterEntry "advanced"].
Proof. repeat split; vm_compute; reflexivity. Qed.

(** C5, as stated, fails: with both parameters present and both valid
    non-empty arrays, the legacy [filters] array is the one returned. *)
Lemma C5_counterexample :
  JSON.parse (JS.jsq "[{'field':'utm_source','operator':'equals','value':'legacy'}]")
  = Some (JSON.Array [filterEntry "legacy"]) /\
  JSON.parse (JS.jsq "[{'field':'utm_source','operator':'equals','value':'advanced'}]")
  = Some (JSON.Array [filterEntry "advanced"]) /\
  EventsPage.parseSearchParams bothFilters = [filterEntry "legacy"] /\
  EventsPage.parseSearchParams bothFilters <> [filterEntry "advanced"].
Proof.
  split; [vm_compute; reflexivity|]. split; [vm_compute; reflexivity|].
  split; [vm_compute; reflexivity|]. vm_compute. discriminate.
Qed.

Lemma C5_legacy_filters_come_first_witness :
  EventsPage.parseSearchParams bothFilters = [filterEntry "legacy"].
Proof.
  apply (proj1 (C5_legacy_filters_come_first bothFilters)
               (JS.jsq "[{'field':'utm_source','operator':'equals','value':'legacy'}]")).
  - reflexivity.
  - vm_compute. reflexivity.
  - discriminate.
Defined.

Lemma C6_absent_like_filters_are_left_out_witness :
  let outcome :=
    EventsPage.fetchEvents answerNothing (fun _ => []) false 2 10 noSort blankFilters in
  let reference :=
    EventsPage.fetchEvents answerNothing (fun _ => []) false 2 10 noSort
                           (withoutFilterArrays blankFilters) in
  URLSearchParams.has (EventsPage.request outcome) (JS.js "advanced_filters") = false /\
  URLSearchParams.has (EventsPage.request outcome) (JS.js "filters") = false /\
  EventsPage.result outcome
  = EventsPage.await_fetch answerNothing (EventsPage.request outcome) /\
  (forall k, In k listingKeys ->
             URLSearchParams.get (EventsPage.request outcome) k
             = URLSearchParams.get (EventsPage.request reference) k) /\
  (Forall (fun kv => In (fst kv) listingKeys) blankFilters ->
   outcome = reference).
Proof.
  apply (C6_absent_like_filters_are_left_out
           answerNothing (fun _ => []) false 2 10 noSort blankFilters).
  apply List.Forall_cons; [discriminate|].
  apply List.Forall_cons.
  { intros _. right. right. eexists. split; [vm_compute; reflexivity|].
    apply List.Forall_cons; [|apply List.Forall_nil].
    eexists. split; reflexivity. }
  apply List.Forall_cons; [|apply List.Forall_nil].
  intros _. left. vm_compute. reflexivity.
Defined.

Example request_of_blank_filters :
  EventsPage.request
    (EventsPage.fetchEvents answerNothing (fun _ => []) false 2 10 noSort blankFilters)
  = [ (JS.js "page", JS.js "2"); (JS.js "limit", JS.js "10") ].
Proof. vm_compute. reflexivity. Qed.


(** ** Date ranges *)

(** Without custom times the reported bounds are the first and the last
    millisecond of the host-local calendar day of the picked date: they move
    with the host's offset from UTC. *)
Lemma updateFilters_bounds_are_host_local LocalTZA t fromTime toTime :
  let day := JSDate.Day (JSDate.LocalTime LocalTZA t) in
  Z.abs (JSDate.UTC LocalTZA (day * JSDate.msPerDay)) <= 8640000000000000 ->
  Z.abs (JSDate.UTC LocalTZA (day * JSDate.msPerDay + 86399999)) <= 8640000000000000 ->
  DateFilter.updateFilters LocalTZA
    (Some {| DateFilter.from := Some (JSDate.Valid t);
             DateFilter.to := Some (JSDate.Valid t) |})
    false fromTime toTime
  = {| DateFilter.ch_from :=
         Some (JSDate.Valid (JSDate.UTC LocalTZA (day * JSDate.msPerDay)));
       DateFilter.ch_to :=
         Some (JSDate.Valid (JSDate.UTC LocalTZA (day * JSDate.msPerDay + 86399999)));
       DateFilter.ch_fromTime := None;
       DateFilter.ch_toTime := None |}.
Proof.
  intros day Hfrom Hto. unfold DateFilter.updateFilters, JSDate.setHours.
  fold day. unfold JSDate.MakeDate, JSDate.MakeTime, JSDate.TimeClip.
  change (0 * JSDate.msPerHour + 0 * JSDate.msPerMinute + 0 * JSDate.msPerSecond + 0)
    with 0.
  change (23 * JSDate.msPerHour + 59 * JSDate.msPerMinute
          + 59 * JSDate.msPerSecond + 999) with 86399999.
  rewrite Z.add_0_r.
  destruct (Z.leb_spec (Z.abs (JSDate.UTC LocalTZA (day * JSDate.msPerDay)))
                       8640000000000000); [|lia].
  destruct (Z.leb_spec (Z.abs (JSDate.UTC LocalTZA (day * JSDate.msPerDay + 86399999)))
                       8640000000000000); [|lia].
  reflexivity.
Qed.

(** C7: picking 2024-03-01 as both ends of a range, without explicit times,
    on a host in the Sao Paulo zone yields the interval from 03:00:00.000 of
    that day to 02:59:59.999 of the next day at offset -03:00, not the full
    day; only on a host running in UTC is the full day produced, so the
    interval follows the machine's zone. *)
Theorem C7_interval_follows_the_host_zone :
  PesquisasTable.compileDay saoPauloHost PesquisasTable.captacao
    (JSDate.localMidnight saoPauloHost 2024 3 1) []
  = inr (Some [ (JS.js "page", JS.js "1");
                (JS.js "captacao_from", JS.js "2024-03-01T03:00:00.000-03:00");
                (JS.js "captacao_to", JS.js "2024-03-02T02:59:59.999-03:00") ]) /\
  PesquisasTable.compileDay utcHost PesquisasTable.captacao
    (JSDate.localMidnight utcHost 2024 3 1) []
  = inr (Some [ (JS.js "page", JS.js "1");
                (JS.js "captacao_from", JS.js "2024-03-01T00:00:00.000-03:00");
                (JS.js "captacao_to", JS.js "2024-03-01T23:59:59.999-03:00") ]) /\
  PesquisasTable.compileDay tokyoHost PesquisasTable.captacao
    (JSDate.localMidnight tokyoHost 2024 3 1) []
  = inr (Some [ (JS.js "page", JS.js "1");
                (JS.js "captacao_from", JS.js "2024-02-29T15:00:00.000-03:00");
                (JS.js "captacao_to", JS.js "2024-03-01T14:59:59.999-03:00") ]).
Proof. repeat split; vm_compute; reflexivity. Qed.

(** ** The export job *)

Section ExportJobProperties.
Import JS EventsPage EventsTable ExportJob.

Variable server : list Effect -> URLSearchParams.t -> FetchResult ExportData.
Variable user : list Effect -> Message -> bool.
Variable Number_toString_double : JSON.decimal -> jsstr.
Variable formatDateToBRT : jsstr -> jsstr.
Variable inherited : JSON.value -> jsstr -> list jsstr -> option jsstr.
Variable Math_round_scaled : Z -> Z -> Z -> Z.

Lemma fetchPages_all_answered baseParams totalPages pages n :
  forall page st,
    (forall tr p, page <= p < page + Z.of_nat n ->
                  server tr (pageParams baseParams p)
                  = OkJson {| events := Some (pages p) |}) ->
    fetchPages server Math_round_scaled baseParams totalPages n page st
    = (inr tt,
       {| trace := trace st
                   ++ flat_map (pageEffects Math_round_scaled baseParams totalPages)
                               (seqZ page (Z.of_nat n));
          allEvents := allEvents st ++ concat (map pages (seqZ page (Z.of_nat n)));
          usedPagination := usedPagination st |}).
Proof.
  induction n as [|n IH]; intros page st Hserver.
  - destruct st. cbn. now rewrite !app_nil_r.
  - cbn [fetchPages]. unfold bind at 1. unfold fetchEventList.
    rewrite Hserver by lia. cbn [events].
    unfold bind, getAllEvents, setAllEvents, emit. cbn [trace allEvents usedPagination].
    rewrite IH by (intros; apply Hserver; lia).
    cbn [trace allEvents usedPagination].
    rewrite (seqZ_cons page (Z.of_nat (S n))) by lia.
    replace (Z.pred (Z.of_nat (S n))) with (Z.of_nat n) by lia.
    replace (Z.succ page) with (page + 1) by lia.
    cbn [flat_map map concat pageEffects].
    f_equal. f_equal; rewrite <- ?app_assoc; reflexivity.
Qed.

Lemma pageParams_page_and_limit baseParams p :
  URLSearchParams.get (pageParams baseParams p) (js "page") = Some (Number_toString p) /\
  URLSearchParams.get (pageParams baseParams p) (js "limit") = Some (js "1000").
Proof.
  unfold pageParams. split.
  - rewrite get_set_ne by discriminate. apply get_set_eq.
  - apply get_set_eq.
Qed.

Lemma fetches_app tr1 tr2 : fetches (tr1 ++ tr2) = fetches tr1 ++ fetches tr2.
Proof. unfold fetches. apply omap_app. Qed.

Lemma interactions_app tr1 tr2 :
  interactions (tr1 ++ tr2) = interactions tr1 ++ interactions tr2.
Proof. unfold interactions. apply List.filter_app. Qed.

(** C8: with 2500 records expected, the page-by-page retrieval issues
    exactly three requests, for pages 1, 2 and 3 in that order, each with
    limit 1000; the pages are appended in that order, and when they hold
    1000, 1000 and 500 records the accumulated sequence has 2500. *)
Theorem C8_paginated_export_of_2500 baseParams pages st :
  (forall tr p, 1 <= p <= 3 ->
                server tr (pageParams baseParams p)
                = OkJson {| events := Some (pages p) |}) ->
  exists st',
    fetchAllPages server Math_round_scaled baseParams 2500 st = (inr tt, st') /\
    fetches (trace st')
    = fetches (trace st)
      ++ [pageParams baseParams 1; pageParams baseParams 2; pageParams baseParams 3] /\
    (forall p,
        URLSearchParams.get (pageParams baseParams p) (js "page")
        = Some (Number_toString p) /\
        URLSearchParams.get (pageParams baseParams p) (js "limit")
        = Some (js "1000")) /\
    allEvents st' = allEvents st ++ pages 1 ++ pages 2 ++ pages 3 /\
    (allEvents st = [] ->
     length (pages 1) = 1000%nat -> length (pages 2) = 1000%nat ->
     length (pages 3) = 500%nat ->
     length (allEvents st') = 2500%nat).
Proof.
  intros Hserver. eexists. split.
  - unfold fetchAllPages. change (totalPagesOf 2500) with 3.
    unfold bind at 1. unfold emit at 1.
    rewrite (fetchPages_all_answered baseParams 3 pages)
      by (intros tr p Hp; apply Hserver; cbn in Hp; lia).
    reflexivity.
  - cbn [trace allEvents].
    change (seqZ 1 (Z.of_nat (Z.to_nat 3))) with [1; 2; 3].
    split; [|split; [apply pageParams_page_and_limit|split]].
    + rewrite !fetches_app. cbn. now rewrite <- app_assoc.
    + cbn. now rewrite app_nil_r.
    + intros -> H1 H2 H3. cbn. rewrite app_nil_r, !length_app. lia.
Qed.

(** *** Converting the assembled events *)

Lemma slice_app {A} (l : list A) a m e :
  0 <= a <= m -> m <= e -> slice l a m ++ slice l m e = slice l a e.
Proof.
  intros Ham Hme. unfold slice.
  replace (Z.to_nat m) with (Z.to_nat a + Z.to_nat (m - a))%nat by lia.
  rewrite <- drop_drop, take_take_drop. f_equal. lia.
Qed.

Lemma slice_beyond {A} (l : list A) a e :
  Z.of_nat (length l) <= a -> slice l a e = [].
Proof.
  intros Hlen. unfold slice. rewrite drop_ge by lia. apply take_nil.
Qed.

Lemma slice_all {A} (l : list A) : slice l 0 (Z.of_nat (length l)) = l.
Proof.
  unfold slice. cbn [Z.to_nat drop]. rewrite Z.sub_0_r, Nat2Z.id.
  apply firstn_all.
Qed.

Lemma interactions_batchEffects offset totalBatches js :
  interactions (flat_map (batchEffects Math_round_scaled offset totalBatches) js) = [].
Proof. induction js as [|j js IH]; [reflexivity|exact IH]. Qed.

Lemma processBatches_rows columns all batchSize totalBatches offset n :
  0 < batchSize ->
  forall i csvRows st,
    0 <= i ->
    processBatches Number_toString_double formatDateToBRT inherited Math_round_scaled
                   columns all batchSize totalBatches offset n i csvRows st
    = (inr (csvRows
            ++ map (csvRow Number_toString_double formatDateToBRT inherited columns)
                   (slice all (i * batchSize)
                          (Z.min ((i + Z.of_nat n) * batchSize)
                                 (Z.of_nat (length all))))),
       {| trace := trace st
                   ++ flat_map (batchEffects Math_round_scaled offset totalBatches)
                               (seqZ i (Z.of_nat n));
          allEvents := allEvents st;
          usedPagination := usedPagination st |}).
Proof.
  intros Hb. induction n as [|n IH]; intros i csvRows st Hi.
  - cbn [processBatches ret Z.of_nat]. rewrite Z.add_0_r.
    assert (Hnil : slice all (i * batchSize)
                         (Z.min (i * batchSize) (Z.of_nat (length all))) = []).
    { unfold slice. replace (Z.to_nat _) with 0%nat by lia. reflexivity. }
    rewrite Hnil. destruct st. cbn. now rewrite !app_nil_r.
  - cbn [processBatches]. unfold bind at 1. unfold emit at 1.
    unfold bind at 1. unfold emit at 1. cbn [trace allEvents usedPagination].
    rewrite IH by lia. cbn [trace allEvents usedPagination].
    rewrite (seqZ_cons i (Z.of_nat (S n))) by lia.
    replace (Z.pred (Z.of_nat (S n))) with (Z.of_nat n) by lia.
    replace (Z.succ i) with (i + 1) by lia.
    cbn [flat_map batchEffects]. rewrite <- !app_assoc. cbn [app].
    f_equal. f_equal. rewrite <- map_app. f_equal. f_equal.
    replace (i + 1 + Z.of_nat n) with (i + Z.of_nat (S n)) by lia.
    set (len := Z.of_nat (length all)).
    destruct (Z_le_gt_dec (i * batchSize + batchSize) len) as [Hle|Hgt].
    + rewrite (Z.min_l (i * batchSize + batchSize)) by lia.
      replace ((i + 1) * batchSize) with (i * batchSize + batchSize) by lia.
      apply slice_app; nia.
    + rewrite (Z.min_r (i * batchSize + batchSize)) by lia.
      rewrite (Z.min_r ((i + Z.of_nat (S n)) * batchSize)) by nia.
      rewrite (slice_beyond all ((i + 1) * batchSize)) by (fold len; nia).
      apply app_nil_r.
Qed.

Lemma batchSizeFor_pos n : 0 < batchSizeFor n.
Proof. unfold batchSizeFor. repeat destruct (_ <? _); lia. Qed.

Lemma materialize_downloads columns st :
  exists st',
    materialize Number_toString_double formatDateToBRT inherited Math_round_scaled columns st
    = (inr tt, st') /\
    allEvents st' = allEvents st /\
    interactions (trace st')
    = interactions (trace st)
      ++ [Download AllEventsFile
            (csvContent Number_toString_double formatDateToBRT inherited columns (allEvents st))].
Proof.
  unfold materialize. unfold bind at 1. unfold getAllEvents at 1.
  unfold bind at 1. unfold getUsedPagination at 1.
  set (len := Z.of_nat (length (allEvents st))).
  pose proof (batchSizeFor_pos len) as Hb.
  destruct (Math_ceil_div_ceiling len (batchSizeFor len) Hb) as (c & Hc & Hceil).
  rewrite Hc. unfold bind at 1.
  assert (H0c : 0 <= c) by (unfold is_ceiling in Hceil; subst len; nia).
  rewrite processBatches_rows by lia.
  unfold emit. cbn [trace allEvents usedPagination].
  eexists. split; [reflexivity|]. cbn [trace allEvents]. split; [reflexivity|].
  rewrite !interactions_app, interactions_batchEffects, app_nil_r.
  cbn [interactions List.filter]. do 3 f_equal.
  rewrite Z.mul_0_l, Z.add_0_l, Z2Nat.id by lia.
  rewrite Z.min_r by (unfold is_ceiling in Hceil; fold len; lia).
  rewrite slice_all. reflexivity.
Qed.

Lemma exportAssembled_interactions columns totalRegistros st :
  exists st',
    exportAssembled user Number_toString_double formatDateToBRT inherited Math_round_scaled
                    columns totalRegistros st = (inr tt, st') /\
    allEvents st' = allEvents st /\
    interactions (trace st')
    = interactions (trace st)
      ++ assembledInteractions
           (csvContent Number_toString_double formatDateToBRT inherited columns (allEvents st))
           (allEvents st) totalRegistros
           (user (trace st)
                 (MsgConfirmPartial (Z.of_nat (length (allEvents st))) totalRegistros)).
Proof.
  unfold exportAssembled, assembledInteractions.
  unfold bind at 1. unfold getAllEvents at 1.
  destruct (length (allEvents st) =? 0)%nat.
  - unfold bind, emit. cbn [trace allEvents usedPagination].
    eexists. split; [reflexivity|]. cbn [trace allEvents]. split; [reflexivity|].
    rewrite <- !app_assoc, interactions_app. reflexivity.
  - destruct (Z.of_nat (length (allEvents st)) <? totalRegistros).
    + unfold bind at 1. unfold confirm at 1.
      destruct (user (trace st) _) eqn:Hanswer.
      * match goal with
        | |- context [materialize _ _ _ _ _ ?s] =>
            destruct (materialize_downloads columns s) as (st' & Hm & Hall & Hint)
        end.
        exists st'. split; [exact Hm|]. split; [exact Hall|].
        rewrite Hint. cbn [trace allEvents].
        rewrite interactions_app, <- app_assoc. reflexivity.
      * unfold bind, emit. cbn [trace allEvents usedPagination].
        eexists. split; [reflexivity|]. cbn [trace allEvents].
        split; [reflexivity|].
        rewrite <- !app_assoc, interactions_app. reflexivity.
    + unfold bind at 1. unfold ret at 1.
      destruct (materialize_downloads columns st) as (st' & Hm & Hall & Hint).
      exists st'. split; [exact Hm|]. split; [exact Hall|]. exact Hint.
Qed.

(** *** Retrieving shows no dialog *)

Lemma quiet_ret {A} (a : A) : quiet (ret a).
Proof. intros st. reflexivity. Qed.

Lemma quiet_bind {A B} (m : M A) (k : A -> M B) :
  quiet m -> (forall a, quiet (k a)) -> quiet (bind m k).
Proof.
  intros Hm Hk st. unfold bind. specialize (Hm st).
  destruct (m st) as [[e|a] st1]; cbn [snd] in *; [exact Hm|].
  rewrite (Hk a st1). exact Hm.
Qed.

Lemma quiet_try_catch {A} (m : M A) (h : exn -> M A) :
  quiet m -> (forall e, quiet (h e)) -> quiet (try_catch m h).
Proof.
  intros Hm Hh st. unfold try_catch. specialize (Hm st).
  destruct (m st) as [[e|a] st1]; cbn [snd] in *; [|exact Hm].
  rewrite (Hh e st1). exact Hm.
Qed.

Lemma quiet_progress p : quiet (emit (SetExportProgress p)).
Proof.
  intros st. cbn. rewrite interactions_app. cbn. apply app_nil_r.
Qed.

Lemma quiet_sleep ms : quiet (emit (Sleep ms)).
Proof.
  intros st. cbn. rewrite interactions_app. cbn. apply app_nil_r.
Qed.

Lemma quiet_setAllEvents l : quiet (setAllEvents l).
Proof. intros st. reflexivity. Qed.

Lemma quiet_setUsedPagination b : quiet (setUsedPagination b).
Proof. intros st. reflexivity. Qed.

Lemma quiet_getAllEvents : quiet getAllEvents.
Proof. intros st. reflexivity. Qed.

Lemma quiet_fetchEventList query notOk : quiet (fetchEventList server query notOk).
Proof.
  intros st. unfold fetchEventList.
  destruct (server (trace st) query); cbn [snd trace];
    rewrite interactions_app; cbn; apply app_nil_r.
Qed.

Create HintDb quiet.

#[local] Hint Resolve quiet_ret quiet_progress quiet_sleep quiet_setAllEvents
  quiet_setUsedPagination quiet_getAllEvents quiet_fetchEventList : quiet.

Ltac quiet_step := apply quiet_bind; [solve [auto with quiet]|intros].

Lemma quiet_fetchPages baseParams totalPages n :
  forall page, quiet (fetchPages server Math_round_scaled baseParams totalPages n page).
Proof.
  induction n as [|n IH]; intros page; [apply quiet_ret|].
  cbn [fetchPages]. do 5 quiet_step. apply IH.
Qed.

Lemma quiet_fetchAllPages baseParams totalRegistros :
  quiet (fetchAllPages server Math_round_scaled baseParams totalRegistros).
Proof. unfold fetchAllPages. quiet_step. apply quiet_fetchPages. Qed.

Lemma quiet_fetchPhase baseParams totalRegistros :
  quiet (fetchPhase server Math_round_scaled baseParams totalRegistros).
Proof.
  unfold fetchPhase. apply quiet_try_catch.
  - unfold directAttempt. do 2 quiet_step.
    destruct (_ <? _); [|apply quiet_ret].
    do 2 quiet_step. apply quiet_fetchAllPages.
  - intros e. unfold paginatedFallback. quiet_step. apply quiet_fetchAllPages.
Qed.

(** *** The strategy switch *)

Lemma fetchPhase_after_short_answer baseParams totalRegistros st data :
  server (trace st) (URLSearchParams.set baseParams (js "export") (js "true"))
  = OkJson data ->
  Z.of_nat (length (receivedEvents data)) < totalRegistros ->
  fetchPhase server Math_round_scaled baseParams totalRegistros st
  = try_catch (fetchAllPages server Math_round_scaled baseParams totalRegistros)
              (fun _ => paginatedFallback server Math_round_scaled
                                          baseParams totalRegistros)
              (afterDirectRequest
                 st (URLSearchParams.set baseParams (js "export") (js "true"))).
Proof.
  intros Hserver Hshort.
  unfold fetchPhase, try_catch, directAttempt.
  unfold bind at 1. unfold fetchEventList at 1. rewrite Hserver.
  unfold bind at 1. unfold setAllEvents at 1.
  fold (receivedEvents data).
  destruct (Z.ltb_spec (Z.of_nat (length (receivedEvents data))) totalRegistros);
    [|lia].
  unfold bind at 1. unfold setUsedPagination at 1.
  unfold bind at 1. unfold setAllEvents at 1.
  reflexivity.
Qed.

Lemma fetchPhase_after_failed_request baseParams totalRegistros st :
  directRequestFailed
    (server (trace st) (URLSearchParams.set baseParams (js "export") (js "true"))) ->
  allEvents st = [] ->
  fetchPhase server Math_round_scaled baseParams totalRegistros st
  = fetchAllPages server Math_round_scaled baseParams totalRegistros
                  (afterDirectRequest
                     st (URLSearchParams.set baseParams (js "export") (js "true"))).
Proof.
  intros Hfailed Hempty.
  unfold fetchPhase, try_catch, directAttempt.
  unfold bind at 1. unfold fetchEventList at 1.
  unfold afterDirectRequest. rewrite <- Hempty.
  destruct (server (trace st) _); [| | |contradiction];
    unfold paginatedFallback, bind at 1, setUsedPagination at 1; reflexivity.
Qed.

Lemma exportBody_phases columns searchParams totalRegistros st :
  exportBody server user Number_toString_double formatDateToBRT inherited Math_round_scaled
             columns searchParams totalRegistros st
  = bind (fetchPhase server Math_round_scaled
                     (URLSearchParams.delete
                        (URLSearchParams.delete searchParams (js "page"))
                        (js "limit"))
                     totalRegistros)
         (fun _ => exportAssembled user Number_toString_double formatDateToBRT inherited
                                   Math_round_scaled columns totalRegistros)
         (exportStarted st).
Proof.
  unfold exportBody, exportStarted.
  unfold bind at 1. unfold emit at 1.
  unfold bind at 1. unfold emit at 1.
  unfold bind at 1. unfold setAllEvents at 1.
  unfold bind at 1. unfold setUsedPagination at 1.
  cbn [trace allEvents usedPagination]. now rewrite <- app_assoc.
Qed.

(** What the user is shown over a whole run of [handleExportAll]. *)
Lemma handleExportAll_interactions columns searchParams meta :
  let totalRegistros := match meta with Some m => total m | None => 0 end in
  let go := user [] (MsgConfirmExport totalRegistros) in
  exists r st',
    handleExportAll server user Number_toString_double formatDateToBRT inherited
                    Math_round_scaled columns searchParams meta initialState
    = (r, st') /\
    (go = false ->
     interactions (trace st') = [Confirm (MsgConfirmExport totalRegistros) false]) /\
    (go = true ->
     (exists e, interactions (trace st')
                = [Confirm (MsgConfirmExport totalRegistros) true;
                   Alert (MsgExportError e)]) \/
     (exists answer,
         interactions (trace st')
         = Confirm (MsgConfirmExport totalRegistros) true
           :: assembledInteractions
                (csvContent Number_toString_double formatDateToBRT inherited columns
                            (allEvents st'))
                (allEvents st') totalRegistros answer)).
Proof.
  intros totalRegistros go. unfold handleExportAll. fold totalRegistros.
  unfold bind at 1. unfold confirm at 1. cbn [trace initialState]. fold go.
  destruct go.
  - cbn [negb]. unfold try_finally, try_catch.
    rewrite exportBody_phases. unfold bind at 1.
    set (st2 := exportStarted _).
    pose proof (quiet_fetchPhase
                  (URLSearchParams.delete
                     (URLSearchParams.delete searchParams (js "page")) (js "limit"))
                  totalRegistros st2) as Hquiet.
    destruct (fetchPhase _ _ _ _ st2) as [[e|[]] st3]; cbn [snd] in Hquiet.
    + unfold bind, emit. cbn [trace allEvents usedPagination].
      do 2 eexists. split; [reflexivity|]. split; [discriminate|].
      intros _. left. exists e. cbn [trace].
      rewrite <- !app_assoc, interactions_app, Hquiet. reflexivity.
    + destruct (exportAssembled_interactions columns totalRegistros st3)
        as (st4 & Hrun & Hall & Hint).
      rewrite Hrun. unfold bind, emit. cbn [trace allEvents usedPagination].
      do 2 eexists. split; [reflexivity|]. split; [discriminate|].
      intros _. right. eexists. cbn [trace allEvents].
      rewrite <- !app_assoc, interactions_app, Hint, Hquiet, Hall.
      cbn. rewrite app_nil_r. reflexivity.
  - cbn [negb]. do 2 eexists. split; [reflexivity|].
    split; [reflexivity|discriminate].
Qed.


End ExportJobProperties.


Lemma pagedBackend_pages tr p :
  1 <= p <= 3 ->
  pagedBackend tr (ExportJob.pageParams fromFilter p)
  = EventsPage.OkJson {| ExportJob.events := Some (pageOfStore p) |}.
Proof.
  intros Hp. assert (p = 1 \/ p = 2 \/ p = 3) as [-> | [-> | ->]] by lia;
    vm_compute; reflexivity.
Qed.

Lemma C8_paginated_export_of_2500_witness :
  exists st',
    ExportJob.fetchAllPages pagedBackend roundHalfUp fromFilter 2500
      ExportJob.initialState = (inr tt, st') /\
    fetches (ExportJob.trace st')
    = fetches (ExportJob.trace ExportJob.initialState)
      ++ [ExportJob.pageParams fromFilter 1; ExportJob.pageParams fromFilter 2;
          ExportJob.pageParams fromFilter 3] /\
    (forall p,
        URLSearchParams.get (ExportJob.pageParams fromFilter p) (JS.js "page")
        = Some (JS.Number_toString p) /\
        URLSearchParams.get (ExportJob.pageParams fromFilter p) (JS.js "limit")
        = Some (JS.js "1000")) /\
    ExportJob.allEvents st'
    = ExportJob.allEvents ExportJob.initialState
      ++ pageOfStore 1 ++ pageOfStore 2 ++ pageOfStore 3 /\
    (ExportJob.allEvents ExportJob.initialState = [] ->
     length (pageOfStore 1) = 1000%nat -> length (pageOfStore 2) = 1000%nat ->
     length (pageOfStore 3) = 500%nat ->
     length (ExportJob.allEvents st') = 2500%nat).
Proof.
  apply (C8_paginated_export_of_2500 pagedBackend roundHalfUp fromFilter
           pageOfStore ExportJob.initialState).
  intros tr p Hp. now apply pagedBackend_pages.
Defined.

Example store_is_rebuilt_in_order :
  pageOfStore 1 ++ pageOfStore 2 ++ pageOfStore 3 = store2500 /\
  length (pageOfStore 1) = 1000%nat /\ length (pageOfStore 2) = 1000%nat /\
  length (pageOfStore 3) = 500%nat.
Proof. repeat split; vm_compute; reflexivity. Qed.



(** A page that fails during the first page-by-page pass is retried by the
    error handler without clearing what was accumulated: the rows of the
    pages already retrieved appear twice. *)
Example page_failure_keeps_partial_rows :
  let '(r, st) :=
    ExportJob.fetchPhase flakyBackend roundHalfUp [] 2500
                         (exportStarted ExportJob.initialState) in
  r = inr tt /\
  length (fetches (ExportJob.trace st)) = 6%nat /\
  ExportJob.allEvents st = pageOfStore 1 ++ store2500.
Proof. vm_compute. repeat split; reflexivity. Qed.


(** ** CSV rendering *)

Section CsvProperties.
Import JS EventsTable ExportJob.

Variable Number_toString_double : JSON.decimal -> jsstr.
Variable formatDateToBRT : jsstr -> jsstr.
Variable inherited : JSON.value -> jsstr -> list jsstr -> option jsstr.

Local Abbreviation cellValue := (EventsTable.cellValue Number_toString_double formatDateToBRT inherited).
Local Abbreviation csvRow := (EventsTable.csvRow Number_toString_double formatDateToBRT inherited).
Local Abbreviation csvContent := (EventsTable.csvContent Number_toString_double formatDateToBRT inherited).

(** A quoted value followed by the end of the row or by a comma reads back
    as the value. *)
Lemma readQuoted_replace_quotes value :
  forall acc rest,
    match rest with [] => True | c :: _ => c <> 34%N end ->
    readQuoted (replace_quotes value ++ 34%N :: rest) acc
    = Some (rev acc ++ value, rest).
Proof.
  induction value as [|c value IH]; intros acc rest Hrest.
  - cbn. destruct rest as [|c' rest]; [now rewrite app_nil_r|].
    destruct (N.eqb_spec c' 34); [contradiction|]. now rewrite app_nil_r.
  - cbn [replace_quotes]. destruct (N.eqb_spec c 34) as [->|Hc].
    + cbn [app readQuoted N.eqb Pos.eqb]. rewrite IH by assumption.
      cbn [rev]. now rewrite <- app_assoc.
    + cbn [app readQuoted]. destruct (N.eqb_spec c 34); [contradiction|].
      rewrite IH by assumption. cbn [rev]. now rewrite <- app_assoc.
Qed.

Lemma readField_csvField value rest :
  match rest with [] => True | c :: _ => c <> 34%N end ->
  readField (csvField value ++ rest) = Some (value, rest).
Proof.
  intros Hrest. unfold readField, csvField. cbn [app N.eqb Pos.eqb].
  rewrite <- app_assoc. cbn [app]. now rewrite readQuoted_replace_quotes.
Qed.

Lemma join_cons sep p parts :
  parts <> [] -> join sep (p :: parts) = p ++ sep ++ join sep parts.
Proof. destruct parts; [congruence|reflexivity]. Qed.

Lemma readRow_quoted_fields values :
  values <> [] ->
  readRow (length values) (join (js ",") (map csvField values)) = Some values.
Proof.
  change (js ",") with [44%N].
  induction values as [|v values IH]; [congruence|]. intros _.
  destruct values as [|v' values].
  - cbn [map join length readRow].
    rewrite <- (app_nil_r (csvField v)), readField_csvField by exact I.
    reflexivity.
  - set (vs := v' :: values) in *.
    assert (Hvs : vs <> []) by discriminate. specialize (IH Hvs).
    change (map csvField (v :: vs)) with (csvField v :: map csvField vs).
    rewrite join_cons by (subst vs; discriminate).
    change (length (v :: vs)) with (S (length vs)).
    cbn [readRow app]. rewrite readField_csvField by discriminate.
    cbn [N.eqb Pos.eqb]. now rewrite IH.
Qed.


End CsvProperties.



Example tricky_row_text :
  EventsTable.csvRow integerToString sameText objectBuiltins [phoneColumn; nameColumn] trickyEvent
  = JS.jsq "'-','say ''hi'', then" ++ [10%N] ++ JS.jsq "leave'".
Proof. vm_compute. reflexivity. Qed.

(** A column keyed by a name that every object inherits is not missing:
    it shows what the inherited member gives, also below a nested
    record. *)
Example inherited_member_is_not_a_dash :
  EventsTable.csvRow integerToString sameText objectBuiltins
    [ {| EventsTable.accessorKey := JS.js "constructor";
         EventsTable.header := JS.js "C" |};
      {| EventsTable.accessorKey := JS.js "user.toString";
         EventsTable.header := JS.js "T" |};
      {| EventsTable.accessorKey := JS.js "user.phone";
         EventsTable.header := JS.js "Telefone" |} ]
    trickyEvent
  = JS.jsq "'function () { [native code] }','function () { [native code] }','-'".
Proof. vm_compute. reflexivity. Qed.

(* ===================================================================== *)
(** * Further properties of the handlers                                 *)
(* ===================================================================== *)

(** ** The profession handler: failure and parameter handling *)

Section ProfessionHandlerCoverage.
Import Strconv Fiber ProfessionHandler.

Context {Profession : Type}.
Variable professionUseCase :
  Z -> Z -> string -> list Profession * Z * option string.
Variable getKeys : gmap string string -> list string.

(** X1: the answer is a 500 carrying the use case's error exactly when
    the use case fails, whatever the paging parameters; the handler
    panics exactly when the use case succeeds and the limit that reached
    it is zero. *)
Theorem GetProfessions_failure_modes args :
  let call := useCaseCall args in
  let answer :=
    professionUseCase (uc_page call) (uc_limit call) (uc_orderBy call) in
  (forall err,
      GetProfessions professionUseCase getKeys args = StatusInternalServerError err
      <-> snd answer = Some err) /\
  (GetProfessions professionUseCase getKeys args = RuntimePanic
   <-> snd answer = None /\ uc_limit call = 0).
Proof.
  intros call answer. subst call answer. unfold GetProfessions.
  change (fst (Atoi (Query args "limit" "10"))) with (uc_limit (useCaseCall args)).
  destruct (professionUseCase _ _ _) as [[rows tot] [e|]]; cbn [snd].
  - split.
    + intros err. split; congruence.
    + split; [discriminate|intros [? _]; discriminate].
  - unfold lastPage, Int64.div.
    destruct (Z.eqb_spec (uc_limit (useCaseCall args)) 0) as [E|E].
    + split; [intros err; split; discriminate|]. split; [now split|reflexivity].
    + split; [intros err; split; discriminate|].
      split; [discriminate|intros [_ ?]; contradiction].
Qed.

Lemma digits_not_signed s acc n :
  digits acc s = Some n ->
  match s with
  | String "-" _ | String "+" _ => False
  | _ => True
  end.
Proof.
  destruct s as [|c s]; [trivial|]. cbn [digits].
  destruct c as [[] [] [] [] [] [] [] []]; try exact (fun _ => I);
    cbv [digit_of]; cbn; discriminate.
Qed.

Lemma Atoi_digits s n :
  s <> EmptyString -> digits 0 s = Some n -> n <= Int64.max_int ->
  Atoi s = (n, None) /\ Atoi (String "-" s) = (- n, None).
Proof.
  intros Hs Hd Hn. pose proof (digits_not_signed _ _ _ Hd) as Hsign.
  assert (Hmax : Int64.max_int = 2 ^ 63 - 1) by reflexivity.
  split.
  - unfold Atoi.
    assert (Hbody :
      match s with
      | String "-" r => (true, r)
      | String "+" r => (false, r)
      | _ => (false, s)
      end = (false, s)).
    { destruct s as [|c s']; [congruence|].
      destruct c as [[] [] [] [] [] [] [] []]; try reflexivity; contradiction. }
    rewrite Hbody. destruct s; [congruence|]. rewrite Hd. cbn [negb andb].
    destruct (Z.ltb_spec Int64.max_int n); [lia|reflexivity].
  - unfold Atoi. destruct s; [congruence|]. rewrite Hd. cbn [negb andb].
    destruct (Z.ltb_spec (2 ^ 63) n); [lia|reflexivity].
Qed.

(** X2: a [page] or [limit] written as a decimal number, with or without
    a minus sign, reaches the use case as that number: zero and negative
    values are not clamped or replaced by the defaults. *)
Theorem numeric_page_and_limit_pass_unclamped args key s n (negative : bool) :
  Peek args key = Some (if negative then String "-" s else s) ->
  s <> EmptyString -> digits 0 s = Some n -> n <= Int64.max_int ->
  (key = "page"%string ->
   uc_page (useCaseCall args) = if negative then - n else n) /\
  (key = "limit"%string ->
   uc_limit (useCaseCall args) = if negative then - n else n).
Proof.
  intros Hpeek Hs Hd Hn.
  destruct (Atoi_digits s n Hs Hd Hn) as [Hpos Hneg].
  assert (Hne : (if negative then String "-" s else s) <> EmptyString)
    by (destruct negative; [discriminate|assumption]).
  split; intros ->; cbn [useCaseCall uc_page uc_limit];
    rewrite (Query_present _ _ _ _ Hpeek Hne);
    destruct negative; [rewrite Hneg|rewrite Hpos|rewrite Hneg|rewrite Hpos];
    reflexivity.
Qed.

End ProfessionHandlerCoverage.

Lemma numeric_page_and_limit_pass_unclamped_witness :
  ProfessionHandler.uc_page
    (ProfessionHandler.useCaseCall [("page", "-3"); ("limit", "0")]%string) = - 3.
Proof.
  refine (proj1 (numeric_page_and_limit_pass_unclamped
                   [("page", "-3"); ("limit", "0")]%string "page" "3" 3 true
                   _ _ _ _) _);
    first [reflexivity | discriminate | (vm_compute; discriminate)].
Defined.

(** ** The pagination component: its buttons *)

Section PaginationCoverage.
Import JS PaginationComponent PaginationButtons.

(** X3: with a non-negative count and a positive page size, the next and
    last buttons are enabled exactly when items remain beyond the current
    page. *)
Theorem next_enabled_iff_items_remain pageIndex totalCount perPage :
  0 <= totalCount -> 1 <= perPage -> 1 <= pageIndex ->
  (nextDisabled pageIndex totalCount perPage = false
   <-> pageIndex * perPage < totalCount).
Proof.
  intros Ht Hp Hi.
  destruct (Pagination_pages_max_ceiling totalCount perPage Ht Hp) as (c & Hc & Hpages).
  unfold nextDisabled. rewrite Hpages. unfold is_ceiling in Hc.
  rewrite Z.leb_gt. split; intros H; nia.
Qed.

(** X4: on a page within [1 .. pages], every enabled button leads to
    another page that is again within [1 .. pages]. *)
Theorem enabled_buttons_stay_in_range b pageIndex totalCount perPage p :
  0 <= totalCount -> 1 <= perPage ->
  pages totalCount perPage = Int p ->
  1 <= pageIndex <= p ->
  disabled b pageIndex totalCount perPage = false ->
  exists q, onClick b pageIndex totalCount perPage = Int q /\
            1 <= q <= p /\ q <> pageIndex.
Proof.
  intros Ht Hp Hpages Hi Hen.
  destruct b; cbn [disabled onClick] in *;
    unfold nextDisabled in *; rewrite ?Hpages in *.
  - apply Z.eqb_neq in Hen. exists 1. repeat split; lia.
  - apply Z.eqb_neq in Hen. exists (pageIndex - 1). repeat split; lia.
  - apply Z.leb_gt in Hen. exists (pageIndex + 1). repeat split; lia.
  - apply Z.leb_gt in Hen. exists p. repeat split; lia.
Qed.

End PaginationCoverage.

Lemma next_enabled_iff_items_remain_witness :
  PaginationComponent.nextDisabled 2 25 10 = false <-> 2 * 10 < 25.
Proof. apply (next_enabled_iff_items_remain 2 25 10); lia. Defined.

Lemma enabled_buttons_stay_in_range_witness :
  exists q,
    PaginationButtons.onClick PaginationButtons.LastPage 1 25 10 = JS.Int q /\
    1 <= q <= 3 /\ q <> 1.
Proof.
  apply (enabled_buttons_stay_in_range PaginationButtons.LastPage 1 25 10 3);
    first [lia | reflexivity].
Defined.

(** ** The events page: what the request carries *)

Section EventsRequestCoverage.
Import JS EventsPage.

Variable JSON_stringify : JSON.value -> jsstr.

Lemma tryFilterEntry_keeps_key searchParams params key value k :
  k <> key -> k <> js "filter_condition" ->
  match tryFilterEntry JSON_stringify searchParams params key value with
  | inl _ => True
  | inr params' => URLSearchParams.get params' k = URLSearchParams.get params k
  end.
Proof.
  intros Hk Hc. unfold tryFilterEntry.
  destruct (JSON.parse value) as [[| | | |[|f items]|]|]; try reflexivity; try exact I.
  destruct (some (f :: items)) as [e|[]]; try reflexivity; try exact I.
  destruct (URLSearchParams.get searchParams (js "filter_condition")) as [[|c cond]|];
    try (now apply get_set_ne).
  destruct (jsstr_eqb key (js "advanced_filters")).
  - rewrite get_set_ne by assumption. now apply get_set_ne.
  - now apply get_set_ne.
Qed.

(** An entry only changes the parameter of its own name, and
    [filter_condition]. *)
Lemma copyEntry_keeps_key searchParams params key value k :
  k <> key -> k <> js "filter_condition" ->
  URLSearchParams.get (copyEntry JSON_stringify searchParams params (key, value)) k
  = URLSearchParams.get params k.
Proof.
  intros Hk Hc. unfold copyEntry.
  destruct (existsb _ basicKeys); [reflexivity|].
  destruct (existsb _ filterKeys).
  - destruct (_ || _).
    + pose proof (tryFilterEntry_keeps_key searchParams params key value k Hk Hc) as H.
      destruct (tryFilterEntry _ _ _ _ _); [reflexivity|exact H].
    + destruct (_ && _); [now apply get_set_ne|reflexivity].
  - now apply get_set_ne.
Qed.

Lemma copyEntry_basic searchParams params key value k :
  existsb (jsstr_eqb k) basicKeys = true ->
  URLSearchParams.get (copyEntry JSON_stringify searchParams params (key, value)) k
  = URLSearchParams.get params k.
Proof.
  intros Hb. destruct (existsb (jsstr_eqb key) basicKeys) eqn:Hkey.
  - now rewrite copyEntry_basic_key.
  - apply copyEntry_keeps_key.
    + intros ->. congruence.
    + intros ->. vm_compute in Hb. discriminate.
Qed.

Lemma copy_basic searchParams entries params k :
  existsb (jsstr_eqb k) basicKeys = true ->
  URLSearchParams.get
    (fold_left (copyEntry JSON_stringify searchParams) entries params) k
  = URLSearchParams.get params k.
Proof.
  intros Hb. revert params.
  induction entries as [|[key v] entries IH]; intros params; [reflexivity|].
  cbn [fold_left]. rewrite IH. now apply copyEntry_basic.
Qed.

(** X5: the paging and sorting of a request are those of the component's
    state; the [page], [limit], [sortBy] and [sortDirection] of the URL
    are never copied over them. *)
Theorem request_paging_comes_from_the_state
        clearing page limit sortConfig searchParams :
  let params :=
    requestParams JSON_stringify clearing page limit sortConfig searchParams in
  URLSearchParams.get params (js "page") = Some (Number_toString page) /\
  URLSearchParams.get params (js "limit") = Some (Number_toString limit) /\
  URLSearchParams.get params (js "sortBy")
  = (if truthy_str (column sortConfig) then column sortConfig else None) /\
  URLSearchParams.get params (js "sortDirection")
  = (if truthy_str (column sortConfig) && truthy_str (direction sortConfig)
     then direction sortConfig else None).
Proof.
  intros params.
  assert (Hbasic : forall k, existsb (jsstr_eqb k) basicKeys = true ->
            URLSearchParams.get params k
            = URLSearchParams.get (basicParams page limit sortConfig) k).
  { intros k Hk. subst params. unfold requestParams.
    destruct clearing; [reflexivity|].
    destruct (negb (hasFilters searchParams)); [reflexivity|].
    now apply copy_basic. }
  rewrite !Hbasic by reflexivity. clear Hbasic params.
  unfold basicParams.
  destruct (column sortConfig) as [[|c col]|];
    [| destruct (direction sortConfig) as [[|d dir]|] |];
    cbn [truthy_str andb];
    repeat split;
    repeat first [ rewrite get_set_eq | rewrite get_set_ne by (vm_compute; discriminate) ];
    reflexivity.
Qed.

Lemma trim_nil_of_nil v : v = [] -> trim v = [].
Proof. now intros ->. Qed.

Lemma copy_last_value searchParams (keep : jsstr -> bool) entries params k :
  k <> js "filter_condition" ->
  (forall params' v,
      URLSearchParams.get (copyEntry JSON_stringify searchParams params' (k, v)) k
      = if keep v then Some v else URLSearchParams.get params' k) ->
  URLSearchParams.get
    (fold_left (copyEntry JSON_stringify searchParams) entries params) k
  = match lastValue keep entries k with
    | Some v => Some v
    | None => URLSearchParams.get params k
    end.
Proof.
  intros Hc Hown. revert params.
  induction entries as [|[key v] entries IH]; intros params; [reflexivity|].
  cbn [fold_left lastValue]. rewrite IH.
  destruct (lastValue keep entries k); [reflexivity|].
  destruct (jsstr_eqb key k) eqn:E.
  - apply jsstr_eqb_eq in E. subst key. rewrite Hown. cbn [andb].
    destruct (keep v); reflexivity.
  - apply jsstr_eqb_neq in E. cbn [andb].
    apply copyEntry_keeps_key; congruence.
Qed.

Lemma lastValue_absent keep entries k :
  Forall (fun kv => fst kv <> k) entries -> lastValue keep entries k = None.
Proof.
  induction 1 as [|[key v] entries Hk _ IH]; [reflexivity|].
  cbn [lastValue]. rewrite IH. cbn [fst] in Hk.
  apply jsstr_eqb_neq in Hk. now rewrite Hk.
Qed.

(** X6: a plain filter ([from], [to], [time_from], [time_to],
    [profession_id], [funnel_id]) is sent with the last value the URL
    gives it that is not blank, and is left out when the URL has no such
    value; while filters are being cleared it is left out altogether. *)
Theorem plain_filter_is_last_non_blank_value
        clearing page limit sortConfig searchParams k :
  In k simpleFilterKeys ->
  URLSearchParams.get
    (requestParams JSON_stringify clearing page limit sortConfig searchParams) k
  = if clearing then None else lastValue notBlank searchParams k.
Proof.
  intros Hin.
  assert (Hnb : existsb (jsstr_eqb k) basicKeys = false)
    by (cbn in Hin; decompose [or] Hin; subst; try reflexivity; contradiction).
  assert (Hf : existsb (jsstr_eqb k) filterKeys = true)
    by (cbn in Hin; decompose [or] Hin; subst; try reflexivity; contradiction).
  assert (Harr : jsstr_eqb k (js "advanced_filters") || jsstr_eqb k (js "filters") = false)
    by (cbn in Hin; decompose [or] Hin; subst; try reflexivity; contradiction).
  assert (Hc : k <> js "filter_condition")
    by (cbn in Hin; decompose [or] Hin; subst; try discriminate; contradiction).
  unfold requestParams. destruct clearing; [now apply basicParams_keys|].
  destruct (hasFilters searchParams) eqn:Hhas; cbn [negb].
  - unfold URLSearchParams.entries.
    rewrite (copy_last_value searchParams notBlank).
    + rewrite basicParams_keys by assumption.
      now destruct (lastValue notBlank searchParams k).
    + assumption.
    + intros params' v. unfold copyEntry. rewrite Hnb, Hf, Harr. unfold notBlank.
      destruct (jsstr_eqb v []) eqn:Ev.
      * apply jsstr_eqb_eq in Ev. subst v. reflexivity.
      * cbn [negb andb]. destruct (negb _); [apply get_set_eq|reflexivity].
  - rewrite basicParams_keys by assumption. symmetry. apply lastValue_absent.
    apply hasFilters_false_iff in Hhas.
    eapply List.Forall_impl; [|exact Hhas]. intros [key v] Hkey Heq.
    cbn [fst] in Hkey, Heq. subst key. congruence.
Qed.

(** X7: a parameter that is neither paging, sorting nor a known filter
    is forwarded with its last value, but only when the URL holds at
    least one filter parameter; otherwise, and while filters are being
    cleared, it is dropped. *)
Theorem unknown_parameter_needs_a_filter_to_pass
        clearing page limit sortConfig searchParams k :
  ~ In k (basicKeys ++ filterKeys) ->
  URLSearchParams.get
    (requestParams JSON_stringify clearing page limit sortConfig searchParams) k
  = if clearing || negb (hasFilters searchParams) then None
    else lastValue anyValue searchParams k.
Proof.
  intros Hout.
  assert (Hnb : existsb (jsstr_eqb k) basicKeys = false).
  { destruct (existsb _ basicKeys) eqn:E; [|reflexivity].
    apply existsb_jsstr_In in E. exfalso. apply Hout, in_or_app. now left. }
  assert (Hf : existsb (jsstr_eqb k) filterKeys = false).
  { destruct (existsb _ filterKeys) eqn:E; [|reflexivity].
    apply existsb_jsstr_In in E. exfalso. apply Hout, in_or_app. now right. }
  assert (Hc : k <> js "filter_condition").
  { intros ->. vm_compute in Hf. discriminate. }
  unfold requestParams. destruct clearing; [now apply basicParams_keys|].
  cbn [orb]. destruct (negb (hasFilters searchParams)); [now apply basicParams_keys|].
  unfold URLSearchParams.entries.
  rewrite (copy_last_value searchParams anyValue).
  - rewrite basicParams_keys by assumption.
    now destruct (lastValue anyValue searchParams k).
  - assumption.
  - intros params' v. unfold copyEntry. rewrite Hnb, Hf. apply get_set_eq.
Qed.

End EventsRequestCoverage.

Lemma plain_filter_is_last_non_blank_value_witness :
  URLSearchParams.get
    (EventsPage.requestParams (fun _ => []) false 1 10 noSort
       [ (JS.js "funnel_id", JS.js "7"); (JS.js "funnel_id", JS.js " ") ])
    (JS.js "funnel_id")
  = Some (JS.js "7").
Proof.
  apply (plain_filter_is_last_non_blank_value (fun _ => []) false 1 10 noSort
           [ (JS.js "funnel_id", JS.js "7"); (JS.js "funnel_id", JS.js " ") ]
           (JS.js "funnel_id")).
  vm_compute. tauto.
Defined.

Lemma unknown_parameter_needs_a_filter_to_pass_witness :
  URLSearchParams.get
    (EventsPage.requestParams (fun _ => []) false 1 10 noSort
       [ (JS.js "tab", JS.js "a") ])
    (JS.js "tab")
  = None.
Proof.
  apply (unknown_parameter_needs_a_filter_to_pass (fun _ => []) false 1 10 noSort
           [ (JS.js "tab", JS.js "a") ] (JS.js "tab")).
  vm_compute. intuition discriminate.
Defined.

(** ** [parseInt] reads back what [toString] writes *)

Section ParseIntProperties.
Import JS JSNumber.

Lemma digit_value_digit_char d :
  0 <= d <= 9 -> digit_value (digit_char d) = Some d.
Proof.
  intros Hd. unfold digit_char.
  assert (d = 0 \/ d = 1 \/ d = 2 \/ d = 3 \/ d = 4 \/ d = 5 \/ d = 6 \/ d = 7
          \/ d = 8 \/ d = 9) as H by lia.
  decompose [or] H; subst; reflexivity.
Qed.

Lemma digit_char_not_space_or_sign d :
  0 <= d <= 9 ->
  isWhiteSpace (digit_char d) = false /\ (digit_char d =? 45)%N = false /\
  (digit_char d =? 43)%N = false.
Proof.
  intros Hd. unfold digit_char.
  assert (d = 0 \/ d = 1 \/ d = 2 \/ d = 3 \/ d = 4 \/ d = 5 \/ d = 6 \/ d = 7
          \/ d = 8 \/ d = 9) as H by lia.
  decompose [or] H; subst; repeat split; reflexivity.
Qed.

(** The digits [nat_digits] writes in front of [acc], read back. *)
Lemma nat_digits_read fuel : forall n acc,
  0 <= n < 10 ^ Z.of_nat (S fuel) ->
  exists d ds,
    nat_digits (S fuel) n acc = digit_char d :: ds ++ acc /\ 0 <= d <= 9 /\
    forall rest a k,
      radix_digits 10 (digit_char d :: ds ++ rest) a k
      = radix_digits 10 rest (a * 10 ^ Z.of_nat (S (length ds)) + n)
                     (k + S (length ds))%nat.
Proof.
  assert (Hsmall : forall fuel n acc, 0 <= n < 10 ->
    exists d ds,
      nat_digits (S fuel) n acc = digit_char d :: ds ++ acc /\ 0 <= d <= 9 /\
      forall rest a k,
        radix_digits 10 (digit_char d :: ds ++ rest) a k
        = radix_digits 10 rest (a * 10 ^ Z.of_nat (S (length ds)) + n)
                       (k + S (length ds))%nat).
  { intros f n acc Hn. cbn [nat_digits].
    destruct (Z.ltb_spec n 10) as [_|]; [|lia].
    exists n, []. rewrite Z.mod_small by lia.
    split; [reflexivity|]. split; [lia|].
    intros rest a k. cbn [app radix_digits length].
    rewrite digit_value_digit_char by lia.
    destruct (Z.ltb_spec n 10); [|lia].
    change (10 ^ Z.of_nat 1) with 10.
    replace (k + 1)%nat with (S k) by lia. reflexivity. }
  induction fuel as [|fuel IH]; intros n acc Hn.
  - apply Hsmall. exact Hn.
  - destruct (Z.ltb_spec n 10) as [Hlt|Hge]; [apply Hsmall; lia|].
    cbn [nat_digits]. destruct (Z.ltb_spec n 10) as [|_]; [lia|].
    assert (Hmod : 0 <= n mod 10 <= 9) by (pose proof (Z.mod_pos_bound n 10); lia).
    assert (Hq : 0 <= n / 10 < 10 ^ Z.of_nat (S fuel)).
    { split; [apply Z.div_pos; lia|].
      apply Z.div_lt_upper_bound; [lia|].
      rewrite (Nat2Z.inj_succ (S fuel)), Z.pow_succ_r in Hn by lia. lia. }
    destruct (IH (n / 10) (digit_char (n mod 10) :: acc) Hq)
      as (d & ds & Heq & Hd & Hread).
    cbn [nat_digits] in Heq.
    exists d, (ds ++ [digit_char (n mod 10)]).
    split; [rewrite Heq, <- app_assoc; reflexivity|]. split; [assumption|].
    intros rest a k. rewrite <- app_assoc. cbn [app].
    rewrite Hread. cbn [radix_digits].
    rewrite digit_value_digit_char by assumption.
    destruct (Z.ltb_spec (n mod 10) 10); [|lia].
    rewrite length_app. cbn [length].
    replace (S (k + S (length ds)))%nat with (k + S (length ds + 1))%nat by lia.
    f_equal.
    replace (Z.of_nat (S (length ds + 1))) with (Z.succ (Z.of_nat (S (length ds))))
      by lia.
    rewrite Z.pow_succ_r by lia.
    pose proof (Z.div_mod n 10 ltac:(lia)). lia.
Qed.

Lemma log2_fuel n :
  0 <= n -> 0 <= n < 10 ^ Z.of_nat (S (Z.to_nat (Z.log2 n))).
Proof.
  intros Hn. split; [assumption|].
  rewrite Nat2Z.inj_succ, Z2Nat.id by apply Z.log2_nonneg.
  destruct (Z.eq_dec n 0) as [->|Hne]; [reflexivity|].
  pose proof (Z.log2_spec n ltac:(lia)) as [_ Hlt].
  eapply Z.lt_le_trans; [exact Hlt|].
  apply Z.pow_le_mono_l. pose proof (Z.log2_nonneg n). lia.
Qed.

Lemma roundToDouble_exact n : Z.abs n <= 2 ^ 53 -> roundToDouble n = Int n.
Proof.
  intros Hn. unfold roundToDouble.
  destruct (Z.leb_spec (Z.abs n) (2 ^ 53)); [reflexivity|lia].
Qed.

(** [parseInt] reads the digits of [n] back as the [Number] for [n]. *)
Lemma parseInt_Number_toString n :
  parseInt (Number_toString n) 10 = roundToDouble n.
Proof.
  unfold Number_toString. destruct (Z.ltb_spec n 0) as [Hneg|Hpos].
  - destruct (nat_digits_read _ (- n) [] (log2_fuel (- n) ltac:(lia)))
      as (d & ds & -> & Hd & Hread).
    specialize (Hread [] 0 0%nat). rewrite app_nil_r in *.
    unfold parseInt. cbn [trimStart]. change (isWhiteSpace 45) with false.
    cbv iota. change (45 =? 45)%N with true. cbv iota.
    change (negb (10 =? 0) && ((10 <? 2) || (36 <? 10))) with false.
    change ((10 =? 0) || (10 =? 16)) with false. cbv iota.
    change (10 =? 0) with false. cbv iota.
    rewrite Hread. cbn [radix_digits Nat.add]. f_equal. lia.
  - destruct (nat_digits_read _ n [] (log2_fuel n Hpos))
      as (d & ds & -> & Hd & Hread).
    destruct (digit_char_not_space_or_sign d Hd) as (Hws & Hm & Hp).
    specialize (Hread [] 0 0%nat). rewrite app_nil_r in *.
    unfold parseInt. cbn [trimStart]. rewrite Hws, Hm, Hp.
    change (negb (10 =? 0) && ((10 <? 2) || (36 <? 10))) with false.
    change ((10 =? 0) || (10 =? 16)) with false. cbv iota.
    change (10 =? 0) with false. cbv iota.
    rewrite Hread. cbn [radix_digits Nat.add]. f_equal. lia.
Qed.

(** [String(n)] is never empty. *)
Lemma Number_toString_not_nil n : Number_toString n <> [].
Proof.
  unfold Number_toString. destruct (Z.ltb_spec n 0) as [Hneg|Hpos]; [discriminate|].
  destruct (nat_digits_read _ n [] (log2_fuel n Hpos)) as (d & ds & -> & _).
  discriminate.
Qed.

End ParseIntProperties.

(** ** The events page: navigation *)

Section EventsNavigationCoverage.
Import JS EventsPage EventsPageHandlers.

Lemma get_delete_eq p name : URLSearchParams.get (URLSearchParams.delete p name) name = None.
Proof.
  induction p as [|[k v] p IH]; [reflexivity|]. cbn [URLSearchParams.delete List.filter fst].
  destruct (jsstr_eqb k name) eqn:E; cbn [negb]; [exact IH|].
  cbn [URLSearchParams.get]. rewrite E. exact IH.
Qed.


(** X9: changing the page size goes back to the first page: the URL
    pushed holds the new limit and [page=1], the page read back from it
    is 1, and every other parameter, filters included, is kept. *)
Theorem per_page_change_returns_to_first_page searchParams newLimit :
  exists change,
    handlePerPageChange false searchParams newLimit = Some change /\
    pp_limit change = newLimit /\ pp_currentPage change = 1 /\
    URLSearchParams.get (pp_pushed change) (js "limit") = Some (Number_toString newLimit) /\
    pageOfUrl (pp_pushed change) = Int 1 /\
    (forall k, k <> js "page" -> k <> js "limit" ->
               URLSearchParams.get (pp_pushed change) k
               = URLSearchParams.get searchParams k) /\
    hasFilters (pp_pushed change) = hasFilters searchParams.
Proof.
  unfold handlePerPageChange. eexists. split; [reflexivity|]. cbn [pp_limit pp_currentPage pp_pushed].
  split; [reflexivity|]. split; [reflexivity|].
  assert (Hother : forall k, k <> js "page" -> k <> js "limit" ->
            URLSearchParams.get
              (URLSearchParams.set
                 (URLSearchParams.set searchParams (js "limit") (Number_toString newLimit))
                 (js "page") (js "1")) k
            = URLSearchParams.get searchParams k).
  { intros k Hp Hl. rewrite get_set_ne by assumption. now apply get_set_ne. }
  split; [|split; [|split; [exact Hother|]]].
  - rewrite get_set_ne by (vm_compute; discriminate). apply get_set_eq.
  - unfold pageOfUrl. rewrite get_set_eq. reflexivity.
  - assert (Hhas : forall p q k,
              URLSearchParams.get p k = URLSearchParams.get q k ->
              URLSearchParams.has p k = URLSearchParams.has q k).
    { intros p q k Hget.
      destruct (URLSearchParams.has q k) eqn:Hq.
      - destruct (URLSearchParams.has p k) eqn:Hp; [reflexivity|].
        apply has_false_get in Hp. rewrite Hp in Hget. symmetry in Hget.
        apply has_false_get in Hget. congruence.
      - apply has_false_get in Hq. rewrite Hq in Hget. now apply has_false_get. }
    unfold hasFilters.
    repeat (f_equal; [|apply Hhas, Hother; vm_compute; discriminate]).
    apply Hhas, Hother; vm_compute; discriminate.
Qed.

Variable JSON_stringify : JSON.value -> jsstr.

(** X10: the URL written when the filters are cleared keeps only the
    page (set to 1), the sorting and the limit, whatever the URL held
    before: the request built from it carries paging and sorting alone,
    also without the session flag, and no filter is parsed out of it. *)
Theorem cleared_url_requests_no_filter page limit sortConfig searchParams :
  URLSearchParams.get (cleanParams searchParams) (js "page") = Some (js "1") /\
  hasFilters (cleanParams searchParams) = false /\
  requestParams JSON_stringify false page limit sortConfig (cleanParams searchParams)
  = basicParams page limit sortConfig /\
  parseSearchParams (cleanParams searchParams) = [].
Proof.
  unfold cleanParams.
  destruct (URLSearchParams.get searchParams (js "sortBy")) as [[|c1 v1]|];
    destruct (URLSearchParams.get searchParams (js "sortDirection")) as [[|c2 v2]|];
    destruct (URLSearchParams.get searchParams (js "limit")) as [[|c3 v3]|];
    (split; [reflexivity|]);
    (split; [reflexivity|]);
    (split; [unfold requestParams;
             match goal with
             | |- context [hasFilters ?p] =>
                 change (hasFilters p) with false
             end; reflexivity
            | reflexivity]).
Qed.

End EventsNavigationCoverage.


(** Above 2^53 the page read back is the nearest double, not the digits
    pushed. *)
Example page_beyond_doubles_is_rounded :
  JSNumber.parseInt (JS.js "9007199254740993") 10 = JS.Int 9007199254740992 /\
  JSNumber.parseInt (JS.js "9007199254740995") 10 = JS.Int 9007199254740996.
Proof. split; vm_compute; reflexivity. Qed.

(** ** Sorting by a click on a column header *)

Section SortingCoverage.
Import JS EventsPage.

Lemma headerClick_state sortConfig searchParams columnId :
  fst (headerClick sortConfig searchParams columnId)
  = {| column := Some columnId;
       direction :=
         if bool_decide (column sortConfig = Some columnId) then
           if bool_decide (direction sortConfig = Some (js "asc"))
           then Some (js "desc")
           else if bool_decide (direction sortConfig = Some (js "desc"))
                then Some (js "asc")
                else URLSearchParams.get searchParams (js "sortDirection")
         else Some (js "asc") |}.
Proof.
  assert (Hflip : forall d : string,
            URLSearchParams.get
              (URLSearchParams.set
                 (URLSearchParams.set searchParams (js "sortDirection") (js d))
                 (js "sortBy") columnId) (js "sortDirection") = Some (js d)).
  { intros d. rewrite get_set_ne by (vm_compute; discriminate). apply get_set_eq. }
  unfold headerClick, EventsTableHandlers.handleSort, EventsPageHandlers.handleSort.
  repeat case_bool_decide; cbn [fst]; rewrite ?Hflip; reflexivity.
Qed.

(** X11: a click on a header makes its column the sort column.  A
    column that was not the sort column starts ascending; the sort column
    flips between [asc] and [desc], so that two clicks on it restore the
    direction.  When the sort column has no direction in the state, the
    click hands on whatever [sortDirection] the URL holds. *)
Theorem header_click_sorts_and_toggles sortConfig searchParams columnId :
  let sortConfig' := fst (headerClick sortConfig searchParams columnId) in
  column sortConfig' = Some columnId /\
  (column sortConfig <> Some columnId -> direction sortConfig' = Some (js "asc")) /\
  (column sortConfig = Some columnId ->
   (direction sortConfig = Some (js "asc") -> direction sortConfig' = Some (js "desc")) /\
   (direction sortConfig = Some (js "desc") -> direction sortConfig' = Some (js "asc")) /\
   (direction sortConfig <> Some (js "asc") -> direction sortConfig <> Some (js "desc") ->
    direction sortConfig' = URLSearchParams.get searchParams (js "sortDirection")) /\
   (direction sortConfig = Some (js "asc") \/ direction sortConfig = Some (js "desc") ->
    fst (headerClick sortConfig' searchParams columnId) = sortConfig)).
Proof.
  intros sortConfig'. subst sortConfig'.
  rewrite !headerClick_state.
  destruct sortConfig as [col dir]. cbn [column direction].
  assert (Hne : Some (js "desc") <> Some (js "asc")) by (vm_compute; discriminate).
  split; [reflexivity|]. split.
  - intros Hcol. now rewrite bool_decide_eq_false_2.
  - intros ->. rewrite !(bool_decide_eq_true_2 (Some columnId = Some columnId)) by reflexivity.
    repeat split.
    + intros ->. now rewrite bool_decide_eq_true_2.
    + intros ->. repeat case_bool_decide; congruence.
    + intros Ha Hd. repeat case_bool_decide; congruence.
    + intros [-> | ->]; repeat case_bool_decide; congruence.
Qed.

End SortingCoverage.

(** ** The number of rows that fit *)

(** X12: both row calculations give at least five rows, and beyond five
    the largest number of 46-pixel rows that fits the height left after
    the fixed parts (288 pixels of the window on the page, 104 pixels of
    the container in the table): one more row would not fit. *)
Theorem visible_rows_fit_the_height height :
  let pageRows := EventsPageHandlers.calculateVisibleRows height in
  let tableRows := EventsTableHandlers.calculateVisibleRows height in
  5 <= pageRows /\ 5 <= tableRows /\
  (5 < pageRows -> pageRows * 46 <= height - 288 < (pageRows + 1) * 46) /\
  (5 < tableRows -> tableRows * 46 <= height - 104 < (tableRows + 1) * 46) /\
  (height - 288 < 6 * 46 -> pageRows = 5) /\
  (height - 104 < 6 * 46 -> tableRows = 5).
Proof.
  unfold EventsPageHandlers.calculateVisibleRows, EventsTableHandlers.calculateVisibleRows.
  cbv zeta.
  replace (height - 70 - 80 - 50 - 40 - 48) with (height - 288) by lia.
  replace (height - 48 - 56) with (height - 104) by lia.
  pose proof (Z.div_mod (height - 288) 46 ltac:(lia)).
  pose proof (Z.mod_pos_bound (height - 288) 46 ltac:(lia)).
  pose proof (Z.div_mod (height - 104) 46 ltac:(lia)).
  pose proof (Z.mod_pos_bound (height - 104) 46 ltac:(lia)).
  repeat split; lia.
Qed.

(** ** [parseSearchParams] *)

(** X13: a legacy [filters] value that is not valid JSON hides a valid
    [advanced_filters]: no filter is parsed from the URL, although the
    same URL without the legacy parameter yields the advanced filters. *)
Theorem malformed_legacy_filters_hide_advanced_filters params c text a advanced items :
  URLSearchParams.get params (JS.js "filters") = Some (c :: text) ->
  JSON.parse (c :: text) = None ->
  URLSearchParams.get params (JS.js "advanced_filters") = Some (a :: advanced) ->
  JSON.parse (a :: advanced) = Some (JSON.Array items) ->
  EventsPage.parseSearchParams params = [] /\
  EventsPage.parseSearchParams (URLSearchParams.delete params (JS.js "filters")) = items.
Proof.
  intros Hf Hbad Ha Hgood. split.
  - unfold EventsPage.parseSearchParams. now rewrite Hf, Hbad.
  - unfold EventsPage.parseSearchParams.
    rewrite get_delete_eq. cbn [length Nat.eqb].
    rewrite get_delete_ne by (vm_compute; discriminate).
    now rewrite Ha, Hgood.
Qed.

Lemma malformed_legacy_filters_hide_advanced_filters_witness :
  EventsPage.parseSearchParams
    [ (JS.js "filters", JS.js "[{");
      (JS.js "advanced_filters", JS.jsq "[{'value':'x'}]") ] = [] /\
  EventsPage.parseSearchParams
    (URLSearchParams.delete
       [ (JS.js "filters", JS.js "[{");
         (JS.js "advanced_filters", JS.jsq "[{'value':'x'}]") ] (JS.js "filters"))
  = [ JSON.Object [ (JS.js "value", JSON.Str (JS.js "x")) ] ].
Proof.
  apply (malformed_legacy_filters_hide_advanced_filters
           [ (JS.js "filters", JS.js "[{");
             (JS.js "advanced_filters", JS.jsq "[{'value':'x'}]") ]
           91%N (JS.js "{") 91%N (JS.jsq "{'value':'x'}]"));
    vm_compute; reflexivity.
Defined.

(** ** The date filter *)

Section DateFilterCoverage.
Import JS JSDate DateFilter DateFilterHandlers.

Variable LocalTZA : Z -> bool -> Z.

Lemma setHours_valid t h m s ms :
  Z.abs (UTC LocalTZA (Day (LocalTime LocalTZA t) * msPerDay + MakeTime h m s ms))
  <= 8640000000000000 ->
  setHours LocalTZA (Valid t) h m s ms
  = Valid (UTC LocalTZA (Day (LocalTime LocalTZA t) * msPerDay + MakeTime h m s ms)).
Proof.
  intros Hb. unfold setHours, TimeClip, MakeDate.
  destruct (Z.leb_spec
              (Z.abs (UTC LocalTZA (Day (LocalTime LocalTZA t) * msPerDay
                                    + MakeTime h m s ms))) 8640000000000000);
    [reflexivity|lia].
Qed.

Lemma local_day_split t :
  LocalTime LocalTZA t
  = Day (LocalTime LocalTZA t) * msPerDay + TimeWithinDay (LocalTime LocalTZA t) /\
  0 <= TimeWithinDay (LocalTime LocalTZA t) < msPerDay.
Proof.
  unfold Day, TimeWithinDay, msPerDay.
  pose proof (Z.div_mod (LocalTime LocalTZA t) 86400000 ltac:(lia)).
  pose proof (Z.mod_pos_bound (LocalTime LocalTZA t) 86400000 ltac:(lia)).
  lia.
Qed.

(** X14: selecting a complete range without custom times reports the
    range from 00:00:00.000 of the host-local day of the start to
    23:59:59.999 of the host-local day of the end, each read with the
    offset the zone rules give for that local time.  Its length is the
    whole days from the first to the last, less the change of the offset
    between the two bounds (an hour less or more across a daylight-saving
    change).  When the offset is the same at the two selected instants
    and at the two bounds, the range covers whole days, contains both
    selected instants, and is not empty when the end is not before the
    start. *)
Theorem date_select_covers_local_days st tFrom tTo :
  let dayFrom := Day (LocalTime LocalTZA tFrom) in
  let dayTo := Day (LocalTime LocalTZA tTo) in
  let startOfDay := dayFrom * msPerDay in
  let endOfDay := dayTo * msPerDay + 86399999 in
  showCustomTime st = false ->
  Z.abs (UTC LocalTZA startOfDay) <= 8640000000000000 ->
  Z.abs (UTC LocalTZA endOfDay) <= 8640000000000000 ->
  exists f t,
    snd (handleDateSelect LocalTZA st
           (Some {| from := Some (Valid tFrom); to := Some (Valid tTo) |}))
    = Some {| ch_from := Some (Valid f); ch_to := Some (Valid t);
              ch_fromTime := None; ch_toTime := None |} /\
    f + LocalTZA startOfDay false = startOfDay /\
    t + LocalTZA endOfDay false = endOfDay /\
    t - f + 1 = (dayTo - dayFrom + 1) * msPerDay
                - (LocalTZA endOfDay false - LocalTZA startOfDay false) /\
    (forall offset,
        LocalTZA tFrom true = offset -> LocalTZA startOfDay false = offset ->
        LocalTZA tTo true = offset -> LocalTZA endOfDay false = offset ->
        f <= tFrom < f + msPerDay /\
        t - msPerDay < tTo <= t /\
        t - f + 1 = (dayTo - dayFrom + 1) * msPerDay /\
        (tFrom <= tTo -> f < t)).
Proof.
  intros dayFrom dayTo startOfDay endOfDay Hoff Hf Ht.
  exists (UTC LocalTZA startOfDay), (UTC LocalTZA endOfDay).
  split.
  { unfold handleDateSelect. rewrite Hoff. cbn [snd]. do 2 f_equal.
    - rewrite setHours_valid; change (MakeTime 0 0 0 0) with 0; rewrite Z.add_0_r;
        fold dayFrom; fold startOfDay; [reflexivity|assumption].
    - rewrite setHours_valid; change (MakeTime 23 59 59 999) with 86399999;
        fold dayTo; fold endOfDay; [reflexivity|assumption]. }
  unfold UTC. split; [lia|]. split; [lia|]. split.
  { subst startOfDay endOfDay. unfold msPerDay. lia. }
  intros offset HuF HlF HuT HlT.
  destruct (local_day_split tFrom) as [HsF HbF]. fold dayFrom in HsF.
  destruct (local_day_split tTo) as [HsT HbT]. fold dayTo in HsT.
  unfold LocalTime in HsF, HsT, HbF, HbT. rewrite HuF in HsF, HbF. rewrite HuT in HsT, HbT.
  assert (Hmono : tFrom <= tTo -> dayFrom <= dayTo).
  { intros Hle. subst dayFrom dayTo. unfold Day, LocalTime, msPerDay.
    rewrite HuF, HuT. apply Z.div_le_mono; lia. }
  rewrite HlF, HlT. subst startOfDay endOfDay. unfold msPerDay in *.
  repeat split; lia.
Qed.

Lemma timeOptions_split :
  forallb (fun i =>
             bool_decide (splitTime (nth i timeOptions [])
                          = Some (Z.of_nat i / 4, Z.of_nat i mod 4 * 15)))
          (seq 0 96) = true.
Proof. vm_compute. reflexivity. Qed.

Lemma timeOptions_nth i :
  (i < 96)%nat ->
  splitTime (nth i timeOptions []) = Some (Z.of_nat i / 4, Z.of_nat i mod 4 * 15).
Proof.
  intros Hi. pose proof timeOptions_split as H.
  rewrite forallb_forall in H.
  assert (Hin : In i (seq 0 96)) by (apply in_seq; lia).
  specialize (H i Hin). now apply bool_decide_eq_true in H.
Qed.

Lemma quarter_of_day k :
  (k < 96)%nat ->
  MakeTime (Z.of_nat k / 4) (Z.of_nat k mod 4 * 15) 0 0 = Z.of_nat k * 900000 /\
  MakeTime (Z.of_nat k / 4) (Z.of_nat k mod 4 * 15) 59 999
  = Z.of_nat k * 900000 + 59999.
Proof.
  intros Hk. unfold MakeTime, msPerHour, msPerMinute, msPerSecond.
  pose proof (Z.div_mod (Z.of_nat k) 4 ltac:(lia)). lia.
Qed.

(** X15: the selector offers 96 times of day, a quarter of an hour
    apart, and each one reads back as the hour and minute it shows.  With
    custom times on and the [i]-th and [j]-th option as the times,
    selecting a complete range reports the range from the local time [i]
    quarters past midnight of the local day of the start to the last
    millisecond of the minute [j] quarters past midnight of the local day
    of the end, each read with the offset the zone rules give for it.
    When that offset is the one in force at local midnight of the same
    day, the bound lies that many quarters after the midnight. *)
Theorem custom_times_offset_the_local_day st tFrom tTo i j :
  let midnightFrom := Day (LocalTime LocalTZA tFrom) * msPerDay in
  let midnightTo := Day (LocalTime LocalTZA tTo) * msPerDay in
  let startLocal := midnightFrom + Z.of_nat i * 900000 in
  let endLocal := midnightTo + Z.of_nat j * 900000 + 59999 in
  (i < 96)%nat -> (j < 96)%nat ->
  showCustomTime st = true ->
  fromTime st = nth i timeOptions [] ->
  toTime st = nth j timeOptions [] ->
  Z.abs (UTC LocalTZA startLocal) <= 8640000000000000 ->
  Z.abs (UTC LocalTZA endLocal) <= 8640000000000000 ->
  length timeOptions = 96%nat /\
  splitTime (fromTime st) = Some (Z.of_nat i / 4, Z.of_nat i mod 4 * 15) /\
  snd (handleDateSelect LocalTZA st
         (Some {| from := Some (Valid tFrom); to := Some (Valid tTo) |}))
  = Some {| ch_from := Some (Valid (UTC LocalTZA startLocal));
            ch_to := Some (Valid (UTC LocalTZA endLocal));
            ch_fromTime := Some (fromTime st);
            ch_toTime := Some (toTime st) |} /\
  (LocalTZA startLocal false = LocalTZA midnightFrom false ->
   UTC LocalTZA startLocal = UTC LocalTZA midnightFrom + Z.of_nat i * 900000) /\
  (LocalTZA endLocal false = LocalTZA midnightTo false ->
   UTC LocalTZA endLocal = UTC LocalTZA midnightTo + Z.of_nat j * 900000 + 59999).
Proof.
  intros midnightFrom midnightTo startLocal endLocal Hi Hj Hcustom HfromTime HtoTime Hf Ht.
  split; [reflexivity|].
  split; [rewrite HfromTime; now apply timeOptions_nth|].
  destruct (quarter_of_day i Hi) as [Hi0 _]. destruct (quarter_of_day j Hj) as [_ Hj1].
  split.
  { unfold handleDateSelect, setHoursOpt. rewrite Hcustom. cbn [snd].
    rewrite HfromTime, HtoTime, (timeOptions_nth i Hi), (timeOptions_nth j Hj).
    rewrite !setHours_valid; rewrite ?Hi0, ?Hj1;
      fold midnightFrom; fold midnightTo;
      rewrite ?Z.add_assoc; fold startLocal; fold endLocal; try assumption.
    reflexivity. }
  unfold UTC. subst startLocal endLocal. split; intros ->; lia.
Qed.

(** X16: selecting a complete range, and switching custom times on or
    off over a complete range, report exactly what [updateFilters]
    computes for the resulting state.  A selection that has only a start
    is reported by [handleDateSelect] without an end, where
    [updateFilters] reports the end of the start's day. *)
Theorem handlers_agree_with_updateFilters st f t :
  let complete := Some {| from := Some f; to := Some t |} in
  let startOnly := Some {| from := Some f; to := None |} in
  snd (handleDateSelect LocalTZA st complete)
  = Some (updateFilters LocalTZA complete (showCustomTime st) (fromTime st) (toTime st)) /\
  (selectedDates st = complete ->
   snd (handleCustomTimeToggle LocalTZA st)
   = Some (updateFilters LocalTZA complete (negb (showCustomTime st))
                         (fromTime st) (toTime st))) /\
  (exists ch, snd (handleDateSelect LocalTZA st startOnly) = Some ch /\
              ch_from ch = Some (setHours LocalTZA f 0 0 0 0) /\
              ch_to ch = None) /\
  (showCustomTime st = false ->
   ch_to (updateFilters LocalTZA startOnly false (fromTime st) (toTime st))
   = Some (setHours LocalTZA f 23 59 59 999)).
Proof.
  intros complete startOnly. repeat split.
  - cbn. destruct (showCustomTime st); reflexivity.
  - intros Hsel. unfold handleCustomTimeToggle. rewrite Hsel.
    cbn. destruct (showCustomTime st); reflexivity.
  - eexists. cbn. repeat split.
Qed.

(** X17: picking the [i]-th option as start time over a complete range
    moves the start to that time of its local day and keeps the new time
    in the state, but hands on the end as it was selected, without the
    23:59:59.999 that a date selection gives it: the range reported ends
    earlier by what was left of the local day of the end (corrected by
    the change of the offset between the two instants, if any).  Picking
    an end time likewise hands on the start as it was selected. *)
Theorem time_change_moves_one_bound_only st tFrom tTo i :
  let value := nth i timeOptions [] in
  let hour := Z.of_nat i / 4 in
  let minute := Z.of_nat i mod 4 * 15 in
  let endLocal := Day (LocalTime LocalTZA tTo) * msPerDay + 86399999 in
  (i < 96)%nat ->
  selectedDates st = Some {| from := Some (Valid tFrom); to := Some (Valid tTo) |} ->
  Z.abs (UTC LocalTZA endLocal) <= 8640000000000000 ->
  (exists ch endOfDay,
      snd (handleTimeChange LocalTZA st true value) = Some ch /\
      ch_from ch = Some (setHours LocalTZA (Valid tFrom) hour minute 0 0) /\
      ch_fromTime ch = Some value /\
      fromTime (fst (handleTimeChange LocalTZA st true value)) = value /\
      ch_to ch = Some (Valid tTo) /\
      setHours LocalTZA (Valid tTo) 23 59 59 999 = Valid endOfDay /\
      endOfDay - tTo
      = 86399999 - TimeWithinDay (LocalTime LocalTZA tTo)
        + (LocalTZA tTo true - LocalTZA endLocal false)) /\
  (exists ch,
      snd (handleTimeChange LocalTZA st false value) = Some ch /\
      ch_to ch = Some (setHours LocalTZA (Valid tTo) hour minute 59 999) /\
      ch_toTime ch = Some value /\
      toTime (fst (handleTimeChange LocalTZA st false value)) = value /\
      ch_from ch = Some (Valid tFrom)).
Proof.
  intros value hour minute endLocal Hi Hsel Hb.
  unfold handleTimeChange, setHoursOpt. rewrite Hsel.
  subst value. rewrite (timeOptions_nth i Hi). fold hour. fold minute. split.
  - exists {| ch_from := Some (setHours LocalTZA (Valid tFrom) hour minute 0 0);
              ch_to := Some (Valid tTo);
              ch_fromTime := Some (nth i timeOptions []);
              ch_toTime := if showCustomTime st then Some (toTime st) else None |},
           (UTC LocalTZA endLocal).
    cbn [fst snd ch_from ch_to ch_fromTime ch_toTime fromTime].
    repeat (split; [reflexivity|]). split.
    + rewrite setHours_valid; change (MakeTime 23 59 59 999) with 86399999;
        fold endLocal; [reflexivity|assumption].
    + destruct (local_day_split tTo) as [Hs _].
      unfold UTC. subst endLocal. unfold LocalTime in Hs at 1. lia.
  - eexists. cbn. repeat split.
Qed.

End DateFilterCoverage.

Lemma date_select_covers_local_days_witness :
  exists f t,
    snd (DateFilterHandlers.handleDateSelect newYorkHost
           {| DateFilterHandlers.selectedDates := None;
              DateFilterHandlers.fromTime := JS.js "00:00";
              DateFilterHandlers.toTime := JS.js "23:59";
              DateFilterHandlers.showCustomTime := false |}
           (Some {| DateFilter.from := Some (JSDate.Valid 1710072000000);
                    DateFilter.to := Some (JSDate.Valid 1710072000000) |}))
    = Some {| DateFilter.ch_from := Some (JSDate.Valid f);
              DateFilter.ch_to := Some (JSDate.Valid t);
              DateFilter.ch_fromTime := None; DateFilter.ch_toTime := None |} /\
    t - f + 1 = 23 * JSDate.msPerHour.
Proof.
  destruct (date_select_covers_local_days newYorkHost
              {| DateFilterHandlers.selectedDates := None;
                 DateFilterHandlers.fromTime := JS.js "00:00";
                 DateFilterHandlers.toTime := JS.js "23:59";
                 DateFilterHandlers.showCustomTime := false |}
              1710072000000 1710072000000 eq_refl
              ltac:(vm_compute; discriminate) ltac:(vm_compute; discriminate))
    as (f & t & Hch & _ & _ & Hlen & _).
  exists f, t. split; [exact Hch|]. rewrite Hlen. vm_compute. reflexivity.
Defined.

(** On a host that keeps one offset the same day has its 24 hours. *)
Example whole_day_on_a_fixed_offset_host :
  snd (DateFilterHandlers.handleDateSelect saoPauloHost
         {| DateFilterHandlers.selectedDates := None;
            DateFilterHandlers.fromTime := JS.js "00:00";
            DateFilterHandlers.toTime := JS.js "23:59";
            DateFilterHandlers.showCustomTime := false |}
         (Some {| DateFilter.from := Some (JSDate.Valid 1710072000000);
                  DateFilter.to := Some (JSDate.Valid 1710072000000) |}))
  = Some {| DateFilter.ch_from := Some (JSDate.Valid 1710039600000);
            DateFilter.ch_to := Some (JSDate.Valid 1710125999999);
            DateFilter.ch_fromTime := None; DateFilter.ch_toTime := None |}.
Proof. vm_compute. reflexivity. Qed.

Lemma custom_times_offset_the_local_day_witness :
  snd (DateFilterHandlers.handleDateSelect saoPauloHost
         {| DateFilterHandlers.selectedDates := None;
            DateFilterHandlers.fromTime := nth 34 DateFilterHandlers.timeOptions [];
            DateFilterHandlers.toTime := nth 70 DateFilterHandlers.timeOptions [];
            DateFilterHandlers.showCustomTime := true |}
         (Some {| DateFilter.from := Some (JSDate.Valid 1709300000000);
                  DateFilter.to := Some (JSDate.Valid 1709500000000) |}))
  = Some {| DateFilter.ch_from := Some (JSDate.Valid 1709292600000);
            DateFilter.ch_to := Some (JSDate.Valid 1709497859999);
            DateFilter.ch_fromTime := Some (JS.js "08:30");
            DateFilter.ch_toTime := Some (JS.js "17:30") |}.
Proof.
  apply (custom_times_offset_the_local_day saoPauloHost
           {| DateFilterHandlers.selectedDates := None;
              DateFilterHandlers.fromTime := nth 34 DateFilterHandlers.timeOptions [];
              DateFilterHandlers.toTime := nth 70 DateFilterHandlers.timeOptions [];
              DateFilterHandlers.showCustomTime := true |}
           1709300000000 1709500000000 34 70);
    [lia|lia|reflexivity|reflexivity|reflexivity
    |vm_compute; discriminate|vm_compute; discriminate].
Defined.

Lemma time_change_moves_one_bound_only_witness :
  exists ch endOfDay,
    snd (DateFilterHandlers.handleTimeChange saoPauloHost
           {| DateFilterHandlers.selectedDates :=
                Some {| DateFilter.from := Some (JSDate.Valid 1709262000000);
                        DateFilter.to := Some (JSDate.Valid 1709434800000) |};
              DateFilterHandlers.fromTime := JS.js "00:00";
              DateFilterHandlers.toTime := JS.js "23:59";
              DateFilterHandlers.showCustomTime := false |}
           true (JS.js "08:30")) = Some ch /\
    DateFilter.ch_from ch = Some (JSDate.Valid 1709292600000) /\
    DateFilter.ch_to ch = Some (JSDate.Valid 1709434800000) /\
    endOfDay - 1709434800000 = 86399999.
Proof.
  destruct (proj1 (time_change_moves_one_bound_only saoPauloHost
              {| DateFilterHandlers.selectedDates :=
                   Some {| DateFilter.from := Some (JSDate.Valid 1709262000000);
                           DateFilter.to := Some (JSDate.Valid 1709434800000) |};
                 DateFilterHandlers.fromTime := JS.js "00:00";
                 DateFilterHandlers.toTime := JS.js "23:59";
                 DateFilterHandlers.showCustomTime := false |}
              1709262000000 1709434800000 34 ltac:(lia) eq_refl
              ltac:(vm_compute; discriminate)))
    as (ch & endOfDay & Hch & Hfrom & _ & _ & Hto & _ & Hshort).
  exists ch, endOfDay. split; [exact Hch|]. split; [exact Hfrom|].
  split; [exact Hto|exact Hshort].
Defined.

(** ** [URLSearchParams]: how [set] and [delete] combine *)

Section URLSearchParamsLists.
Import JS URLSearchParams.

Lemma delete_cons a b p k :
  delete ((a, b) :: p) k = if jsstr_eqb a k then delete p k else (a, b) :: delete p k.
Proof. unfold delete. cbn [List.filter fst]. now destruct (jsstr_eqb a k). Qed.

Lemma delete_delete_comm p a b : delete (delete p a) b = delete (delete p b) a.
Proof.
  induction p as [|[k v] p IH]; [reflexivity|]. rewrite !delete_cons.
  destruct (jsstr_eqb k a) eqn:Ea, (jsstr_eqb k b) eqn:Eb;
    rewrite ?delete_cons, ?Ea, ?Eb; now rewrite ?IH.
Qed.

Lemma delete_idem p a : delete (delete p a) a = delete p a.
Proof.
  induction p as [|[k v] p IH]; [reflexivity|]. rewrite !delete_cons.
  destruct (jsstr_eqb k a) eqn:Ea; rewrite ?delete_cons, ?Ea; now rewrite ?IH.
Qed.

Lemma delete_set_same p k v : delete (set p k v) k = delete p k.
Proof.
  induction p as [|[a b] p IH]; cbn [set].
  - rewrite delete_cons. now rewrite jsstr_eqb_refl.
  - rewrite (delete_cons a b). destruct (jsstr_eqb a k) eqn:E.
    + rewrite delete_cons, jsstr_eqb_refl. apply delete_idem.
    + rewrite delete_cons, E. f_equal. exact IH.
Qed.

Lemma delete_set_ne p k k' v :
  k <> k' -> delete (set p k' v) k = set (delete p k) k' v.
Proof.
  intros Hne. assert (Hk' : jsstr_eqb k' k = false) by (apply jsstr_eqb_neq; congruence).
  induction p as [|[a b] p IH]; cbn [set].
  - rewrite delete_cons, Hk'. reflexivity.
  - rewrite (delete_cons a b). destruct (jsstr_eqb a k') eqn:E'.
    + apply jsstr_eqb_eq in E'. subst a. rewrite Hk', delete_cons, Hk'. cbn [set].
      rewrite jsstr_eqb_refl. f_equal. apply delete_delete_comm.
    + rewrite delete_cons. destruct (jsstr_eqb a k) eqn:E.
      * exact IH.
      * cbn [set]. rewrite E'. f_equal. exact IH.
Qed.

Lemma set_set_same p k v v' : set (set p k v) k v' = set p k v'.
Proof.
  induction p as [|[a b] p IH]; cbn [set].
  - now rewrite jsstr_eqb_refl.
  - destruct (jsstr_eqb a k) eqn:E; cbn [set].
    + rewrite jsstr_eqb_refl. now rewrite delete_idem.
    + rewrite E. f_equal. exact IH.
Qed.

Lemma delete_id p k : Forall (fun kv => fst kv <> k) p -> delete p k = p.
Proof.
  induction 1 as [|[a b] p Ha _ IH]; [reflexivity|]. rewrite delete_cons.
  cbn [fst] in Ha. apply jsstr_eqb_neq in Ha. rewrite Ha. f_equal. exact IH.
Qed.

Lemma delete_absent p k : Forall (fun kv => fst kv <> k) (delete p k).
Proof.
  apply List.Forall_forall. intros kv Hin. apply filter_In in Hin as [_ H].
  apply negb_true_iff in H. now apply jsstr_eqb_neq in H.
Qed.

Lemma absent_delete p k k' :
  Forall (fun kv => fst kv <> k) p -> Forall (fun kv => fst kv <> k) (delete p k').
Proof.
  rewrite !List.Forall_forall. intros H kv Hin. apply filter_In in Hin as [Hin _]. auto.
Qed.

Lemma absent_set p k k' v :
  k <> k' -> Forall (fun kv => fst kv <> k) p ->
  Forall (fun kv => fst kv <> k) (set p k' v).
Proof.
  intros Hne. induction 1 as [|[a b] p Ha Hall IH]; cbn [set].
  - constructor; [cbn; congruence|constructor].
  - destruct (jsstr_eqb a k').
    + constructor; [cbn; congruence|]. now apply absent_delete.
    + constructor; assumption.
Qed.

(** [set] leaves alone a list in which the name already occurs once, with
    the value; this is kept by updates of other names. *)
Lemma set_fixed_delete p k k' v :
  k <> k' -> set p k v = p -> set (delete p k') k v = delete p k'.
Proof.
  intros Hne. assert (Hk : jsstr_eqb k k' = false) by now apply jsstr_eqb_neq.
  induction p as [|[a b] p IH]; cbn [set]; [discriminate|].
  destruct (jsstr_eqb a k) eqn:E.
  - apply jsstr_eqb_eq in E. subst a. intros H. injection H as <- Hrest.
    rewrite delete_cons, Hk. cbn [set]. rewrite jsstr_eqb_refl.
    f_equal. rewrite delete_delete_comm. now rewrite Hrest.
  - intros H. injection H as Hrest. rewrite delete_cons.
    destruct (jsstr_eqb a k'); cbn [set].
    + now apply IH.
    + rewrite E. f_equal. now apply IH.
Qed.

Lemma set_fixed_set p k k' v v' :
  k <> k' -> set p k v = p -> set (set p k' v') k v = set p k' v'.
Proof.
  intros Hne. assert (Hk : jsstr_eqb k' k = false) by (apply jsstr_eqb_neq; congruence).
  induction p as [|[a b] p IH]; cbn [set]; [discriminate|].
  destruct (jsstr_eqb a k) eqn:E.
  - apply jsstr_eqb_eq in E. subst a. intros H. injection H as <- Hrest.
    assert (Hk2 : jsstr_eqb k k' = false) by now apply jsstr_eqb_neq.
    rewrite Hk2. cbn [set]. rewrite jsstr_eqb_refl. f_equal.
    rewrite delete_set_ne by assumption. now rewrite Hrest.
  - intros H. injection H as Hrest.
    destruct (jsstr_eqb a k') eqn:E'; cbn [set].
    + apply jsstr_eqb_eq in E'. subst a. rewrite Hk. f_equal.
      now apply set_fixed_delete.
    + rewrite E. f_equal. now apply IH.
Qed.

End URLSearchParamsLists.

(** ** The surveys table: date filters in the URL *)

Section PesquisasFilterCoverage.
Import JS JSDate PesquisasTable PesquisasTableHandlers.

Variable LocalTZA : Z -> bool -> Z.

(** The four parameters of a filter. *)
Local Abbreviation keyFrom filter := (filterName filter ++ js "_from").
Local Abbreviation keyTo filter := (filterName filter ++ js "_to").
Local Abbreviation keyTimeFrom filter := (filterName filter ++ js "_time_from").
Local Abbreviation keyTimeTo filter := (filterName filter ++ js "_time_to").

Ltac distinct_keys :=
  match goal with
  | filter : FilterType |- _ => destruct filter; vm_compute; discriminate
  | |- _ => vm_compute; discriminate
  end.

(** X18: applying a date filter rewrites the parameters of its own
    category only: the page goes back to 1, the two time parameters of
    the category are removed, a bound that is not set is removed, and
    every other parameter, those of the other categories included, is
    kept as it was. *)
Theorem applyCurrentFilter_touches_only_its_category
        filter tempDateRange searchParamsObj newParams :
  applyCurrentFilter LocalTZA (Some filter) tempDateRange searchParamsObj
  = inr (Some newParams) ->
  URLSearchParams.get newParams (js "page") = Some (js "1") /\
  URLSearchParams.get newParams (keyTimeFrom filter) = None /\
  URLSearchParams.get newParams (keyTimeTo filter) = None /\
  (match tempDateRange with
   | Some {| DateFilter.ch_from := Some from |} =>
       inr (URLSearchParams.get newParams (keyFrom filter))
       = sum_map id Some (formatDateWithBrasiliaTimezone from)
   | _ => URLSearchParams.get newParams (keyFrom filter) = None
   end) /\
  (forall k,
      k <> js "page" -> k <> keyFrom filter -> k <> keyTo filter ->
      k <> keyTimeFrom filter -> k <> keyTimeTo filter ->
      URLSearchParams.get newParams k = URLSearchParams.get searchParamsObj k).
Proof.
  unfold applyCurrentFilter. intros H.
  assert (Hshape : exists p3,
    newParams
    = URLSearchParams.delete (URLSearchParams.delete p3 (keyTimeFrom filter))
                             (keyTimeTo filter) /\
    (exists p2,
        (p3 = URLSearchParams.delete p2 (keyTo filter) \/
         exists v, p3 = URLSearchParams.set p2 (keyTo filter) v) /\
        let p1 := URLSearchParams.set searchParamsObj (js "page") (js "1") in
        match tempDateRange with
        | Some {| DateFilter.ch_from := Some from |} =>
            exists v, formatDateWithBrasiliaTimezone from = inr v /\
                      p2 = URLSearchParams.set p1 (keyFrom filter) v
        | _ => p2 = URLSearchParams.delete p1 (keyFrom filter)
        end)).
  { destruct tempDateRange as [[[from|] [to|] ft tt]|];
      repeat match type of H with
             | context [formatDateWithBrasiliaTimezone ?d] =>
                 destruct (formatDateWithBrasiliaTimezone d) eqn:?; [discriminate|]
             end;
      injection H as <-; eexists; (split; [reflexivity|]); eexists; eauto 6. }
  clear H. destruct Hshape as (p3 & -> & p2 & Hp3 & Hp2). cbv zeta in Hp2.
  assert (Hget3 : forall k, k <> keyTo filter ->
            URLSearchParams.get p3 k = URLSearchParams.get p2 k).
  { intros k Hk. destruct Hp3 as [->|[v ->]];
      [now apply get_delete_ne|now apply get_set_ne]. }
  assert (Hget2 : forall k, k <> keyFrom filter -> k <> js "page" ->
            URLSearchParams.get p2 k = URLSearchParams.get searchParamsObj k).
  { intros k Hk Hpage.
    destruct tempDateRange as [[[from|] to ft tt]|];
      [destruct Hp2 as (v & _ & ->); rewrite get_set_ne by assumption
      |subst p2; rewrite get_delete_ne by assumption
      |subst p2; rewrite get_delete_ne by assumption];
      now apply get_set_ne. }
  split; [|split; [|split; [|split]]].
  - rewrite !get_delete_ne by distinct_keys. rewrite Hget3 by distinct_keys.
    destruct tempDateRange as [[[from|] to ft tt]|];
      [destruct Hp2 as (v & _ & ->); rewrite get_set_ne by distinct_keys
      |subst p2; rewrite get_delete_ne by distinct_keys
      |subst p2; rewrite get_delete_ne by distinct_keys];
      apply get_set_eq.
  - rewrite get_delete_ne by distinct_keys. apply get_delete_eq.
  - apply get_delete_eq.
  - destruct tempDateRange as [[[from|] to ft tt]|].
    + destruct Hp2 as (v & Hv & ->). rewrite Hv. cbn [sum_map]. f_equal.
      rewrite !get_delete_ne by distinct_keys. rewrite Hget3 by distinct_keys.
      apply get_set_eq.
    + subst p2. rewrite !get_delete_ne by distinct_keys.
      rewrite Hget3 by distinct_keys. apply get_delete_eq.
    + subst p2. rewrite !get_delete_ne by distinct_keys.
      rewrite Hget3 by distinct_keys. apply get_delete_eq.
  - intros k Hpage Hf Ht Htf Htt.
    rewrite !get_delete_ne by assumption. rewrite Hget3, Hget2 by assumption.
    reflexivity.
Qed.

Lemma dels_normal filter :
  let dels q :=
    URLSearchParams.delete
      (URLSearchParams.delete
         (URLSearchParams.delete (URLSearchParams.delete q (keyFrom filter))
                                 (keyTo filter))
         (keyTimeFrom filter))
      (keyTimeTo filter) in
  (forall q v, dels (URLSearchParams.set q (js "page") v)
               = URLSearchParams.set (dels q) (js "page") v) /\
  (forall q v, dels (URLSearchParams.set q (keyFrom filter) v) = dels q) /\
  (forall q v, dels (URLSearchParams.set q (keyTo filter) v) = dels q) /\
  (forall q, dels (URLSearchParams.delete q (keyFrom filter)) = dels q) /\
  (forall q, dels (URLSearchParams.delete q (keyTo filter)) = dels q) /\
  (forall q, dels (URLSearchParams.delete q (keyTimeFrom filter)) = dels q) /\
  (forall q, dels (URLSearchParams.delete q (keyTimeTo filter)) = dels q).
Proof.
  intros dels. subst dels. cbv beta.
  repeat split; intros q; intros.
  - rewrite !delete_set_ne by distinct_keys. reflexivity.
  - now rewrite delete_set_same.
  - rewrite (delete_set_ne _ (keyFrom filter)) by distinct_keys.
    now rewrite delete_set_same.
  - now rewrite delete_idem.
  - rewrite (delete_delete_comm q). now rewrite delete_idem.
  - rewrite (delete_delete_comm q), (delete_delete_comm (URLSearchParams.delete q _)).
    now rewrite delete_idem.
  - rewrite (delete_delete_comm q), (delete_delete_comm (URLSearchParams.delete q _)),
      (delete_delete_comm (URLSearchParams.delete (URLSearchParams.delete q _) _)).
    now rewrite delete_idem.
Qed.

(** X19: removing a filter undoes its application: removing it from the
    URL that [applyCurrentFilter] wrote gives the same URL as removing it
    from the URL before; and once removed, none of its four parameters is
    left, whatever the URL held. *)
Theorem removeFilter_undoes_applyCurrentFilter
        filter tempDateRange searchParamsObj newParams :
  applyCurrentFilter LocalTZA (Some filter) tempDateRange searchParamsObj
  = inr (Some newParams) ->
  removeFilter filter newParams = removeFilter filter searchParamsObj /\
  Forall (fun kv => ~ In (fst kv) [keyFrom filter; keyTo filter;
                                   keyTimeFrom filter; keyTimeTo filter])
         (removeFilter filter searchParamsObj) /\
  URLSearchParams.get (removeFilter filter searchParamsObj) (js "page") = Some (js "1").
Proof.
  intros H. destruct (dels_normal filter)
    as (Hpage & Hsf & Hst & Hdf & Hdt & Hdtf & Hdtt). cbv zeta in *.
  split; [|split].
  - unfold removeFilter, applyCurrentFilter in *.
    destruct tempDateRange as [[[from|] [to|] ft tt]|];
      repeat match type of H with
             | context [formatDateWithBrasiliaTimezone ?d] =>
                 destruct (formatDateWithBrasiliaTimezone d) eqn:?; [discriminate|]
             end;
      injection H as <-;
      rewrite Hdtt, Hdtf, ?Hst, ?Hdt, ?Hsf, ?Hdf, Hpage; apply set_set_same.
  - unfold removeFilter.
    assert (Habs : forall k p v, k <> js "page" ->
              Forall (fun kv => fst kv <> k) p ->
              Forall (fun kv => fst kv <> k) (URLSearchParams.set p (js "page") v))
      by (intros; now apply absent_set).
    pose proof (delete_absent searchParamsObj (keyFrom filter)) as H1.
    do 3 (eapply absent_delete in H1).
    pose proof (delete_absent (URLSearchParams.delete searchParamsObj (keyFrom filter))
                              (keyTo filter)) as H2.
    do 2 (eapply absent_delete in H2).
    pose proof (delete_absent
                  (URLSearchParams.delete
                     (URLSearchParams.delete searchParamsObj (keyFrom filter))
                     (keyTo filter)) (keyTimeFrom filter)) as H3.
    eapply absent_delete in H3.
    pose proof (delete_absent
                  (URLSearchParams.delete
                     (URLSearchParams.delete
                        (URLSearchParams.delete searchParamsObj (keyFrom filter))
                        (keyTo filter)) (keyTimeFrom filter)) (keyTimeTo filter)) as H4.
    apply (Habs _ _ (js "1")) in H1; [|distinct_keys].
    apply (Habs _ _ (js "1")) in H2; [|distinct_keys].
    apply (Habs _ _ (js "1")) in H3; [|distinct_keys].
    apply (Habs _ _ (js "1")) in H4; [|distinct_keys].
    rewrite List.Forall_forall in *. intros kv Hin [E|[E|[E|[E|[]]]]].
    + exact (H1 kv Hin (eq_sym E)).
    + exact (H2 kv Hin (eq_sym E)).
    + exact (H3 kv Hin (eq_sym E)).
    + exact (H4 kv Hin (eq_sym E)).
  - apply get_set_eq.
Qed.

End PesquisasFilterCoverage.

(** ** The events table: filters in the URL *)

Section FilterChangeCoverage.
Import JS EventsTableHandlers.

Lemma updateParam_get_eq p k arg :
  orUndefined (URLSearchParams.get (updateParam p k arg) k)
  = applied arg (orUndefined (URLSearchParams.get p k)).
Proof.
  destruct arg as [| |[|c v]]; cbn [updateParam applied];
    rewrite ?get_delete_eq, ?get_set_eq; reflexivity.
Qed.

Lemma updateParam_get_ne p k arg k' :
  k' <> k ->
  URLSearchParams.get (updateParam p k arg) k' = URLSearchParams.get p k'.
Proof.
  intros Hne. destruct arg as [| |[|c v]]; cbn [updateParam];
    rewrite ?get_delete_ne, ?get_set_ne by assumption; reflexivity.
Qed.

Lemma get_or_cons p k c d :
  exists c' v', LeadRoute.get_or p k (c :: d) = c' :: v'.
Proof.
  unfold LeadRoute.get_or. destruct (URLSearchParams.get p k) as [[|c' v']|]; eauto.
Qed.

(** X20: what [handleFilterChange] writes to the URL reads back through
    [getFiltersFromUrl]: a filter given a value reads as that value, a
    filter cleared or given the empty string reads as absent, a filter
    left out reads as before.  The page of the URL is kept (1 when it
    had none), and no other parameter changes. *)
Theorem filter_change_reads_back searchParams filters :
  let params := updatedParams searchParams filters in
  let before := getFiltersFromUrl searchParams in
  getFiltersFromUrl params
  = {| url_dateFrom := applied (dateFrom filters) (url_dateFrom before);
       url_dateTo := applied (dateTo filters) (url_dateTo before);
       url_timeFrom := applied (timeFrom filters) (url_timeFrom before);
       url_timeTo := applied (timeTo filters) (url_timeTo before);
       url_professionId := applied (professionId filters) (url_professionId before);
       url_funnelId := applied (funnelId filters) (url_funnelId before) |} /\
  URLSearchParams.get params (js "page")
  = Some (LeadRoute.get_or searchParams (js "page") (js "1")) /\
  (forall k, ~ In k filterChangeKeys ->
             URLSearchParams.get params k = URLSearchParams.get searchParams k).
Proof.
  intros params before. subst params before.
  unfold updatedParams, getFiltersFromUrl.
  cbn [url_dateFrom url_dateTo url_timeFrom url_timeTo url_professionId url_funnelId].
  split; [|split].
  - f_equal;
      rewrite get_set_ne by (vm_compute; discriminate);
      repeat (rewrite updateParam_get_ne by (vm_compute; discriminate));
      rewrite updateParam_get_eq;
      repeat (rewrite updateParam_get_ne by (vm_compute; discriminate));
      reflexivity.
  - apply get_set_eq.
  - intros k Hk.
    assert (Hne : forall name, In name filterChangeKeys -> k <> name)
      by (intros name Hin ->; contradiction).
    rewrite get_set_ne by (apply Hne; cbn; auto 10).
    repeat (rewrite updateParam_get_ne by (apply Hne; cbn; auto 10)). reflexivity.
Qed.

Lemma updateParam_idem p k arg :
  updateParam (updateParam p k arg) k arg = updateParam p k arg.
Proof.
  destruct arg as [| |[|c v]]; cbn [updateParam];
    first [reflexivity | apply delete_idem | apply set_set_same].
Qed.

Lemma updateParam_fixed_other p k arg k' arg' :
  k <> k' -> updateParam p k arg = p ->
  updateParam (updateParam p k' arg') k arg = updateParam p k' arg'.
Proof.
  intros Hne.
  assert (Hdel : URLSearchParams.delete p k = p ->
                 URLSearchParams.delete (updateParam p k' arg') k = updateParam p k' arg').
  { intros H. destruct arg' as [| |[|c' v']]; cbn [updateParam]; try assumption.
    - rewrite delete_delete_comm. now rewrite H.
    - rewrite delete_delete_comm. now rewrite H.
    - rewrite delete_set_ne by assumption. now rewrite H. }
  destruct arg as [| |[|c v]]; cbn [updateParam]; try assumption; [reflexivity|].
  intros H. destruct arg' as [| |[|c' v']]; cbn [updateParam]; try assumption.
  - now apply set_fixed_delete.
  - now apply set_fixed_delete.
  - now apply set_fixed_set.
Qed.

Lemma updateAll_keeps_fixed updates : forall p k arg,
  ~ In k (map fst updates) -> updateParam p k arg = p ->
  updateParam (updateAll updates p) k arg = updateAll updates p.
Proof.
  induction updates as [|[k' arg'] updates IH]; intros p k arg Hk Hfix; [assumption|].
  cbn [updateAll fold_left fst snd]. cbn [map fst In] in Hk.
  apply IH; [tauto|]. apply updateParam_fixed_other; [intros ->; tauto|assumption].
Qed.

Lemma updateAll_fixes_each updates : forall p,
  List.NoDup (map fst updates) ->
  Forall (fun u => updateParam (updateAll updates p) (fst u) (snd u)
                   = updateAll updates p) updates.
Proof.
  induction updates as [|[k arg] updates IH]; intros p Hnd; [constructor|].
  cbn [map fst] in Hnd. inversion Hnd as [|? ? Hk Hnd']; subst.
  constructor.
  - cbn [fst snd]. change (updateAll ((k, arg) :: updates) p)
      with (updateAll updates (updateParam p k arg)).
    apply updateAll_keeps_fixed; [assumption|apply updateParam_idem].
  - apply (IH (updateParam p k arg) Hnd').
Qed.

Lemma updateAll_fixed updates : forall p,
  Forall (fun u => updateParam p (fst u) (snd u) = p) updates ->
  updateAll updates p = p.
Proof.
  induction updates as [|[k arg] updates IH]; intros p Hall; [reflexivity|].
  inversion Hall as [|? ? Hk Hrest]; subst. cbn [fst snd] in Hk.
  cbn [updateAll fold_left fst snd]. rewrite Hk. now apply IH.
Qed.

Lemma updateAll_idem updates p :
  List.NoDup (map fst updates) ->
  updateAll updates (updateAll updates p) = updateAll updates p.
Proof. intros Hnd. apply updateAll_fixed. now apply updateAll_fixes_each. Qed.

Variable toString : URLSearchParams.t -> jsstr.

(** X21: applying a change of filters twice is the same as applying it
    once: on the URL a change has produced, the same change computes the
    very same URL, so [handleFilterChange] pushes nothing. *)
Theorem filter_change_is_idempotent searchParams storage filters :
  let params := updatedParams searchParams filters in
  updatedParams params filters = params /\
  snd (handleFilterChange toString params storage filters) = None.
Proof.
  intros params.
  assert (Hidem : updatedParams params filters = params).
  { subst params.
    destruct (get_or_cons searchParams (js "page") 49%N []) as (c & v & Hcur).
    change (49%N :: []) with (js "1") in Hcur.
    set (updates :=
           [ (js "from", dateFrom filters); (js "to", dateTo filters);
             (js "time_from", timeFrom filters); (js "time_to", timeTo filters);
             (js "profession_id", professionId filters);
             (js "funnel_id", funnelId filters);
             (js "page", Given (c :: v)) ]).
    assert (Hfirst : updatedParams searchParams filters = updateAll updates searchParams).
    { unfold updatedParams. rewrite Hcur. reflexivity. }
    assert (Hpage : LeadRoute.get_or (updatedParams searchParams filters)
                                     (js "page") (js "1") = c :: v).
    { unfold LeadRoute.get_or, updatedParams at 1. rewrite get_set_eq. now rewrite Hcur. }
    assert (Hsecond : updatedParams (updatedParams searchParams filters) filters
                      = updateAll updates (updatedParams searchParams filters)).
    { unfold updatedParams at 1. rewrite Hpage. reflexivity. }
    rewrite Hsecond, Hfirst. apply updateAll_idem.
    vm_compute. repeat (constructor; [cbn; intuition discriminate|]). constructor. }
  split; [exact Hidem|].
  unfold handleFilterChange. rewrite Hidem. cbn [snd].
  now rewrite jsstr_eqb_refl.
Qed.

End FilterChangeCoverage.

(** ** Row selection *)

Section EventsSelectionCoverage.
Import JS EventsTable EventsTableHandlers ExportJob.

Variable Number_toString_double : JSON.decimal -> jsstr.
Variable formatDateToBRT : jsstr -> jsstr.
Variable inherited : JSON.value -> jsstr -> list jsstr -> option jsstr.

Local Abbreviation rowKey := (EventsTableHandlers.rowKey Number_toString_double).
Local Abbreviation isSelected := (EventsTableHandlers.isSelected Number_toString_double).
Local Abbreviation toggleSelectAll :=
  (EventsTableHandlers.toggleSelectAll Number_toString_double).
Local Abbreviation allSelected := (EventsTableHandlers.allSelected Number_toString_double).
Local Abbreviation csvContent :=
  (EventsTable.csvContent Number_toString_double formatDateToBRT inherited).
Local Abbreviation handleExport :=
  (ExportJob.handleExport Number_toString_double formatDateToBRT inherited).
Local Abbreviation handleExportCurrentPage :=
  (ExportJob.handleExportCurrentPage Number_toString_double formatDateToBRT inherited).

Lemma checked_insert_true (m : Selection) key k :
  checked (<[key := true]> m) k = jsstr_eqb key k || checked m k.
Proof.
  unfold checked, Selection. rewrite lookup_insert.
  destruct (decide (key = k)) as [->|Hne].
  - now rewrite jsstr_eqb_refl.
  - apply jsstr_eqb_neq in Hne. now rewrite Hne.
Qed.

Lemma checked_assignTrue (m : Selection) key k :
  checked (assignTrue m key) k = jsstr_eqb key k || checked m k.
Proof.
  unfold assignTrue. destruct (m !! key) as [b|] eqn:Eown.
  { apply checked_insert_true. }
  destruct (jsstr_eqb key (js "__proto__")) eqn:Eproto.
  - apply jsstr_eqb_eq in Eproto. subst key.
    destruct (jsstr_eqb (js "__proto__") k) eqn:E; [|reflexivity].
    apply jsstr_eqb_eq in E. subst k. unfold checked.
    unfold Selection in *. rewrite Eown. reflexivity.
  - apply checked_insert_true.
Qed.

Lemma checked_fold events : forall (m : Selection) k,
  checked (fold_left (fun rows event => assignTrue rows (rowKey event)) events m) k
  = checked m k || existsb (fun event => jsstr_eqb (rowKey event) k) events.
Proof.
  induction events as [|e events IH]; intros m k; cbn [fold_left existsb].
  - now rewrite orb_false_r.
  - rewrite IH, checked_assignTrue.
    destruct (jsstr_eqb (rowKey e) k), (checked m k); reflexivity.
Qed.

Lemma filter_all {A} (f : A -> bool) l :
  forallb f l = true -> List.filter f l = l.
Proof.
  induction l as [|x l IH]; [reflexivity|]. cbn [forallb List.filter].
  intros H. apply andb_true_iff in H as [Hx Hl]. rewrite Hx. f_equal. now apply IH.
Qed.

Lemma filter_none {A} (f : A -> bool) l :
  (forall x, f x = false) -> List.filter f l = [].
Proof.
  intros Hf. induction l as [|x l IH]; [reflexivity|]. cbn [List.filter].
  now rewrite Hf.
Qed.

Lemma filter_none_of {A} (f : A -> bool) l :
  (forall x, In x l -> f x = false) -> List.filter f l = [].
Proof.
  induction l as [|x l IH]; intros Hf; [reflexivity|]. cbn [List.filter].
  rewrite (Hf x) by now left. apply IH. intros y Hy. apply Hf. now right.
Qed.


End EventsSelectionCoverage.


Section PesquisasSelectionCoverage.
Import JS PesquisasTableHandlers.

Context {Pesquisa : Type}.
Variable id : Pesquisa -> jsstr.

Lemma includes_id_In prev k : includes_id prev k = true <-> In k prev.
Proof.
  unfold includes_id. rewrite existsb_exists. split.
  - intros (x & Hin & Hx). apply jsstr_eqb_eq in Hx. now subst.
  - intros Hin. exists k. split; [assumption|apply jsstr_eqb_refl].
Qed.

(** X23: a click on the box of a row adds the row to the selection when
    it was not selected and removes it when it was, and changes no other
    row; a selection without repetitions that holds only rows of the
    page stays so when the row clicked is a row of the page. *)
Theorem toggleRowSelection_flips_one_row prev clicked (pesquisas : list Pesquisa) :
  (forall k, includes_id (toggleRowSelection prev clicked) k
             = if jsstr_eqb k clicked then negb (includes_id prev clicked)
               else includes_id prev k) /\
  (List.NoDup prev -> List.NoDup (toggleRowSelection prev clicked)) /\
  (In clicked (map id pesquisas) -> incl prev (map id pesquisas) ->
   incl (toggleRowSelection prev clicked) (map id pesquisas)).
Proof.
  unfold toggleRowSelection. destruct (includes_id prev clicked) eqn:Hin.
  - split; [|split].
    + intros k. destruct (jsstr_eqb k clicked) eqn:E; cbn [negb].
      * apply jsstr_eqb_eq in E. subst k.
        destruct (includes_id (List.filter _ prev) clicked) eqn:E'; [|reflexivity].
        apply includes_id_In, filter_In in E' as [_ E'].
        now rewrite jsstr_eqb_refl in E'.
      * destruct (includes_id prev k) eqn:Ek.
        -- apply includes_id_In. apply filter_In. split; [now apply includes_id_In|].
           now rewrite E.
        -- destruct (includes_id (List.filter _ prev) k) eqn:E'; [|reflexivity].
           apply includes_id_In, filter_In in E' as [E' _].
           apply includes_id_In in E'. congruence.
    + intros Hnd. now apply List.NoDup_filter.
    + intros _ Hincl x Hx. apply filter_In in Hx as [Hx _]. now apply Hincl.
  - split; [|split].
    + intros k. unfold includes_id in *. rewrite existsb_app. cbn [existsb].
      rewrite orb_false_r. destruct (jsstr_eqb k clicked) eqn:E.
      * apply jsstr_eqb_eq in E. subst k. rewrite Hin, jsstr_eqb_refl. reflexivity.
      * assert (E' : jsstr_eqb clicked k = false)
          by (apply jsstr_eqb_neq; apply jsstr_eqb_neq in E; congruence).
        rewrite E'. apply orb_false_r.
    + intros Hnd. apply List.NoDup_app; [assumption|repeat constructor; intros []|].
      intros a Ha [<-|[]]. apply includes_id_In in Ha. congruence.
    + intros Hc Hincl x Hx. apply in_app_or in Hx as [Hx|[<-|[]]]; auto.
Qed.

(** X24: for a selection without repetitions that holds only rows of the
    page (whose ids are distinct), the select-all box empties the
    selection exactly when every row is selected, and selects every row
    otherwise; exporting the selection then hands over the whole page or
    nothing. *)
Theorem select_all_clears_exactly_when_all_selected
        selectedItems (pesquisas : list Pesquisa) :
  List.NoDup (map id pesquisas) -> List.NoDup selectedItems ->
  incl selectedItems (map id pesquisas) ->
  let everyRow :=
    forallb (fun pesquisa => includes_id selectedItems (id pesquisa)) pesquisas in
  toggleSelectAll id selectedItems pesquisas
  = (if everyRow then [] else map id pesquisas) /\
  handleExport id (toggleSelectAll id selectedItems pesquisas) pesquisas
  = (if everyRow then [] else pesquisas).
Proof.
  intros Hids Hsel Hincl everyRow.
  assert (Hlen : (length selectedItems =? length pesquisas)%nat = everyRow).
  { subst everyRow. destruct (forallb _ pesquisas) eqn:Hall.
    - apply Nat.eqb_eq. rewrite forallb_forall in Hall.
      assert (Hback : incl (map id pesquisas) selectedItems).
      { intros k Hk. apply in_map_iff in Hk as (p & <- & Hp).
        apply includes_id_In. now apply Hall. }
      pose proof (NoDup_incl_length Hsel Hincl) as H1.
      pose proof (NoDup_incl_length Hids Hback) as H2.
      rewrite length_map in *. lia.
    - apply Nat.eqb_neq. intros Heq.
      assert (Hback : incl (map id pesquisas) selectedItems).
      { apply (NoDup_length_incl Hsel); [rewrite length_map; lia|assumption]. }
      assert (Htrue : forallb (fun pesquisa => includes_id selectedItems (id pesquisa))
                              pesquisas = true).
      { apply forallb_forall. intros p Hp. apply includes_id_In, Hback.
        now apply in_map. }
      congruence. }
  unfold toggleSelectAll. rewrite Hlen. split; [reflexivity|].
  unfold handleExport. destruct everyRow.
  - apply filter_none. reflexivity.
  - apply filter_all. apply forallb_forall. intros p Hp.
    apply includes_id_In. now apply in_map.
Qed.

End PesquisasSelectionCoverage.

Lemma select_all_clears_exactly_when_all_selected_witness :
  PesquisasTableHandlers.toggleSelectAll (fun p : JS.jsstr => p)
    [JS.js "b"] [JS.js "a"; JS.js "b"]
  = [JS.js "a"; JS.js "b"] /\
  PesquisasTableHandlers.handleExport (fun p : JS.jsstr => p)
    (PesquisasTableHandlers.toggleSelectAll (fun p : JS.jsstr => p)
       [JS.js "b"] [JS.js "a"; JS.js "b"])
    [JS.js "a"; JS.js "b"]
  = [JS.js "a"; JS.js "b"].
Proof.
  apply (select_all_clears_exactly_when_all_selected (fun p : JS.jsstr => p)
           [JS.js "b"] [JS.js "a"; JS.js "b"]).
  - repeat constructor; cbn; intuition discriminate.
  - repeat constructor; cbn; intuition discriminate.
  - intros x [<-|[]]. cbn. auto.
Defined.

(** ** The export of all events: whole runs *)

Section ExportRunCoverage.
Import JS EventsPage EventsTable ExportJob.

Variable server : list Effect -> URLSearchParams.t -> FetchResult ExportData.
Variable user : list Effect -> Message -> bool.
Variable Number_toString_double : JSON.decimal -> jsstr.
Variable formatDateToBRT : jsstr -> jsstr.
Variable inherited : JSON.value -> jsstr -> list jsstr -> option jsstr.
Variable Math_round_scaled : Z -> Z -> Z -> Z.

Local Abbreviation csvContent :=
  (EventsTable.csvContent Number_toString_double formatDateToBRT inherited).
Local Abbreviation handleExportAll :=
  (ExportJob.handleExportAll server user Number_toString_double formatDateToBRT inherited
                             Math_round_scaled).

Lemma extends_ret {A} (a : A) : extends (ret a).
Proof. intros st. exists []. cbn. now rewrite app_nil_r. Qed.

Lemma extends_bind {A B} (m : M A) (k : A -> M B) :
  extends m -> (forall a, extends (k a)) -> extends (bind m k).
Proof.
  intros Hm Hk st. unfold bind. destruct (Hm st) as (tr & Htr).
  destruct (m st) as [[e|a] st1]; cbn [snd] in *; [eauto|].
  destruct (Hk a st1) as (tr' & Htr'). exists (tr ++ tr').
  now rewrite Htr', Htr, app_assoc.
Qed.

Lemma extends_try_catch {A} (m : M A) (h : exn -> M A) :
  extends m -> (forall e, extends (h e)) -> extends (try_catch m h).
Proof.
  intros Hm Hh st. unfold try_catch. destruct (Hm st) as (tr & Htr).
  destruct (m st) as [[e|a] st1]; cbn [snd] in *; [|eauto].
  destruct (Hh e st1) as (tr' & Htr'). exists (tr ++ tr').
  now rewrite Htr', Htr, app_assoc.
Qed.

Lemma extends_emit e : extends (emit e).
Proof. intros st. exists [e]. reflexivity. Qed.

Lemma extends_setAllEvents l : extends (setAllEvents l).
Proof. intros st. exists []. cbn. now rewrite app_nil_r. Qed.

Lemma extends_setUsedPagination b : extends (setUsedPagination b).
Proof. intros st. exists []. cbn. now rewrite app_nil_r. Qed.

Lemma extends_getAllEvents : extends getAllEvents.
Proof. intros st. exists []. cbn. now rewrite app_nil_r. Qed.

Lemma extends_getUsedPagination : extends getUsedPagination.
Proof. intros st. exists []. cbn. now rewrite app_nil_r. Qed.

Lemma extends_confirm message : extends (confirm user message).
Proof. intros st. eexists. reflexivity. Qed.

Lemma extends_fetchEventList query notOk : extends (fetchEventList server query notOk).
Proof.
  intros st. exists [Fetch query]. unfold fetchEventList.
  destruct (server (trace st) query); reflexivity.
Qed.

Create HintDb extends.

#[local] Hint Resolve extends_ret extends_emit extends_setAllEvents
  extends_setUsedPagination extends_getAllEvents extends_getUsedPagination
  extends_confirm extends_fetchEventList : extends.

Ltac extends_step := apply extends_bind; [solve [auto with extends]|intros].

Lemma extends_fetchPages baseParams totalPages n :
  forall page, extends (fetchPages server Math_round_scaled baseParams totalPages n page).
Proof.
  induction n as [|n IH]; intros page; [apply extends_ret|].
  cbn [fetchPages]. do 5 extends_step. apply IH.
Qed.

Lemma extends_fetchPhase baseParams totalRegistros :
  extends (fetchPhase server Math_round_scaled baseParams totalRegistros).
Proof.
  unfold fetchPhase. apply extends_try_catch.
  - unfold directAttempt. do 2 extends_step.
    destruct (_ <? _); [|apply extends_ret].
    do 2 extends_step. unfold fetchAllPages. extends_step. apply extends_fetchPages.
  - intros e. unfold paginatedFallback, fetchAllPages. do 2 extends_step.
    apply extends_fetchPages.
Qed.

(** The exact effects of converting and downloading. *)
Lemma materialize_trace columns st :
  materialize Number_toString_double formatDateToBRT inherited Math_round_scaled columns st
  = (inr tt,
     {| trace :=
          trace st
          ++ flat_map (batchEffects Math_round_scaled
                                    (if usedPagination st then 50 else 0)
                                    (batchCount (Z.of_nat (length (allEvents st)))))
                      (seqZ 0 (batchCount (Z.of_nat (length (allEvents st)))))
          ++ [Download AllEventsFile (csvContent columns (allEvents st))];
        allEvents := allEvents st;
        usedPagination := usedPagination st |}).
Proof.
  unfold materialize, batchCount. unfold bind at 1. unfold getAllEvents at 1.
  unfold bind at 1. unfold getUsedPagination at 1.
  set (len := Z.of_nat (length (allEvents st))).
  pose proof (batchSizeFor_pos len) as Hb.
  destruct (Math_ceil_div_ceiling len (batchSizeFor len) Hb) as (c & Hc & Hceil).
  rewrite Hc. unfold bind at 1.
  assert (H0c : 0 <= c) by (unfold is_ceiling in Hceil; subst len; nia).
  rewrite processBatches_rows by lia.
  unfold emit. cbn [trace allEvents usedPagination].
  rewrite Z.mul_0_l, Z.add_0_l, Z2Nat.id by lia.
  rewrite Z.min_r by (unfold is_ceiling in Hceil; fold len; lia).
  rewrite slice_all, <- app_assoc. reflexivity.
Qed.

Lemma extends_exportAssembled columns totalRegistros :
  extends (exportAssembled user Number_toString_double formatDateToBRT inherited
                           Math_round_scaled columns totalRegistros).
Proof.
  assert (Hm : extends (materialize Number_toString_double formatDateToBRT inherited
                                    Math_round_scaled columns)).
  { intros st. rewrite materialize_trace. eexists. reflexivity. }
  unfold exportAssembled. extends_step.
  destruct (_ =? _)%nat.
  - do 2 extends_step. apply extends_emit.
  - apply extends_bind.
    + destruct (_ <? _); auto with extends.
    + intros []; [exact Hm|]. extends_step. apply extends_emit.
Qed.

(** X25: a run of the export of all events never lets an exception
    escape.  When the user declines the first question nothing else
    happens; otherwise the run starts by switching the loading indicator
    on and ends, whatever happened in between, by switching it off and
    resetting the progress. *)
Theorem handleExportAll_always_resets columns searchParams meta :
  let totalRegistros := match meta with Some m => total m | None => 0 end in
  let go := user [] (MsgConfirmExport totalRegistros) in
  let run := handleExportAll columns searchParams meta initialState in
  fst run = inr tt /\
  (go = false ->
   trace (snd run) = [Confirm (MsgConfirmExport totalRegistros) false]) /\
  (go = true ->
   exists middle,
     trace (snd run)
     = [Confirm (MsgConfirmExport totalRegistros) true;
        SetExportAllLoading true; SetExportProgress 0]
       ++ middle ++ [SetExportAllLoading false; SetExportProgress 0]).
Proof.
  intros totalRegistros go run.
  assert (Hrun : exists st',
            run = (inr tt, st') /\
            (go = false ->
             trace st' = [Confirm (MsgConfirmExport totalRegistros) false]) /\
            (go = true ->
             exists middle,
               trace st'
               = [Confirm (MsgConfirmExport totalRegistros) true;
                  SetExportAllLoading true; SetExportProgress 0]
                 ++ middle ++ [SetExportAllLoading false; SetExportProgress 0])).
  { subst run. unfold ExportJob.handleExportAll. fold totalRegistros.
    unfold bind at 1. unfold confirm at 1. cbn [trace initialState]. fold go.
    destruct go; cbn [negb].
    - unfold try_finally, try_catch. rewrite exportBody_phases.
      set (st1 := exportStarted _).
      assert (Hext : extends
                (bind (fetchPhase server Math_round_scaled
                         (URLSearchParams.delete
                            (URLSearchParams.delete searchParams (js "page"))
                            (js "limit")) totalRegistros)
                      (fun _ => exportAssembled user Number_toString_double
                                  formatDateToBRT inherited Math_round_scaled columns
                                  totalRegistros))).
      { apply extends_bind; [apply extends_fetchPhase|].
        intros _. apply extends_exportAssembled. }
      destruct (Hext st1) as (tr & Htr).
      destruct (bind _ _ st1) as [[e|[]] st2]; cbn [snd] in Htr;
        unfold bind, emit; cbn [fst snd trace allEvents usedPagination];
        eexists; (split; [reflexivity|]); cbn [trace];
        (split; [discriminate|]); intros _;
        rewrite Htr; subst st1; cbn [exportStarted trace app].
      + exists (tr ++ [Alert (MsgExportError e)]). now rewrite <- !app_assoc.
      + exists tr. now rewrite <- !app_assoc.
    - eexists. split; [reflexivity|]. split; [reflexivity|discriminate]. }
  destruct Hrun as (st' & -> & Hno & Hyes). cbn [fst snd]. auto.
Qed.


End ExportRunCoverage.


Lemma applyCurrentFilter_touches_only_its_category_witness :
  exists newParams,
    PesquisasTable.applyCurrentFilter saoPauloHost (Some PesquisasTable.captacao)
      (Some marchRange) surveyUrl = inr (Some newParams) /\
    URLSearchParams.get newParams (JS.js "page") = Some (JS.js "1") /\
    URLSearchParams.get newParams (JS.js "captacao_time_from") = None /\
    URLSearchParams.get newParams (JS.js "vendas_from")
    = Some (JS.js "2024-01-01T03:00:00.000-03:00").
Proof.
  eexists. split; [vm_compute; reflexivity|].
  destruct (applyCurrentFilter_touches_only_its_category saoPauloHost
              PesquisasTable.captacao (Some marchRange) surveyUrl _ eq_refl)
    as (Hpage & Htf & _ & _ & Hother).
  split; [exact Hpage|]. split; [exact Htf|].
  rewrite Hother by (vm_compute; discriminate). reflexivity.
Defined.

Lemma removeFilter_undoes_applyCurrentFilter_witness :
  exists newParams,
    PesquisasTable.applyCurrentFilter saoPauloHost (Some PesquisasTable.captacao)
      (Some marchRange) surveyUrl = inr (Some newParams) /\
    PesquisasTableHandlers.removeFilter PesquisasTable.captacao newParams
    = PesquisasTableHandlers.removeFilter PesquisasTable.captacao surveyUrl.
Proof.
  eexists. split; [vm_compute; reflexivity|].
  apply (removeFilter_undoes_applyCurrentFilter saoPauloHost
           PesquisasTable.captacao (Some marchRange) surveyUrl _ eq_refl).
Defined.

(** ** The lead route *)

Section LeadRouteCoverage.
Import JS EventsPage LeadRoute LeadRouteHandler.

Context {Url : Type}.
Variable apiUrl : Paging -> Url.
Variable fetch : Url -> FetchResult JSON.value.

(** X27: the lead route answers 500 with its fixed empty listing exactly
    when the upstream call fails or its body is [null]; any other body
    is answered with 200, [users] being the [leads] of the body when
    they are an array and empty otherwise, and a [page] or [limit] the
    body lacks being read with [parseInt] from the request's own
    parameter, [NaN] when that is not a number. *)
Theorem lead_route_answers_500_exactly_on_failure searchParams :
  let upstream := fetch (apiUrl (paging searchParams)) in
  let answer := GET apiUrl fetch searchParams in
  (status answer = 500 <-> upstreamFailed upstream \/ upstream = OkJson JSON.Null) /\
  (status answer = 500 -> body answer = errorEnvelope) /\
  (forall data,
      upstream = OkJson data -> data <> JSON.Null ->
      status answer = 200 /\
      l_users (body answer)
      = match EventsTable.get_prop data (js "leads") with
        | Some (JSON.Array leads) => leads
        | _ => []
        end /\
      (EventsTable.get_prop data (js "limit") = None ->
       l_limit (body answer)
       = of_number (JSNumber.parseInt (limit (paging searchParams)) 0)) /\
      (EventsTable.get_prop data (js "page") = None ->
       l_page (body answer)
       = of_number (JSNumber.parseInt (page (paging searchParams)) 0))).
Proof.
  intros upstream answer. subst answer. unfold GET. fold upstream.
  destruct upstream as [e|st txt| |data]; cbn [status body upstreamFailed].
  1-3: (split; [split; [auto|reflexivity]|]); (split; [reflexivity|]);
       intros data Hd; discriminate.
  destruct data; cbn [transform status body];
    (split; [split; [try discriminate; auto
                    |intros [[]|H]; try reflexivity; discriminate]|]);
    (split; [try discriminate; reflexivity|]);
    intros data Hd Hnn; injection Hd as <-; try congruence;
    cbn [l_users l_limit l_page]; (split; [reflexivity|]); (split; [reflexivity|]);
    split; intros ->; reflexivity.
Qed.

End LeadRouteCoverage.

(** ** Date filters written to the URL and read back *)

Section DateRoundTrip.
Import JS JSDate DateParse PesquisasTable PesquisasTableHandlers.

Lemma digit_char_facts d :
  0 <= d <= 9 ->
  JSON.is_digit (digit_char d) = true /\ Z.of_N (digit_char d - 48) = d /\
  (digit_char d =? 90)%N = false.
Proof.
  intros Hd. unfold digit_char.
  assert (d = 0 \/ d = 1 \/ d = 2 \/ d = 3 \/ d = 4 \/ d = 5 \/ d = 6 \/ d = 7
          \/ d = 8 \/ d = 9) as H by lia.
  decompose [or] H; subst; repeat split; reflexivity.
Qed.

Lemma pad_app w : forall n acc rest, pad w n acc ++ rest = pad w n (acc ++ rest).
Proof. induction w as [|w IH]; intros n acc rest; [reflexivity|]. cbn [pad]. now rewrite IH. Qed.

Lemma read_fixed_add w1 : forall w2 s a,
  read_fixed (w1 + w2) s a
  = match read_fixed w1 s a with
    | Some (v, r) => read_fixed w2 r v
    | None => None
    end.
Proof.
  induction w1 as [|w1 IH]; intros w2 s a; [reflexivity|].
  cbn [Nat.add read_fixed]. destruct s as [|c r]; [reflexivity|].
  destruct (JSON.is_digit c); [apply IH|reflexivity].
Qed.

Lemma read_fixed_pad w : forall n rest a,
  0 <= n < 10 ^ Z.of_nat w ->
  read_fixed w (pad w n rest) a = Some (a * 10 ^ Z.of_nat w + n, rest).
Proof.
  induction w as [|w IH]; intros n rest a Hn.
  - change (10 ^ Z.of_nat 0) with 1 in *. cbn. do 2 f_equal. lia.
  - rewrite Nat2Z.inj_succ, Z.pow_succ_r in * by lia.
    cbn [pad]. replace (S w) with (w + 1)%nat by lia. rewrite read_fixed_add.
    assert (Hmod : 0 <= n mod 10 <= 9) by (pose proof (Z.mod_pos_bound n 10); lia).
    assert (Hq : 0 <= n / 10 < 10 ^ Z.of_nat w).
    { split; [apply Z.div_pos; lia|]. apply Z.div_lt_upper_bound; lia. }
    rewrite IH by assumption. cbn [read_fixed].
    destruct (digit_char_facts _ Hmod) as (Hdig & Hval & _).
    rewrite Hdig, Hval. do 2 f_equal.
    pose proof (Z.div_mod n 10 ltac:(lia)). lia.
Qed.

Lemma replace_first_Z_pad w : forall n acc repl,
  replace_first_Z (pad w n acc) repl = pad w n (replace_first_Z acc repl).
Proof.
  induction w as [|w IH]; intros n acc repl; [reflexivity|].
  cbn [pad]. rewrite IH. cbn [replace_first_Z].
  assert (Hmod : 0 <= n mod 10 <= 9) by (pose proof (Z.mod_pos_bound n 10); lia).
  destruct (digit_char_facts _ Hmod) as (_ & _ & HZ). now rewrite HZ.
Qed.

Lemma day_roundtrip z :
  days_from_civil (fst (fst (civil_from_days z))) (snd (fst (civil_from_days z)))
                  (snd (civil_from_days z)) = z /\
  1 <= snd (fst (civil_from_days z)) <= 12 /\
  1 <= snd (civil_from_days z) <= 31.
Proof.
  unfold civil_from_days, days_from_civil. cbv zeta. cbn [fst snd].
  remember ((z + 719468) / 146097) as era eqn:Eera.
  remember (z + 719468 - era * 146097) as doe eqn:Edoe.
  assert (Hdoe : 0 <= doe <= 146096)
    by (subst doe era; Z.to_euclidean_division_equations; lia).
  assert (Hyoe : 0 <= (doe - doe / 1460 + doe / 36524 - doe / 146096) / 365 <= 399)
    by (Z.to_euclidean_division_equations; lia).
  remember ((doe - doe / 1460 + doe / 36524 - doe / 146096) / 365) as yoe eqn:Eyoe.
  assert (Hdoy : 0 <= doe - (365 * yoe + yoe / 4 - yoe / 100) <= 365)
    by (subst yoe; Z.to_euclidean_division_equations; lia).
  remember (doe - (365 * yoe + yoe / 4 - yoe / 100)) as doy eqn:Edoy.
  remember ((5 * doy + 2) / 153) as mp eqn:Emp.
  assert (Hmp : 0 <= mp <= 11) by (subst mp; Z.to_euclidean_division_equations; lia).
  assert (Hd : 1 <= doy - (153 * mp + 2) / 5 + 1 <= 31)
    by (subst mp; Z.to_euclidean_division_equations; lia).
  destruct (Z.ltb_spec mp 10).
  - destruct (Z.leb_spec (mp + 3) 2); [lia|].
    destruct (Z.ltb_spec 2 (mp + 3)); [|lia].
    replace ((yoe + era * 400 + 0) / 400) with era
      by (clear - Hyoe; Z.to_euclidean_division_equations; lia).
    replace (mp + 3 - 3) with mp by lia.
    split; [Z.to_euclidean_division_equations; lia|lia].
  - destruct (Z.leb_spec (mp - 9) 2); [|lia].
    destruct (Z.ltb_spec 2 (mp - 9)); [lia|].
    replace ((yoe + era * 400 + 1 - 1) / 400) with era
      by (clear - Hyoe; Z.to_euclidean_division_equations; lia).
    replace (mp - 9 + 9) with mp by lia.
    split; [Z.to_euclidean_division_equations; lia|lia].
Qed.

Lemma year_range t :
  -62167219200000 <= t <= 253402300799999 ->
  0 <= fst (fst (civil_from_days (Day t))) <= 9999.
Proof.
  intros Ht. unfold civil_from_days, Day, msPerDay. cbv zeta. cbn [fst].
  remember (t / 86400000 + 719468) as z eqn:Ez.
  assert (Hz : -60 <= z <= 3652364)
    by (subst z; Z.to_euclidean_division_equations; lia).
  clear Ez Ht.
  remember (z / 146097) as era eqn:Eera.
  remember (z - era * 146097) as doe eqn:Edoe.
  assert (Hdoe : 0 <= doe <= 146096)
    by (subst doe era; Z.to_euclidean_division_equations; lia).
  assert (Hyoe : 0 <= (doe - doe / 1460 + doe / 36524 - doe / 146096) / 365 <= 399)
    by (Z.to_euclidean_division_equations; lia).
  remember ((doe - doe / 1460 + doe / 36524 - doe / 146096) / 365) as yoe eqn:Eyoe.
  assert (Hdoy : 0 <= doe - (365 * yoe + yoe / 4 - yoe / 100) <= 365)
    by (subst yoe; Z.to_euclidean_division_equations; lia).
  remember (doe - (365 * yoe + yoe / 4 - yoe / 100)) as doy eqn:Edoy.
  remember ((5 * doy + 2) / 153) as mp eqn:Emp.
  assert (Hmp : 0 <= mp <= 11) by (subst mp; Z.to_euclidean_division_equations; lia).
  assert (Hera : -1 <= era <= 24)
    by (subst era; Z.to_euclidean_division_equations; lia).
  destruct (Z.ltb_spec mp 10).
  - destruct (Z.leb_spec (mp + 3) 2); [lia|].
    Z.to_euclidean_division_equations; lia.
  - destruct (Z.leb_spec (mp - 9) 2); [|lia].
    Z.to_euclidean_division_equations; lia.
Qed.

Variable otherFormats : jsstr -> Date.

(** A bound written by [formatDateWithBrasiliaTimezone] and read back by
    [new Date] is three hours later than the instant written. *)
Lemma formatted_bound_reads_three_hours_late t :
  -62167219200000 <= t <= 253402300799999 ->
  exists c s,
    formatDateWithBrasiliaTimezone (Valid t) = inr (c :: s) /\
    Date_new otherFormats (c :: s) = Valid (t + 3 * msPerHour).
Proof.
  intros Ht. pose proof (year_range t Ht) as Hy.
  destruct (day_roundtrip (Day t)) as (Hrt & Hm & Hd).
  unfold formatDateWithBrasiliaTimezone, toISOString.
  destruct (civil_from_days (Day t)) as [[y m] d] eqn:Eciv. cbn [fst snd] in *.
  destruct (Z.leb_spec 0 y); [|lia]. destruct (Z.leb_spec y 9999); [|lia].
  cbn [andb].
  set (tw := TimeWithinDay t).
  assert (Htw : 0 <= tw < 86400000)
    by (subst tw; unfold TimeWithinDay, msPerDay; apply Z.mod_pos_bound; lia).
  set (hh := tw / msPerHour). set (mi := tw mod msPerHour / msPerMinute).
  set (ss := tw mod msPerMinute / msPerSecond). set (ms := tw mod msPerSecond).
  assert (Hfields : 0 <= hh <= 23 /\ 0 <= mi <= 59 /\ 0 <= ss <= 59 /\ 0 <= ms <= 999
                    /\ MakeTime hh mi ss ms = tw).
  { subst hh mi ss ms. unfold MakeTime, msPerHour, msPerMinute, msPerSecond.
    Z.to_euclidean_division_equations; lia. }
  destruct Hfields as (Hhh & Hmi & Hss & Hms & Hmk).
  set (text :=
         pad 4 y (45%N :: pad 2 m (45%N :: pad 2 d (84%N :: pad 2 hh (58%N ::
           pad 2 mi (58%N :: pad 2 ss (46%N :: pad 3 ms (js "-03:00")))))))).
  assert (Htext :
    replace_first_Z
      (pad 4 y [] ++ js "-" ++ pad 2 m [] ++ js "-" ++ pad 2 d [] ++ js "T"
       ++ pad 2 hh [] ++ js ":" ++ pad 2 mi [] ++ js ":" ++ pad 2 ss [] ++ js "."
       ++ pad 3 ms [] ++ js "Z") (js "-03:00") = text).
  { rewrite !pad_app. cbn [app js list_ascii_of_string map].
    repeat (rewrite replace_first_Z_pad; cbn [replace_first_Z N.eqb Pos.eqb]).
    reflexivity. }
  rewrite Htext.
  assert (Hnew : Date_new otherFormats text = Valid (t + 3 * msPerHour)).
  { unfold Date_new, isoDateTime. subst text.
    rewrite read_fixed_pad by (change (10 ^ Z.of_nat 4) with 10000; lia).
    cbn [mbind option_bind expect_unit N.eqb Pos.eqb].
    rewrite (read_fixed_pad 2) by (change (10 ^ Z.of_nat 2) with 100; lia).
    cbn [mbind option_bind expect_unit N.eqb Pos.eqb].
    rewrite (read_fixed_pad 2) by (change (10 ^ Z.of_nat 2) with 100; lia).
    cbn [mbind option_bind expect_unit N.eqb Pos.eqb].
    rewrite (read_fixed_pad 2) by (change (10 ^ Z.of_nat 2) with 100; lia).
    cbn [mbind option_bind expect_unit N.eqb Pos.eqb].
    rewrite (read_fixed_pad 2) by (change (10 ^ Z.of_nat 2) with 100; lia).
    cbn [mbind option_bind expect_unit N.eqb Pos.eqb].
    rewrite (read_fixed_pad 2) by (change (10 ^ Z.of_nat 2) with 100; lia).
    cbn [mbind option_bind expect_unit N.eqb Pos.eqb].
    rewrite (read_fixed_pad 3) by (change (10 ^ Z.of_nat 3) with 1000; lia).
    cbn [mbind option_bind].
    change (read_offset (js "-03:00")) with (Some (- (3 * msPerHour))).
    cbn [mbind option_bind]. rewrite !Z.mul_0_l, !Z.add_0_l.
    rewrite Hrt, Eciv. rewrite bool_decide_eq_true_2 by reflexivity.
    destruct (Z.leb_spec hh 23); [|lia]. destruct (Z.leb_spec mi 59); [|lia].
    destruct (Z.leb_spec ss 59); [|lia]. cbn [andb].
    rewrite Hmk. unfold MakeDate, TimeClip.
    assert (Hsum : Day t * msPerDay + tw - - (3 * msPerHour) = t + 3 * msPerHour).
    { subst tw. unfold Day, TimeWithinDay, msPerDay, msPerHour.
      pose proof (Z.div_mod t 86400000 ltac:(lia)). lia. }
    rewrite Hsum. unfold msPerHour.
    destruct (Z.leb_spec (Z.abs (t + 3 * 3600000)) 8640000000000000); [reflexivity|lia]. }
  subst text. cbn [pad] in *. eexists _, _. split; [reflexivity|exact Hnew].
Qed.

End DateRoundTrip.

(** ** The export of all events: a page that fails *)

Section ExportFailureCoverage.
Import JS EventsPage EventsTable ExportJob.

Variable server : list Effect -> URLSearchParams.t -> FetchResult ExportData.
Variable user : list Effect -> Message -> bool.
Variable Number_toString_double : JSON.decimal -> jsstr.
Variable formatDateToBRT : jsstr -> jsstr.
Variable inherited : JSON.value -> jsstr -> list jsstr -> option jsstr.
Variable Math_round_scaled : Z -> Z -> Z -> Z.

Local Abbreviation fetchPages := (ExportJob.fetchPages server Math_round_scaled).
Local Abbreviation fetchPhase := (ExportJob.fetchPhase server Math_round_scaled).
(** The page loop when every page is answered from the current trace
    on. *)
Lemma fetchPages_answered_from baseParams totalPages pages n :
  forall page st,
    (forall tr' p, page <= p < page + Z.of_nat n ->
                   server (trace st ++ tr') (pageParams baseParams p)
                   = OkJson {| events := Some (pages p) |}) ->
    fetchPages baseParams totalPages n page st
    = (inr tt,
       {| trace := trace st
                   ++ flat_map (pageEffects Math_round_scaled baseParams totalPages)
                               (seqZ page (Z.of_nat n));
          allEvents := allEvents st ++ concat (map pages (seqZ page (Z.of_nat n)));
          usedPagination := usedPagination st |}).
Proof.
  induction n as [|n IH]; intros page st Hserver.
  - destruct st. cbn. now rewrite !app_nil_r.
  - cbn [ExportJob.fetchPages]. unfold bind at 1. unfold fetchEventList.
    pose proof (Hserver [] page ltac:(lia)) as H0. rewrite app_nil_r in H0.
    rewrite H0. cbn [events].
    unfold bind, getAllEvents, setAllEvents, emit. cbn [trace allEvents usedPagination].
    rewrite IH.
    + cbn [trace allEvents usedPagination].
      rewrite (seqZ_cons page (Z.of_nat (S n))) by lia.
      replace (Z.pred (Z.of_nat (S n))) with (Z.of_nat n) by lia.
      replace (Z.succ page) with (page + 1) by lia.
      cbn [flat_map map concat pageEffects].
      f_equal. f_equal; rewrite <- ?app_assoc; reflexivity.
    + intros tr' p Hp. cbn [trace]. rewrite <- !app_assoc. apply Hserver. lia.
Qed.

(** The page loop when page [k] fails after the pages before it were
    answered. *)
Lemma fetchPages_fails_at baseParams totalPages pages k r n :
  forall page st,
    page <= k < page + Z.of_nat n ->
    (forall tr' p, page <= p < k ->
                   server (trace st ++ tr') (pageParams baseParams p)
                   = OkJson {| events := Some (pages p) |}) ->
    server (trace st
            ++ flat_map (pageEffects Math_round_scaled baseParams totalPages)
                        (seqZ page (k - page)))
           (pageParams baseParams k) = r ->
    directRequestFailed r ->
    fetchPages baseParams totalPages n page st
    = (inl (thrownBy (pageError k) r),
       {| trace := trace st
                   ++ flat_map (pageEffects Math_round_scaled baseParams totalPages)
                               (seqZ page (k - page))
                   ++ [Fetch (pageParams baseParams k)];
          allEvents := allEvents st ++ concat (map pages (seqZ page (k - page)));
          usedPagination := usedPagination st |}).
Proof.
  induction n as [|n IH]; intros page st Hk Hbefore Hat Hfailed; [lia|].
  cbn [ExportJob.fetchPages]. unfold bind at 1. unfold fetchEventList.
  destruct (Z.eq_dec page k) as [->|Hne].
  - rewrite Z.sub_diag in *. cbn [seqZ flat_map app concat map] in *.
    change (seqZ k 0) with (@nil Z) in *. cbn [flat_map map concat] in *.
    rewrite app_nil_r in *. rewrite Hat.
    destruct r; try contradiction; reflexivity.
  - pose proof (Hbefore [] page ltac:(lia)) as H0. rewrite app_nil_r in H0.
    rewrite H0. cbn [events].
    unfold bind, getAllEvents, setAllEvents, emit. cbn [trace allEvents usedPagination].
    assert (Hseq : seqZ page (k - page) = page :: seqZ (page + 1) (k - (page + 1))).
    { rewrite (seqZ_cons page (k - page)) by lia. f_equal. f_equal; lia. }
    rewrite (IH (page + 1)).
    + cbn [trace allEvents usedPagination]. rewrite Hseq.
      cbn [flat_map map concat pageEffects].
      f_equal. f_equal; rewrite <- ?app_assoc; reflexivity.
    + lia.
    + intros tr' p Hp. cbn [trace]. rewrite <- !app_assoc. apply Hbefore. lia.
    + cbn [trace]. rewrite <- Hat, Hseq. cbn [flat_map pageEffects].
      rewrite <- !app_assoc. reflexivity.
    + assumption.
Qed.

(** X29: when the direct export comes back short and page [k] of the
    page-by-page retrieval that follows fails, the error handler runs the
    retrieval again from page 1 without emptying what was accumulated:
    if the second pass succeeds, the assembled events hold the rows of
    the pages before [k] twice. *)
Theorem retry_after_page_failure_repeats_rows
        baseParams totalRegistros st data pages k r :
  let exportParams := URLSearchParams.set baseParams (js "export") (js "true") in
  let n := totalPagesOf totalRegistros in
  let firstPass :=
    trace st ++ [Fetch exportParams; SetExportProgress 1]
    ++ flat_map (pageEffects Math_round_scaled baseParams n) (seqZ 1 (k - 1)) in
  server (trace st) exportParams = OkJson data ->
  Z.of_nat (length (receivedEvents data)) < totalRegistros ->
  1 <= k <= n ->
  (forall tr p, 1 <= p < k ->
                server tr (pageParams baseParams p)
                = OkJson {| events := Some (pages p) |}) ->
  server firstPass (pageParams baseParams k) = r ->
  directRequestFailed r ->
  (forall tr' p, 1 <= p <= n ->
                 server (firstPass
                         ++ [Fetch (pageParams baseParams k); SetExportProgress 1]
                         ++ tr')
                        (pageParams baseParams p)
                 = OkJson {| events := Some (pages p) |}) ->
  exists st',
    fetchPhase baseParams totalRegistros st = (inr tt, st') /\
    allEvents st'
    = concat (map pages (seqZ 1 (k - 1))) ++ concat (map pages (seqZ 1 n)) /\
    usedPagination st' = true.
Proof.
  intros exportParams n firstPass Hdirect Hshort Hk Hbefore Hat Hfailed Hsecond.
  rewrite (fetchPhase_after_short_answer server Math_round_scaled _ _ _ data)
    by assumption.
  fold exportParams. unfold try_catch, fetchAllPages. fold n.
  unfold bind at 1. unfold emit at 1. unfold afterDirectRequest.
  cbn [trace allEvents usedPagination].
  rewrite (fetchPages_fails_at baseParams n pages k r).
  - unfold paginatedFallback, fetchAllPages. fold n.
    unfold bind at 1. unfold setUsedPagination at 1.
    unfold bind at 1. unfold emit at 1. cbn [trace allEvents usedPagination].
    rewrite (fetchPages_answered_from baseParams n pages).
    + eexists. split; [reflexivity|]. cbn [allEvents usedPagination app].
      rewrite Z2Nat.id by lia.
      split; reflexivity.
    + intros tr' p Hp. cbn [trace]. rewrite Z2Nat.id in Hp by lia.
      specialize (Hsecond tr' p ltac:(lia)). subst firstPass.
      rewrite <- !app_assoc in Hsecond. rewrite <- !app_assoc.
      cbn [app] in *. exact Hsecond.
  - rewrite Z2Nat.id by lia. lia.
  - intros tr' p Hp. apply Hbefore. lia.
  - cbn [trace]. subst firstPass. rewrite <- !app_assoc. exact Hat.
  - assumption.
Qed.

(** X30: when the direct export raises an error and page [k] of the
    fallback retrieval fails, the export is given up: the user is shown
    the error of that page, no file is downloaded although the pages
    before [k] were retrieved, and the indicators are reset. *)
Theorem fallback_page_failure_aborts_the_export
        columns searchParams meta pages k r :
  let totalRegistros := match meta with Some m => total m | None => 0 end in
  let baseParams :=
    URLSearchParams.delete (URLSearchParams.delete searchParams (js "page"))
                           (js "limit") in
  let exportParams := URLSearchParams.set baseParams (js "export") (js "true") in
  let n := totalPagesOf totalRegistros in
  let started :=
    [Confirm (MsgConfirmExport totalRegistros) true;
     SetExportAllLoading true; SetExportProgress 0] in
  let retrieved :=
    [Fetch exportParams; SetExportProgress 1]
    ++ flat_map (pageEffects Math_round_scaled baseParams n) (seqZ 1 (k - 1)) in
  user [] (MsgConfirmExport totalRegistros) = true ->
  directRequestFailed (server started exportParams) ->
  1 <= k <= n ->
  (forall tr p, 1 <= p < k ->
                server tr (pageParams baseParams p)
                = OkJson {| events := Some (pages p) |}) ->
  server (started ++ retrieved) (pageParams baseParams k) = r ->
  directRequestFailed r ->
  ExportJob.handleExportAll server user Number_toString_double formatDateToBRT inherited
                            Math_round_scaled columns searchParams meta initialState
  = (inr tt,
     {| trace := started ++ retrieved
                 ++ [Fetch (pageParams baseParams k);
                     Alert (MsgExportError (thrownBy (pageError k) r));
                     SetExportAllLoading false; SetExportProgress 0];
        allEvents := concat (map pages (seqZ 1 (k - 1)));
        usedPagination := true |}).
Proof.
  intros totalRegistros baseParams exportParams n started retrieved
         Hgo Hdirect Hk Hbefore Hat Hfailed.
  unfold ExportJob.handleExportAll. fold totalRegistros.
  unfold bind at 1. unfold confirm at 1. cbn [trace initialState]. rewrite Hgo.
  cbn [negb]. unfold try_finally, try_catch. rewrite exportBody_phases.
  fold baseParams. unfold exportStarted. cbn [trace allEvents usedPagination app].
  fold started. unfold bind at 1.
  rewrite (fetchPhase_after_failed_request server Math_round_scaled)
    by (cbn [trace allEvents]; first [exact Hdirect | reflexivity]).
  fold exportParams. unfold fetchAllPages. fold n.
  unfold bind at 1. unfold emit at 1. unfold afterDirectRequest.
  cbn [trace allEvents usedPagination].
  rewrite (fetchPages_fails_at baseParams n pages k r).
  - unfold bind, emit. cbn [fst snd trace allEvents usedPagination app].
    subst retrieved. rewrite <- !app_assoc. reflexivity.
  - rewrite Z2Nat.id by lia. lia.
  - intros tr' p Hp. apply Hbefore. lia.
  - cbn [trace]. subst retrieved. rewrite <- !app_assoc. exact Hat.
  - assumption.
Qed.

End ExportFailureCoverage.

Lemma retry_after_page_failure_repeats_rows_witness :
  exists st',
    ExportJob.fetchPhase flakyBackend roundHalfUp [] 2500
                         (exportStarted ExportJob.initialState) = (inr tt, st') /\
    ExportJob.allEvents st'
    = concat (map pageOfStore (seqZ 1 (2 - 1)))
      ++ concat (map pageOfStore (seqZ 1 (ExportJob.totalPagesOf 2500))) /\
    ExportJob.usedPagination st' = true.
Proof.
  apply (retry_after_page_failure_repeats_rows flakyBackend roundHalfUp [] 2500
           (exportStarted ExportJob.initialState)
           {| ExportJob.events := Some [] |} pageOfStore 2 (EventsPage.NotOk 503 [])).
  - reflexivity.
  - cbn. lia.
  - vm_compute. split; discriminate.
  - intros tr p Hp. assert (p = 1) as -> by lia. vm_compute. reflexivity.
  - vm_compute. reflexivity.
  - exact I.
  - intros tr' p Hp. change (ExportJob.totalPagesOf 2500) with 3 in Hp.
    assert (p = 1 \/ p = 2 \/ p = 3) as [-> | [-> | ->]] by lia;
      vm_compute; reflexivity.
Defined.

Lemma fallback_page_failure_aborts_the_export_witness :
  ExportJob.handleExportAll brokenBackend alwaysYes integerToString sameText objectBuiltins
    roundHalfUp [nameColumn] [] (Some meta1500) ExportJob.initialState
  = (inr tt,
     {| ExportJob.trace :=
          [ ExportJob.Confirm (ExportJob.MsgConfirmExport 1500) true;
            ExportJob.SetExportAllLoading true; ExportJob.SetExportProgress 0 ]
          ++ ([ ExportJob.Fetch [(JS.js "export", JS.js "true")];
                ExportJob.SetExportProgress 1 ]
              ++ flat_map (pageEffects roundHalfUp [] (ExportJob.totalPagesOf 1500))
                          (seqZ 1 (2 - 1)))
          ++ [ ExportJob.Fetch (ExportJob.pageParams [] 2);
               ExportJob.Alert
                 (ExportJob.MsgExportError
                    (thrownBy (ExportJob.pageError 2) (EventsPage.NotOk 500 [])));
               ExportJob.SetExportAllLoading false; ExportJob.SetExportProgress 0 ];
        ExportJob.allEvents := concat (map (fun _ => [trickyEvent]) (seqZ 1 (2 - 1)));
        ExportJob.usedPagination := true |}).
Proof.
  apply (fallback_page_failure_aborts_the_export brokenBackend alwaysYes
           integerToString sameText objectBuiltins roundHalfUp [nameColumn] [] (Some meta1500)
           (fun _ => [trickyEvent]) 2 (EventsPage.NotOk 500 [])).
  - reflexivity.
  - exact I.
  - vm_compute. split; discriminate.
  - intros tr p Hp. assert (p = 1) as -> by lia. vm_compute. reflexivity.
  - vm_compute. reflexivity.
  - exact I.
Defined.

Section DateFilterReadBack.
Import JS JSDate DateParse PesquisasTable PesquisasTableHandlers.

Variable otherFormats : jsstr -> Date.
Variable LocalTZA : Z -> bool -> Z.

(** X28: a date filter applied to the URL and read back from it (as the
    table does whenever the URL changes) comes back three hours late:
    the bounds are written as their UTC date and time followed by
    [-03:00], so both the start and the end (the last millisecond of the
    local day of the end selected) read back as instants three hours
    after the ones written; the custom times read back as absent. *)
Theorem date_filter_reads_back_three_hours_late
        filter tFrom tTo endOfDay fromTime toTime searchParamsObj :
  minFourDigitYear <= tFrom <= maxFourDigitYear ->
  setHours LocalTZA (Valid tTo) 23 59 59 999 = Valid endOfDay ->
  minFourDigitYear <= endOfDay <= maxFourDigitYear ->
  exists newParams,
    applyCurrentFilter LocalTZA (Some filter)
      (Some {| DateFilter.ch_from := Some (Valid tFrom);
               DateFilter.ch_to := Some (Valid tTo);
               DateFilter.ch_fromTime := fromTime;
               DateFilter.ch_toTime := toTime |})
      searchParamsObj = inr (Some newParams) /\
    activeFilterOfUrl otherFormats newParams filter
    = Some {| DateFilter.ch_from := Some (Valid (tFrom + 3 * msPerHour));
              DateFilter.ch_to := Some (Valid (endOfDay + 3 * msPerHour));
              DateFilter.ch_fromTime := None;
              DateFilter.ch_toTime := None |}.
Proof.
  intros Hfrom Hend Hto.
  destruct (formatted_bound_reads_three_hours_late otherFormats tFrom Hfrom)
    as (c1 & s1 & Hf1 & Hn1).
  destruct (formatted_bound_reads_three_hours_late otherFormats endOfDay Hto)
    as (c2 & s2 & Hf2 & Hn2).
  unfold applyCurrentFilter. rewrite Hf1, Hend, Hf2.
  eexists. split; [reflexivity|].
  unfold activeFilterOfUrl.
  rewrite !(get_delete_ne _ _ (filterName filter ++ js "_from"))
    by (destruct filter; vm_compute; discriminate).
  rewrite (get_set_ne _ _ _ (filterName filter ++ js "_from"))
    by (destruct filter; vm_compute; discriminate).
  rewrite get_set_eq.
  rewrite !(get_delete_ne _ _ (filterName filter ++ js "_to"))
    by (destruct filter; vm_compute; discriminate).
  rewrite get_set_eq.
  rewrite (get_delete_ne _ _ (filterName filter ++ js "_time_from"))
    by (destruct filter; vm_compute; discriminate).
  rewrite !get_delete_eq. rewrite Hn1, Hn2. reflexivity.
Qed.

End DateFilterReadBack.

Lemma date_filter_reads_back_three_hours_late_witness :
  exists newParams,
    PesquisasTable.applyCurrentFilter saoPauloHost (Some PesquisasTable.captacao)
      (Some {| DateFilter.ch_from := Some (JSDate.Valid 1709262000000);
               DateFilter.ch_to := Some (JSDate.Valid 1709434800000);
               DateFilter.ch_fromTime := None;
               DateFilter.ch_toTime := None |})
      surveyUrl = inr (Some newParams) /\
    PesquisasTableHandlers.activeFilterOfUrl (fun _ => JSDate.Invalid) newParams
      PesquisasTable.captacao
    = Some {| DateFilter.ch_from := Some (JSDate.Valid (1709262000000 + 3 * JSDate.msPerHour));
              DateFilter.ch_to := Some (JSDate.Valid (1709521199999 + 3 * JSDate.msPerHour));
              DateFilter.ch_fromTime := None;
              DateFilter.ch_toTime := None |}.
Proof.
  apply (date_filter_reads_back_three_hours_late (fun _ => JSDate.Invalid) saoPauloHost
           PesquisasTable.captacao 1709262000000 1709434800000 1709521199999
           None None surveyUrl);
    first [reflexivity | (vm_compute; split; discriminate)].
Defined.
